(** * SceneManager.cpp: texture registry, material registry and uniform submission

    A shallow embedding of the methods of [SceneManager] (src/SceneManager.cpp)
    that manage the texture table, the material list and the values pushed to
    the shader program, together with the properties stated about them.

    Conventions of the embedding.
    - A method is a computation [M A]: it receives the object (and the ambient
      OpenGL context) and either returns a value and the new state, or stops
      with a [fault] where the C++ has undefined behaviour (a null pointer
      dereferenced, the fixed array indexed outside its bounds).
    - [int] and [GLuint] are [Z]; where the code assigns a [GLuint] to an
      [int] ([FindTextureID]) the conversion is written out
      ([int_of_GLuint]).
    - [float] is modelled by the real numbers: rounding is outside the model,
      and nothing is stated here about the numbers a matrix product or a
      cosine rounds to.
    - Printing to [std::cout] and the image buffer handed out by stb_image are
      not part of the state. *)

From Stdlib Require Import ZArith List Bool Lia Reals Lra.
From Stdlib Require Import String.
From stdpp Require Import base tactics option list gmap strings.

Local Open Scope Z_scope.

(** ** Outcomes and the method monad *)

Inductive fault : Type :=
| NullDereference              (* [p->f(...)] with [p == NULL] *)
| OutOfBounds (index : Z).     (* [a[index]] outside the declared array *)

Inductive outcome (A : Type) : Type :=
| Ok (a : A)
| Fault (f : fault).
Arguments Ok {A} a.
Arguments Fault {A} f.

Module glm.
(** The part of GLM the file uses, over the reals.  GLM is a library the
    repository links against; the definitions follow its documentation:
    column-major 4x4 matrices, [M * v] a linear combination of the columns
    of [M], [scale]/[translate]/[rotate] of <glm/gtx/transform.hpp> applied
    to the identity matrix. *)
Local Open Scope R_scope.

Record vec2 : Type := Vec2 { x2 : R; y2 : R }.
Record vec3 : Type := Vec3 { x3 : R; y3 : R; z3 : R }.
Record vec4 : Type := Vec4 { x : R; y : R; z : R; w : R }.
(** [mat4]: four columns. *)
Record mat4 : Type := Mat4 { c0 : vec4; c1 : vec4; c2 : vec4; c3 : vec4 }.

Definition vadd (a b : vec4) : vec4 :=
  Vec4 (x a + x b) (y a + y b) (z a + z b) (w a + w b).
Definition vscale (a : vec4) (k : R) : vec4 :=
  Vec4 (x a * k) (y a * k) (z a * k) (w a * k).

(** [m * v] *)
Definition mulv (m : mat4) (v : vec4) : vec4 :=
  vadd (vadd (vadd (vscale (c0 m) (x v)) (vscale (c1 m) (y v)))
             (vscale (c2 m) (z v)))
       (vscale (c3 m) (w v)).

(** [a * b]: column [j] of the result is [a * b[j]]. *)
Definition mul (a b : mat4) : mat4 :=
  Mat4 (mulv a (c0 b)) (mulv a (c1 b)) (mulv a (c2 b)) (mulv a (c3 b)).

Definition radians (degrees : R) : R := degrees * (PI / 180).


Definition scale (v : vec3) : mat4 :=
  Mat4 (Vec4 (x3 v) 0 0 0) (Vec4 0 (y3 v) 0 0) (Vec4 0 0 (z3 v) 0) (Vec4 0 0 0 1).

Definition translate (v : vec3) : mat4 :=
  Mat4 (Vec4 1 0 0 0) (Vec4 0 1 0 0) (Vec4 0 0 1 0) (Vec4 (x3 v) (y3 v) (z3 v) 1).

Definition normalize (v : vec3) : vec3 :=
  let n := sqrt (x3 v * x3 v + y3 v * y3 v + z3 v * z3 v) in
  Vec3 (x3 v * (1 / n)) (y3 v * (1 / n)) (z3 v * (1 / n)).

Definition rotate (angle : R) (v : vec3) : mat4 :=
  let c := cos angle in
  let s := sin angle in
  let axis := normalize v in
  let temp := Vec3 ((1 - c) * x3 axis) ((1 - c) * y3 axis) ((1 - c) * z3 axis) in
  Mat4 (Vec4 (c + x3 temp * x3 axis)
             (x3 temp * y3 axis + s * z3 axis)
             (x3 temp * z3 axis - s * y3 axis) 0)
       (Vec4 (y3 temp * x3 axis - s * z3 axis)
             (c + y3 temp * y3 axis)
             (y3 temp * z3 axis + s * x3 axis) 0)
       (Vec4 (z3 temp * x3 axis + s * y3 axis)
             (z3 temp * y3 axis - s * x3 axis)
             (c + z3 temp * z3 axis) 0)
       (Vec4 0 0 0 1).

End glm.


(** ** The OpenGL context

    The texture part of the context that is current on the calling thread:
    the names handed out by [glGenTextures] and still alive, the active
    texture unit, the 2D texture bound on each unit, and the calls received. *)

Definition GLuint : Type := Z.
Definition GLenum : Type := Z.

Definition GL_TEXTURE_2D : GLenum := 0x0DE1.
Definition GL_TEXTURE_WRAP_S : GLenum := 0x2802.
Definition GL_TEXTURE_WRAP_T : GLenum := 0x2803.
Definition GL_TEXTURE_MIN_FILTER : GLenum := 0x2801.
Definition GL_TEXTURE_MAG_FILTER : GLenum := 0x2800.
Definition GL_REPEAT : GLenum := 0x2901.
Definition GL_LINEAR : GLenum := 0x2601.
Definition GL_RGB : GLenum := 0x1907.
Definition GL_RGBA : GLenum := 0x1908.
Definition GL_RGB8 : GLenum := 0x8051.
Definition GL_RGBA8 : GLenum := 0x8058.
Definition GL_UNSIGNED_BYTE : GLenum := 0x1401.
Definition GL_TEXTURE0 : GLenum := 0x84C0.

Inductive GLcall : Type :=
| GenTextures (name : GLuint)
| BindTexture (target : GLenum) (texture : GLuint)
| TexParameteri (target pname param : GLenum)
| TexImage2D (target internalformat : GLenum) (width height : Z) (format type : GLenum)
| GenerateMipmap (target : GLenum)
| ActiveTexture (texture : GLenum).

Record GLcontext : Type := mkGL {
  gl_next_name : GLuint;            (* the next unused texture name *)
  gl_textures : gset Z;             (* names generated and not deleted *)
  gl_active_unit : Z;               (* selected by glActiveTexture *)
  gl_binding : gmap Z GLuint;       (* unit -> texture bound to GL_TEXTURE_2D *)
  gl_calls : list GLcall            (* calls received, oldest first *)
}.

(** ** The shader manager

    [ShaderManager] is a collaborator; what matters here is which
    [set...Value] calls it receives, in which order. *)

Inductive uniform_value : Type :=
| IntValue (v : Z)
| BoolValue (b : bool)
| FloatValue (v : R)
| Vec2Value (v : glm.vec2)
| Vec3Value (v : glm.vec3)
| Vec4Value (v : glm.vec4)
| Mat4Value (v : glm.mat4)
| Sampler2DValue (slot : Z).

Definition ShaderManager : Type := list (string * uniform_value).

(** ** The scene manager *)

Record TEXTURE_INFO : Type := mkTexture { ID : GLuint; tag : string }.

Record OBJECT_MATERIAL : Type := mkMaterial {
  diffuseColor : glm.vec3;
  specularColor : glm.vec3;
  shininess : R;
  material_tag : string             (* the member [tag] *)
}.

Record SceneManager : Type := mkScene {
  m_pShaderManager : option ShaderManager;      (* [None] is NULL *)
  m_textureIDs : list TEXTURE_INFO;             (* fixed array: its length is its capacity *)
  m_loadedTextures : Z;
  m_objectMaterials : list OBJECT_MATERIAL;     (* std::vector *)
  gl : GLcontext                                (* the ambient OpenGL context *)
}.

Definition set_shader (v : option ShaderManager) (s : SceneManager) : SceneManager :=
  mkScene v (m_textureIDs s) (m_loadedTextures s) (m_objectMaterials s) (gl s).
Definition set_textureIDs (v : list TEXTURE_INFO) (s : SceneManager) : SceneManager :=
  mkScene (m_pShaderManager s) v (m_loadedTextures s) (m_objectMaterials s) (gl s).
Definition set_loadedTextures (v : Z) (s : SceneManager) : SceneManager :=
  mkScene (m_pShaderManager s) (m_textureIDs s) v (m_objectMaterials s) (gl s).
Definition set_objectMaterials (v : list OBJECT_MATERIAL) (s : SceneManager) : SceneManager :=
  mkScene (m_pShaderManager s) (m_textureIDs s) (m_loadedTextures s) v (gl s).
Definition set_gl (v : GLcontext) (s : SceneManager) : SceneManager :=
  mkScene (m_pShaderManager s) (m_textureIDs s) (m_loadedTextures s) (m_objectMaterials s) v.

Definition M (A : Type) : Type := SceneManager -> outcome (A * SceneManager).

Definition ret {A} (a : A) : M A := fun s => Ok (a, s).
Definition bind {A B} (m : M A) (k : A -> M B) : M B :=
  fun s => match m s with
           | Ok (a, s') => k a s'
           | Fault f => Fault f
           end.
Definition fail {A} (f : fault) : M A := fun _ => Fault f.
Definition get : M SceneManager := fun s => Ok (s, s).
Definition modify (f : SceneManager -> SceneManager) : M unit := fun s => Ok (tt, f s).

Declare Scope method_scope.
Delimit Scope method_scope with method.
Notation "x <- m ;; k" := (bind m (fun x => k))
  (at level 100, m at next level, right associativity) : method_scope.
Notation "m ;; k" := (bind m (fun _ => k))
  (at level 100, right associativity) : method_scope.
Local Open Scope method_scope.

(** [for (int i = start; i < start + n; i++) body(i)] *)
Fixpoint for_loop (n : nat) (i : Z) (body : Z -> M unit) : M unit :=
  match n with
  | O => ret tt
  | S n' => body i ;; for_loop n' (i + 1) body
  end.

(** *** OpenGL entry points *)

Definition gl_record (c : GLcall) (g : GLcontext) : GLcontext :=
  mkGL (gl_next_name g) (gl_textures g) (gl_active_unit g) (gl_binding g) (gl_calls g ++ [c]).

(** [glGenTextures(1, &name)]: returns the name. *)
Definition glGenTextures : M GLuint := fun s =>
  let g := gl s in
  let name := gl_next_name g in
  Ok (name, set_gl (gl_record (GenTextures name)
                      (mkGL (name + 1) ({[name]} ∪ gl_textures g)
                            (gl_active_unit g) (gl_binding g) (gl_calls g))) s).

Definition glBindTexture (target : GLenum) (texture : GLuint) : M unit :=
  modify (fun s =>
    let g := gl s in
    set_gl (gl_record (BindTexture target texture)
              (mkGL (gl_next_name g) (gl_textures g) (gl_active_unit g)
                    (<[gl_active_unit g := texture]> (gl_binding g)) (gl_calls g))) s).

Definition glActiveTexture (texture : GLenum) : M unit :=
  modify (fun s =>
    let g := gl s in
    set_gl (gl_record (ActiveTexture texture)
              (mkGL (gl_next_name g) (gl_textures g) (texture - GL_TEXTURE0)
                    (gl_binding g) (gl_calls g))) s).

Definition glTexParameteri (target pname param : GLenum) : M unit :=
  modify (fun s => set_gl (gl_record (TexParameteri target pname param) (gl s)) s).

Definition glTexImage2D (target internalformat : GLenum) (width height : Z)
    (format type : GLenum) : M unit :=
  modify (fun s =>
    set_gl (gl_record (TexImage2D target internalformat width height format type) (gl s)) s).

Definition glGenerateMipmap (target : GLenum) : M unit :=
  modify (fun s => set_gl (gl_record (GenerateMipmap target) (gl s)) s).

(** *** Access to the members *)

(** [m_textureIDs[index]] read. *)
Definition texture_at (index : Z) : M TEXTURE_INFO := fun s =>
  if 0 <=? index then
    match m_textureIDs s !! Z.to_nat index with
    | Some e => Ok (e, s)
    | None => Fault (OutOfBounds index)
    end
  else Fault (OutOfBounds index).

(** [m_textureIDs[index].member = ...], the assignment given as a function
    on the element. *)
Definition texture_assign (index : Z) (f : TEXTURE_INFO -> TEXTURE_INFO) : M unit :=
  e <- texture_at index ;;
  modify (fun s => set_textureIDs (<[Z.to_nat index := f e]> (m_textureIDs s)) s).

Definition assign_ID (v : GLuint) (e : TEXTURE_INFO) : TEXTURE_INFO := mkTexture v (tag e).
Definition assign_tag (v : string) (e : TEXTURE_INFO) : TEXTURE_INFO := mkTexture (ID e) v.

(** [m_pShaderManager->set...Value(name, value)] *)
Definition shader_set (name : string) (value : uniform_value) : M unit := fun s =>
  match m_pShaderManager s with
  | Some sm => Ok (tt, set_shader (Some (sm ++ [(name, value)])) s)
  | None => Fault NullDereference
  end.

(** [a.compare(b)] of std::string: negative, zero or positive. *)
Definition string_compare (a b : string) : Z :=
  match String.compare a b with
  | Eq => 0
  | Lt => -1
  | Gt => 1
  end.

(** ** The methods *)

(** What [stbi_load] hands back for a decoded file. *)
Record stbi_image : Type := mkImage { width : Z; height : Z; colorChannels : Z }.

Section Loading.

(** The image loader: [stbi_load filename] is [None] where the C function
    returns NULL (the file cannot be read or decoded). *)
Variable stbi_load : string -> option stbi_image.

(** [CreateGLTexture] (lines 60-124).  The [return false] of the channel test
    leaves the method before the registration; [uploaded] carries that
    decision to the end of the block. *)
Definition CreateGLTexture (filename : string) (tag : string) : M bool :=
  match stbi_load filename with
  | Some image =>
      textureID <- glGenTextures ;;
      glBindTexture GL_TEXTURE_2D textureID ;;
      glTexParameteri GL_TEXTURE_2D GL_TEXTURE_WRAP_S GL_REPEAT ;;
      glTexParameteri GL_TEXTURE_2D GL_TEXTURE_WRAP_T GL_REPEAT ;;
      glTexParameteri GL_TEXTURE_2D GL_TEXTURE_MIN_FILTER GL_LINEAR ;;
      glTexParameteri GL_TEXTURE_2D GL_TEXTURE_MAG_FILTER GL_LINEAR ;;
      uploaded <-
        (if colorChannels image =? 3 then
           glTexImage2D GL_TEXTURE_2D GL_RGB8 (width image) (height image)
                        GL_RGB GL_UNSIGNED_BYTE ;;
           ret true
         else if colorChannels image =? 4 then
           glTexImage2D GL_TEXTURE_2D GL_RGBA8 (width image) (height image)
                        GL_RGBA GL_UNSIGNED_BYTE ;;
           ret true
         else ret false) ;;
      if uploaded : bool then
        glGenerateMipmap GL_TEXTURE_2D ;;
        glBindTexture GL_TEXTURE_2D 0 ;;
        s <- get ;;
        texture_assign (m_loadedTextures s) (assign_ID textureID) ;;
        texture_assign (m_loadedTextures s) (assign_tag tag) ;;
        modify (set_loadedTextures (m_loadedTextures s + 1)) ;;
        ret true
      else ret false
  | None => ret false
  end.

(** A run of [CreateGLTexture] calls, as in [LoadSceneTextures]; the results
    are kept in call order. *)
Fixpoint load_textures (calls : list (string * string)) : M (list bool) :=
  match calls with
  | [] => ret []
  | (filename, tag) :: rest =>
      bReturn <- CreateGLTexture filename tag ;;
      results <- load_textures rest ;;
      ret (bReturn :: results)
  end.

End Loading.

(** [BindGLTextures] (lines 132-140) *)
Definition BindGLTextures : M unit :=
  s <- get ;;
  for_loop (Z.to_nat (m_loadedTextures s)) 0 (fun i =>
    glActiveTexture (GL_TEXTURE0 + i) ;;
    e <- texture_at i ;;
    glBindTexture GL_TEXTURE_2D (ID e)).

(** [DestroyGLTextures] (lines 148-154) *)
Definition DestroyGLTextures : M unit :=
  s <- get ;;
  for_loop (Z.to_nat (m_loadedTextures s)) 0 (fun i =>
    name <- glGenTextures ;;
    texture_assign i (assign_ID name)).

(** The loop of [FindTextureSlot], entered with [index] and with
    [n = m_loadedTextures - index] elements left to visit; the result is the
    value of [textureSlot] when the loop ends. *)
Fixpoint FindTextureSlot_loop (n : nat) (index : Z) (tag0 : string) : M Z :=
  match n with
  | O => ret (-1)
  | S n' =>
      e <- texture_at index ;;
      if string_compare (tag e) tag0 =? 0 then ret index
      else FindTextureSlot_loop n' (index + 1) tag0
  end.

(** [FindTextureSlot] (lines 188-206) *)
Definition FindTextureSlot (tag0 : string) : M Z :=
  s <- get ;;
  FindTextureSlot_loop (Z.to_nat (m_loadedTextures s)) 0 tag0.

(** [m_objectMaterials[index]] *)
Definition material_at (index : Z) : M OBJECT_MATERIAL := fun s =>
  if 0 <=? index then
    match m_objectMaterials s !! Z.to_nat index with
    | Some m => Ok (m, s)
    | None => Fault (OutOfBounds index)
    end
  else Fault (OutOfBounds index).

(** The loop of [FindMaterial], entered with [index] and [bFound == false],
    with [n = size - index] elements left; the result is [bFound] and the
    referent of [material] when the loop ends. *)
Fixpoint FindMaterial_loop (n : nat) (index : Z) (tag0 : string)
    (material : OBJECT_MATERIAL) : M (bool * OBJECT_MATERIAL) :=
  match n with
  | O => ret (false, material)
  | S n' =>
      m <- material_at index ;;
      if string_compare (material_tag m) tag0 =? 0 then
        ret (true, mkMaterial (diffuseColor m) (specularColor m) (shininess m)
                              (material_tag material))
      else FindMaterial_loop n' (index + 1) tag0 material
  end.

(** [FindMaterial] (lines 214-239).  [material] is the referent of the
    reference parameter on entry; the second component of the result is the
    referent on return. *)
Definition FindMaterial (tag0 : string) (material : OBJECT_MATERIAL)
    : M (bool * OBJECT_MATERIAL) :=
  s <- get ;;
  if Z.of_nat (length (m_objectMaterials s)) =? 0 then ret (false, material)
  else
    r <- FindMaterial_loop (length (m_objectMaterials s)) 0 tag0 material ;;
    let '(bFound, material') := r in
    ret (true, material').

(** [if (NULL != m_pShaderManager) { ... }] *)
Definition when_shader (body : M unit) : M unit :=
  s <- get ;;
  match m_pShaderManager s with
  | Some _ => body
  | None => ret tt
  end.

Definition g_ModelName : string := "model".
Definition g_ColorValueName : string := "objectColor".
Definition g_TextureValueName : string := "objectTexture".
Definition g_UseTextureName : string := "bUseTexture".
Definition g_UseLightingName : string := "bUseLighting".

(** The matrix [SetTransformations] builds (line 271); [*] associates to the
    left. *)
Definition modelView (scaleXYZ : glm.vec3) (XrotationDegrees YrotationDegrees
    ZrotationDegrees : R) (positionXYZ : glm.vec3) : glm.mat4 :=
  let scale := glm.scale scaleXYZ in
  let rotationX := glm.rotate (glm.radians XrotationDegrees) (glm.Vec3 1 0 0) in
  let rotationY := glm.rotate (glm.radians YrotationDegrees) (glm.Vec3 0 1 0) in
  let rotationZ := glm.rotate (glm.radians ZrotationDegrees) (glm.Vec3 0 0 1) in
  let translation := glm.translate positionXYZ in
  glm.mul (glm.mul (glm.mul (glm.mul translation rotationZ) rotationY) rotationX) scale.

(** [SetTransformations] (lines 247-277) *)
Definition SetTransformations (scaleXYZ : glm.vec3) (XrotationDegrees
    YrotationDegrees ZrotationDegrees : R) (positionXYZ : glm.vec3) : M unit :=
  when_shader
    (shader_set g_ModelName
       (Mat4Value (modelView scaleXYZ XrotationDegrees YrotationDegrees
                             ZrotationDegrees positionXYZ))).

(** [SetShaderColor] (lines 285-304) *)
Definition SetShaderColor (redColorValue greenColorValue blueColorValue
    alphaValue : R) : M unit :=
  let currentColor := glm.Vec4 redColorValue greenColorValue blueColorValue alphaValue in
  when_shader
    (shader_set g_UseTextureName (IntValue 0) ;;
     shader_set g_ColorValueName (Vec4Value currentColor)).

(** [SetShaderTexture] (lines 312-323) *)
Definition SetShaderTexture (textureTag : string) : M unit :=
  when_shader
    (shader_set g_UseTextureName (IntValue 1) ;;
     textureID <- FindTextureSlot textureTag ;;
     shader_set g_TextureValueName (Sampler2DValue textureID)).

(** [SetTextureUVScale] (lines 331-337) *)
Definition SetTextureUVScale (u v : R) : M unit :=
  when_shader (shader_set "UVscale" (Vec2Value (glm.Vec2 u v))).

(** [SetShaderMaterial] (lines 345-361).  The local [material] is declared
    without an initialiser: [indeterminate] stands for what it holds before
    [FindMaterial] is called. *)
Definition SetShaderMaterial (materialTag : string) (indeterminate : OBJECT_MATERIAL)
    : M unit :=
  s <- get ;;
  if 0 <? Z.of_nat (length (m_objectMaterials s)) then
    r <- FindMaterial materialTag indeterminate ;;
    let '(bReturn, material) := r in
    if bReturn : bool then
      shader_set "material.diffuseColor" (Vec3Value (diffuseColor material)) ;;
      shader_set "material.specularColor" (Vec3Value (specularColor material)) ;;
      shader_set "material.shininess" (FloatValue (shininess material))
    else ret tt
  else ret tt.

(** [m_objectMaterials.push_back(material)] *)
Definition push_back (material : OBJECT_MATERIAL) : M unit :=
  modify (fun s => set_objectMaterials (m_objectMaterials s ++ [material]) s).

(** [DefineObjectMaterials] (lines 429-483) *)
Definition goldMaterial : OBJECT_MATERIAL :=
  mkMaterial (glm.Vec3 0.3 0.3 0.2) (glm.Vec3 0.6 0.5 0.4) 22.0 "gold".
Definition cementMaterial : OBJECT_MATERIAL :=
  mkMaterial (glm.Vec3 0.5 0.5 0.5) (glm.Vec3 0.4 0.4 0.4) 0.5 "cement".
Definition woodMaterial : OBJECT_MATERIAL :=
  mkMaterial (glm.Vec3 0.3 0.2 0.1) (glm.Vec3 0.1 0.1 0.1) 0.3 "wood".
Definition tileMaterial : OBJECT_MATERIAL :=
  mkMaterial (glm.Vec3 0.3 0.2 0.1) (glm.Vec3 0.4 0.5 0.6) 25.0 "tile".
Definition glassMaterial : OBJECT_MATERIAL :=
  mkMaterial (glm.Vec3 0.3 0.3 0.3) (glm.Vec3 0.6 0.6 0.6) 85.0 "glass".
Definition clayMaterial : OBJECT_MATERIAL :=
  mkMaterial (glm.Vec3 0.4 0.4 0.5) (glm.Vec3 0.2 0.2 0.4) 0.5 "clay".
Definition plasticClear : OBJECT_MATERIAL :=
  mkMaterial (glm.Vec3 0.95 0.95 0.95) (glm.Vec3 0.75 0.75 0.75) 96.0 "plasticClear".

Definition DefineObjectMaterials : M unit :=
  push_back goldMaterial ;;
  push_back cementMaterial ;;
  push_back woodMaterial ;;
  push_back tileMaterial ;;
  push_back glassMaterial ;;
  push_back clayMaterial ;;
  push_back plasticClear.

(** The calls of [LoadSceneTextures] (lines 370-421), before [BindGLTextures]. *)
Definition scene_textures : list (string * string) :=
  [ ("textures/Onyx011_2K-JPG_Color.jpg", "onyx");
    ("textures/Ice002_2K-JPG_Color.jpg", "ice");
    ("textures/Wood066_2K-JPG_Color.jpg", "wood");
    ("textures/Ground035_4K-JPG_Color.jpg", "ground");
    ("textures/Concrete044D_2K-JPG_Color.jpg", "concrete");
    ("textures/Metal049A_2K-JPG_Color.jpg", "metal");
    ("textures/Wood032_2K-JPG_Color.jpg", "wood2");
    ("textures/meat_color_2k.jpg", "meat") ].

Definition LoadSceneTextures (stbi_load : string -> option stbi_image) : M unit :=
  load_textures stbi_load scene_textures ;;
  BindGLTextures.

(** ** Notions used in the statements *)

(** The registered entries: the first [m_loadedTextures] elements of the table. *)
Definition registry (s : SceneManager) : list TEXTURE_INFO :=
  take (Z.to_nat (m_loadedTextures s)) (m_textureIDs s).

(** The counter stays within the table. *)
Definition within_capacity (s : SceneManager) : Prop :=
  0 <= m_loadedTextures s <= Z.of_nat (length (m_textureIDs s)).

(** [loaded stbi_load s0 entries s]: [s] is reached from [s0] by a series of
    [CreateGLTexture] calls; [entries] lists, in call order, the tag given to
    each call that returned [true] and the handle that call stored. *)
Inductive loaded (stbi_load : string -> option stbi_image)
    : SceneManager -> list TEXTURE_INFO -> SceneManager -> Prop :=
| loaded_none s : loaded stbi_load s [] s
| loaded_success s0 entries s1 filename tag0 s2 handle :
    loaded stbi_load s0 entries s1 ->
    CreateGLTexture stbi_load filename tag0 s1 = Ok (true, s2) ->
    ID <$> (m_textureIDs s2 !! Z.to_nat (m_loadedTextures s1)) = Some handle ->
    loaded stbi_load s0 (entries ++ [mkTexture handle tag0]) s2
| loaded_failure s0 entries s1 filename tag0 s2 :
    loaded stbi_load s0 entries s1 ->
    CreateGLTexture stbi_load filename tag0 s1 = Ok (false, s2) ->
    loaded stbi_load s0 entries s2.

(** The uniforms an operation submitted: what the shader manager of [s']
    received beyond what that of [s] had received. *)
Definition submitted (s s' : SceneManager) (calls : ShaderManager) : Prop :=
  match m_pShaderManager s, m_pShaderManager s' with
  | Some sm, Some sm' => sm' = sm ++ calls
  | None, None => calls = []
  | _, _ => False
  end.

(** Modelled from the spec: the class declaration (SceneManager.h) is not in
    src/.  The texture table has the 16 slots that the comments of the file
    and the spec speak of; a new object has no texture loaded and no material
    defined. *)
Definition MAX_TEXTURES : nat := 16.
Definition SceneManager_new (pShaderManager : option ShaderManager) (g : GLcontext)
    : SceneManager :=
  mkScene pShaderManager (replicate MAX_TEXTURES (mkTexture 0 EmptyString)) 0 [] g.

(** A context in which no texture has been generated. *)
Definition GL_initial : GLcontext := mkGL 1 ∅ 0 ∅ [].

(** ** Concrete scenes

    The scenario of the spec: an RGB image "a.jpg" and an RGBA image "b.png";
    "gray.png" decodes to a single channel and every other path is unreadable. *)

Definition example_files (filename : string) : option stbi_image :=
  if String.eqb filename "a.jpg" then Some (mkImage 64 64 3)
  else if String.eqb filename "b.png" then Some (mkImage 32 32 4)
  else if String.eqb filename "gray.png" then Some (mkImage 8 8 1)
  else None.

(** A loader for which every path is a readable RGB image. *)
Definition any_rgb (filename : string) : option stbi_image := Some (mkImage 2 2 3).

(** A new object with a shader manager that has received nothing yet. *)
Definition new_scene : SceneManager := SceneManager_new (Some []) GL_initial.

(** A new object constructed with a NULL shader manager. *)
Definition null_scene : SceneManager := SceneManager_new None GL_initial.

(** [new_scene] and [null_scene] once [goldMaterial] has been defined. *)
Definition gold_scene : SceneManager := set_objectMaterials [goldMaterial] new_scene.
Definition null_gold_scene : SceneManager := set_objectMaterials [goldMaterial] null_scene.

(** [new_scene] after "a.jpg" was loaded as "wood" and "b.png" as "glass":
    [glGenTextures] handed out the names 1 and 2. *)
Definition wood_glass_scene : SceneManager :=
  mkScene (Some [])
    (mkTexture 1 "wood" :: mkTexture 2 "glass" :: replicate 14 (mkTexture 0 EmptyString))
    2 []
    (mkGL 3 {[1; 2]} 0 {[0 := 0]}
       [ GenTextures 1; BindTexture GL_TEXTURE_2D 1;
         TexParameteri GL_TEXTURE_2D GL_TEXTURE_WRAP_S GL_REPEAT;
         TexParameteri GL_TEXTURE_2D GL_TEXTURE_WRAP_T GL_REPEAT;
         TexParameteri GL_TEXTURE_2D GL_TEXTURE_MIN_FILTER GL_LINEAR;
         TexParameteri GL_TEXTURE_2D GL_TEXTURE_MAG_FILTER GL_LINEAR;
         TexImage2D GL_TEXTURE_2D GL_RGB8 64 64 GL_RGB GL_UNSIGNED_BYTE;
         GenerateMipmap GL_TEXTURE_2D; BindTexture GL_TEXTURE_2D 0;
         GenTextures 2; BindTexture GL_TEXTURE_2D 2;
         TexParameteri GL_TEXTURE_2D GL_TEXTURE_WRAP_S GL_REPEAT;
         TexParameteri GL_TEXTURE_2D GL_TEXTURE_WRAP_T GL_REPEAT;
         TexParameteri GL_TEXTURE_2D GL_TEXTURE_MIN_FILTER GL_LINEAR;
         TexParameteri GL_TEXTURE_2D GL_TEXTURE_MAG_FILTER GL_LINEAR;
         TexImage2D GL_TEXTURE_2D GL_RGBA8 32 32 GL_RGBA GL_UNSIGNED_BYTE;
         GenerateMipmap GL_TEXTURE_2D; BindTexture GL_TEXTURE_2D 0 ]).

(** ** The rest of the texture and lighting code *)

(** [textureID = m_textureIDs[index].ID] (line 172): the handle is a
    [GLuint] and [textureID] an [int] of 32 bits, so the value is kept below
    2^31 and is 2^32 less from there on. *)
Definition int_of_GLuint (v : GLuint) : Z := (v + 2 ^ 31) mod 2 ^ 32 - 2 ^ 31.

(** The loop of [FindTextureID], entered with [index] and with
    [n = m_loadedTextures - index] elements left to visit; the result is the
    value of [textureID] when the loop ends. *)
Fixpoint FindTextureID_loop (n : nat) (index : Z) (tag0 : string) : M Z :=
  match n with
  | O => ret (-1)
  | S n' =>
      e <- texture_at index ;;
      if string_compare (tag e) tag0 =? 0 then ret (int_of_GLuint (ID e))
      else FindTextureID_loop n' (index + 1) tag0
  end.

(** [FindTextureID] (lines 162-180) *)
Definition FindTextureID (tag0 : string) : M Z :=
  s <- get ;;
  FindTextureID_loop (Z.to_nat (m_loadedTextures s)) 0 tag0.

(** [m_pShaderManager->setVec3Value(name, x, y, z)], the overload that takes
    the three components. *)
Definition shader_set3 (name : string) (x y z : R) : M unit :=
  shader_set name (Vec3Value (glm.Vec3 x y z)).

(** [SetupSceneLights] (lines 491-550) *)
Definition SetupSceneLights : M unit :=
  shader_set g_UseLightingName (BoolValue true) ;;
  shader_set3 "directionalLight.direction" (-0.05) (-0.3) (-0.1) ;;
  shader_set3 "directionalLight.ambient" 0.05 0.05 0.05 ;;
  shader_set3 "directionalLight.diffuse" 0.6 0.6 0.6 ;;
  shader_set3 "directionalLight.specular" 0.0 0.0 0.0 ;;
  shader_set "directionalLight.bActive" (BoolValue true) ;;
  shader_set3 "pointLights[0].position" (-4.0) 8.0 0.0 ;;
  shader_set3 "pointLights[0].ambient" 0.05 0.05 0.05 ;;
  shader_set3 "pointLights[0].diffuse" 0.3 0.3 0.3 ;;
  shader_set3 "pointLights[0].specular" 0.1 0.1 0.1 ;;
  shader_set "pointLights[0].bActive" (BoolValue true) ;;
  shader_set3 "pointLights[1].position" 4.0 8.0 0.0 ;;
  shader_set3 "pointLights[1].ambient" 0.05 0.05 0.05 ;;
  shader_set3 "pointLights[1].diffuse" 0.3 0.3 0.3 ;;
  shader_set3 "pointLights[1].specular" 0.1 0.1 0.1 ;;
  shader_set "pointLights[1].bActive" (BoolValue true) ;;
  shader_set3 "pointLights[2].position" 3.8 5.5 4.0 ;;
  shader_set3 "pointLights[2].ambient" 0.06 0.03 0.00 ;;
  shader_set3 "pointLights[2].diffuse" 0.95 0.50 0.15 ;;
  shader_set3 "pointLights[2].specular" 1.0 0.9 0.8 ;;
  shader_set "pointLights[2].bActive" (BoolValue true) ;;
  shader_set3 "pointLights[3].position" 3.8 3.5 4.0 ;;
  shader_set3 "pointLights[3].ambient" 0.05 0.05 0.05 ;;
  shader_set3 "pointLights[3].diffuse" 0.2 0.2 0.2 ;;
  shader_set3 "pointLights[3].specular" 0.8 0.8 0.8 ;;
  shader_set "pointLights[3].bActive" (BoolValue true) ;;
  shader_set3 "pointLights[4].position" (-3.2) 6.0 (-4.0) ;;
  shader_set3 "pointLights[4].ambient" 0.05 0.05 0.05 ;;
  shader_set3 "pointLights[4].diffuse" 0.9 0.9 0.9 ;;
  shader_set3 "pointLights[4].specular" 0.1 0.1 0.1 ;;
  shader_set "pointLights[4].bActive" (BoolValue true) ;;
  shader_set3 "spotLight.ambient" 0.8 0.8 0.8 ;;
  shader_set3 "spotLight.diffuse" 1.0 1.0 1.0 ;;
  shader_set3 "spotLight.specular" 0.7 0.7 0.7 ;;
  shader_set "spotLight.constant" (FloatValue 1.0) ;;
  shader_set "spotLight.linear" (FloatValue 0.09) ;;
  shader_set "spotLight.quadratic" (FloatValue 0.032) ;;
  shader_set "spotLight.cutOff" (FloatValue (cos (glm.radians 42.5))) ;;
  shader_set "spotLight.outerCutOff" (FloatValue (cos (glm.radians 48.0))) ;;
  shader_set "spotLight.bActive" (BoolValue true).

(** ** Preparing and drawing the scene

    The mesh object [m_basicMeshes] and the blending switches of OpenGL are
    outside the state modelled here.  [PrepareScene] returns the calls it
    makes on them, in order; [RenderScene] returns its draw calls, each with
    what the shader manager had received when the call was made. *)

Definition GL_BLEND : GLenum := 0x0BE2.
Definition GL_SRC_ALPHA : GLenum := 0x0302.
Definition GL_ONE_MINUS_SRC_ALPHA : GLenum := 0x0303.

Inductive setup_call : Type :=
| LoadPlaneMesh
| LoadBoxMesh
| LoadPyramid4Mesh
| LoadCylinderMesh
| LoadTaperedCylinderMesh
| LoadTorusMesh
| LoadSphereMesh
| glEnable (cap : GLenum)
| glBlendFunc (sfactor dfactor : GLenum).

(** [PrepareScene] (lines 560-583) *)
Definition PrepareScene (stbi_load : string -> option stbi_image) : M (list setup_call) :=
  DefineObjectMaterials ;;
  SetupSceneLights ;;
  LoadSceneTextures stbi_load ;;
  ret [ LoadPlaneMesh; LoadBoxMesh; LoadPyramid4Mesh; LoadCylinderMesh;
        LoadTaperedCylinderMesh; LoadTorusMesh; LoadSphereMesh;
        glEnable GL_BLEND; glBlendFunc GL_SRC_ALPHA GL_ONE_MINUS_SRC_ALPHA ].

(** The draw calls; [DrawCylinderMesh] with the arguments as written at the
    call. *)
Inductive mesh_call : Type :=
| DrawPlaneMesh
| DrawBoxMesh
| DrawPyramid4Mesh
| DrawTaperedCylinderMesh
| DrawCylinderMesh (arguments : list bool).

(** The statements [RenderScene] is made of.  The assignments to its five
    local variables are folded into the [SetTransformations] call that reads
    them: every call is preceded by an assignment to each of the five. *)
Inductive statement : Type :=
| Transformations (scaleXYZ : glm.vec3) (XrotationDegrees YrotationDegrees
    ZrotationDegrees : R) (positionXYZ : glm.vec3)
| ShaderColor (redColorValue greenColorValue blueColorValue alphaValue : R)
| ShaderTexture (textureTag : string)
| TextureUVScale (u v : R)
| ShaderMaterial (materialTag : string)
| Draw (mesh : mesh_call).

(** A draw call, with the uniforms in force. *)
Definition draw_record : Type := (mesh_call * option ShaderManager)%type.

(** One statement; [indeterminate] is what the local of [SetShaderMaterial]
    holds on entry. *)
Definition exec (indeterminate : OBJECT_MATERIAL) (st : statement) : M (list draw_record) :=
  match st with
  | Transformations scaleXYZ rx ry rz positionXYZ =>
      SetTransformations scaleXYZ rx ry rz positionXYZ ;; ret []
  | ShaderColor r g b a => SetShaderColor r g b a ;; ret []
  | ShaderTexture textureTag => SetShaderTexture textureTag ;; ret []
  | TextureUVScale u v => SetTextureUVScale u v ;; ret []
  | ShaderMaterial materialTag => SetShaderMaterial materialTag indeterminate ;; ret []
  | Draw mesh => s <- get ;; ret [(mesh, m_pShaderManager s)]
  end.

(** Statements in sequence. *)
Fixpoint run (indeterminate : OBJECT_MATERIAL) (script : list statement)
    : M (list draw_record) :=
  match script with
  | [] => ret []
  | st :: rest =>
      first <- exec indeterminate st ;;
      others <- run indeterminate rest ;;
      ret (first ++ others)
  end.

(** The body of [RenderScene] (lines 591-1078). *)
Definition render_script : list statement :=
  [
    (* lines 616-629 *)
    Transformations (glm.Vec3 24.0 1.0 14.0) 0.0 0.0 0.0 (glm.Vec3 0.0 0.0 0.0);
    ShaderTexture "onyx";
    TextureUVScale 3.0 2.0;
    ShaderMaterial "tile";
    Draw DrawPlaneMesh;
    (* lines 644-658 *)
    Transformations (glm.Vec3 8.6 0.25 5.0) 0.0 0.0 0.0 (glm.Vec3 (-0.5) 0.125 0.8);
    ShaderTexture "wood";
    TextureUVScale 1.6 1.0;
    ShaderMaterial "wood";
    Draw DrawBoxMesh;
    (* lines 673-686 *)
    Transformations (glm.Vec3 0.05 5.00 0.35) (-10.0) 0.0 90.0 (glm.Vec3 1.6 0.33 1.1);
    ShaderTexture "metal";
    TextureUVScale 2.0 1.0;
    ShaderMaterial "tile";
    Draw DrawPyramid4Mesh;
    (* lines 702-716 *)
    Transformations (glm.Vec3 0.20 1.10 0.20) (-10.0) 0.0 90.0 (glm.Vec3 5.15 0.30 1.65);
    ShaderTexture "wood2";
    TextureUVScale 1.0 1.0;
    ShaderMaterial "wood";
    Draw DrawTaperedCylinderMesh;
    (* lines 727-739 *)
    Transformations (glm.Vec3 1.60 1.10 1.20) (-6.0) 18.0 4.0 (glm.Vec3 (-2.25) 2.00 0.60);
    ShaderTexture "meat";
    TextureUVScale 1.5 1.2;
    ShaderMaterial "clay";
    Draw DrawPyramid4Mesh;
    (* lines 750-761 *)
    Transformations (glm.Vec3 1.20 0.90 1.00) 8.0 (-22.0) (-10.0) (glm.Vec3 (-1.95) 1.45 1.25);
    ShaderTexture "meat";
    TextureUVScale 1.5 1.2;
    ShaderMaterial "clay";
    Draw DrawPyramid4Mesh;
    (* lines 772-783 *)
    Transformations (glm.Vec3 2.75 2.75 2.75) (-4.0) 10.0 2.0 (glm.Vec3 (-2.30) 1.45 0.70);
    ShaderTexture "meat";
    TextureUVScale 1.5 1.2;
    ShaderMaterial "clay";
    Draw DrawPyramid4Mesh;
    (* lines 794-805 *)
    Transformations (glm.Vec3 2.10 0.85 1.95) 6.0 28.0 (-8.0) (glm.Vec3 (-2.95) 0.60 0.35);
    ShaderTexture "meat";
    TextureUVScale 1.5 1.2;
    ShaderMaterial "clay";
    Draw DrawPyramid4Mesh;
    (* lines 816-826 *)
    Transformations (glm.Vec3 1.95 0.75 1.90) (-38.0) (-48.0) 12.0 (glm.Vec3 (-1.70) 1.10 0.35);
    ShaderTexture "meat";
    TextureUVScale 1.5 1.2;
    ShaderMaterial "clay";
    Draw DrawPyramid4Mesh;
    (* lines 841-853 *)
    Transformations (glm.Vec3 1.0 2.65 1.00) 180.0 0.0 0.0 (glm.Vec3 5.2 2.75 (-1.0));
    ShaderColor 0.30 0.12 0.08 1.0;
    ShaderMaterial "tile";
    Draw (DrawCylinderMesh []);
    (* lines 864-875 *)
    Transformations (glm.Vec3 0.34 0.26 0.28) 12.0 18.0 (-8.0) (glm.Vec3 5.18 2.75 (-1.06));
    ShaderTexture "meat";
    TextureUVScale 1.5 1.2;
    ShaderMaterial "clay";
    Draw DrawPyramid4Mesh;
    (* lines 886-897 *)
    Transformations (glm.Vec3 0.28 0.24 0.26) (-6.0) 32.0 10.0 (glm.Vec3 5.32 2.75 (-0.88));
    ShaderTexture "meat";
    TextureUVScale 1.5 1.2;
    ShaderMaterial "clay";
    Draw DrawPyramid4Mesh;
    (* lines 908-919 *)
    Transformations (glm.Vec3 0.54 0.50 0.52) 8.0 (-20.0) (-12.0) (glm.Vec3 5.06 2.75 (-1.14));
    ShaderTexture "meat";
    TextureUVScale 1.5 1.2;
    ShaderMaterial "clay";
    Draw DrawPyramid4Mesh;
    (* lines 930-941 *)
    Transformations (glm.Vec3 0.35 0.27 0.29) 12.0 18.0 (-8.0) (glm.Vec3 5.18 2.75 (-1.36));
    ShaderTexture "meat";
    TextureUVScale 1.5 1.2;
    ShaderMaterial "clay";
    Draw DrawPyramid4Mesh;
    (* lines 952-963 *)
    Transformations (glm.Vec3 0.48 0.44 0.46) (-6.0) 32.0 10.0 (glm.Vec3 5.32 2.75 (-0.68));
    ShaderTexture "meat";
    TextureUVScale 1.5 1.2;
    ShaderMaterial "clay";
    Draw DrawPyramid4Mesh;
    (* lines 974-985 *)
    Transformations (glm.Vec3 0.34 0.30 0.32) 8.0 (-20.0) (-12.0) (glm.Vec3 5.06 2.75 (-1.84));
    ShaderTexture "meat";
    TextureUVScale 1.5 1.2;
    ShaderMaterial "clay";
    Draw DrawPyramid4Mesh;
    (* lines 1000-1012 *)
    Transformations (glm.Vec3 1.05 3.0 1.05) 180.0 0.0 0.0 (glm.Vec3 5.2 3.0 (-1.0));
    ShaderColor 1.0 1.0 1.0 0.35;
    ShaderMaterial "glass";
    Draw (DrawCylinderMesh [false; false; true]);
    (* lines 1021-1033 *)
    Transformations (glm.Vec3 1.10 0.10 1.10) 0.0 0.0 0.0 (glm.Vec3 6.8 0.05 0.7);
    ShaderColor 1.0 1.0 1.0 0.35;
    ShaderMaterial "plasticClear";
    Draw (DrawCylinderMesh []);
    (* lines 1044-1054 *)
    Transformations (glm.Vec3 1.80 0.05 0.02) 0.0 9.5 2.0 (glm.Vec3 1.46 0.3 1.855);
    ShaderTexture "metal";
    TextureUVScale 2.0 1.0;
    ShaderMaterial "glass";
    Draw DrawBoxMesh;
    (* lines 1064-1075 *)
    Transformations (glm.Vec3 1.80 0.05 0.02) 0.0 12.0 2.0 (glm.Vec3 1.48 0.30 1.915);
    ShaderTexture "metal";
    TextureUVScale 2.0 1.0;
    ShaderMaterial "glass";
    Draw DrawBoxMesh
  ].

Definition RenderScene (indeterminate : OBJECT_MATERIAL) : M (list draw_record) :=
  run indeterminate render_script.

(** The tags a script passes to [SetShaderTexture] and to
    [SetShaderMaterial], and the meshes it draws. *)
Definition script_textures (script : list statement) : list string :=
  omap (fun st => match st with ShaderTexture t => Some t | _ => None end) script.
Definition script_materials (script : list statement) : list string :=
  omap (fun st => match st with ShaderMaterial t => Some t | _ => None end) script.
Definition script_draws (script : list statement) : list mesh_call :=
  omap (fun st => match st with Draw m => Some m | _ => None end) script.

(** What a statement returns besides the state. *)
Definition statement_draws (st : statement) (shader : option ShaderManager)
    : list draw_record :=
  match st with
  | Draw mesh => [(mesh, shader)]
  | _ => []
  end.

(** The submission of the not-found value as a texture slot. *)
Definition sentinel_submission : string * uniform_value :=
  (g_TextureValueName, Sampler2DValue (-1)).

(** ** Further notions used in the statements *)

(** What one OpenGL call does to the context. *)
Definition gl_exec (g : GLcontext) (c : GLcall) : GLcontext :=
  gl_record c
    match c with
    | GenTextures name =>
        mkGL (name + 1) ({[name]} ∪ gl_textures g) (gl_active_unit g) (gl_binding g)
             (gl_calls g)
    | BindTexture _ texture =>
        mkGL (gl_next_name g) (gl_textures g) (gl_active_unit g)
             (<[gl_active_unit g := texture]> (gl_binding g)) (gl_calls g)
    | ActiveTexture texture =>
        mkGL (gl_next_name g) (gl_textures g) (texture - GL_TEXTURE0) (gl_binding g)
             (gl_calls g)
    | _ => g
    end.

(** The context after a series of calls. *)
Definition gl_run (calls : list GLcall) (g : GLcontext) : GLcontext :=
  foldl gl_exec g calls.

(** The calls [CreateGLTexture] makes for an image it accepts, when
    [glGenTextures] hands out [name]. *)
Definition upload_calls (image : stbi_image) (name : GLuint) : list GLcall :=
  [ GenTextures name; BindTexture GL_TEXTURE_2D name;
    TexParameteri GL_TEXTURE_2D GL_TEXTURE_WRAP_S GL_REPEAT;
    TexParameteri GL_TEXTURE_2D GL_TEXTURE_WRAP_T GL_REPEAT;
    TexParameteri GL_TEXTURE_2D GL_TEXTURE_MIN_FILTER GL_LINEAR;
    TexParameteri GL_TEXTURE_2D GL_TEXTURE_MAG_FILTER GL_LINEAR;
    (if colorChannels image =? 3
     then TexImage2D GL_TEXTURE_2D GL_RGB8 (width image) (height image)
                     GL_RGB GL_UNSIGNED_BYTE
     else TexImage2D GL_TEXTURE_2D GL_RGBA8 (width image) (height image)
                     GL_RGBA GL_UNSIGNED_BYTE);
    GenerateMipmap GL_TEXTURE_2D; BindTexture GL_TEXTURE_2D 0 ].

(** The calls it has made when it rejects the channel count. *)
Definition rejected_calls (name : GLuint) : list GLcall :=
  [ GenTextures name; BindTexture GL_TEXTURE_2D name;
    TexParameteri GL_TEXTURE_2D GL_TEXTURE_WRAP_S GL_REPEAT;
    TexParameteri GL_TEXTURE_2D GL_TEXTURE_WRAP_T GL_REPEAT;
    TexParameteri GL_TEXTURE_2D GL_TEXTURE_MIN_FILTER GL_LINEAR;
    TexParameteri GL_TEXTURE_2D GL_TEXTURE_MAG_FILTER GL_LINEAR ].

(** The value a uniform has in the shader program: the last one submitted
    under its name. *)
Definition current_uniform (name : string) (sm : ShaderManager) : option uniform_value :=
  foldl (fun acc c => if String.eqb c.1 name then Some c.2 else acc) None sm.

(** Two states that differ at most in what the shader manager received. *)
Definition same_scene (s s' : SceneManager) : Prop :=
  m_textureIDs s' = m_textureIDs s /\
  m_loadedTextures s' = m_loadedTextures s /\
  m_objectMaterials s' = m_objectMaterials s /\
  gl s' = gl s.

(** The calls [BindGLTextures] makes for the entries [entries], the first of
    which is at index [i]. *)
Fixpoint bind_calls (i : Z) (entries : list TEXTURE_INFO) : list GLcall :=
  match entries with
  | [] => []
  | e :: rest =>
      ActiveTexture (GL_TEXTURE0 + i) :: BindTexture GL_TEXTURE_2D (ID e)
        :: bind_calls (i + 1) rest
  end.

(** Whether [CreateGLTexture] accepts the file: it decodes, to 3 or 4
    channels. *)
Definition accepted (stbi_load : string -> option stbi_image) (filename : string) : bool :=
  match stbi_load filename with
  | Some image => (colorChannels image =? 3) || (colorChannels image =? 4)
  | None => false
  end.

(** The materials [DefineObjectMaterials] defines, in order. *)
Definition defined_materials : list OBJECT_MATERIAL :=
  [ goldMaterial; cementMaterial; woodMaterial; tileMaterial; glassMaterial;
    clayMaterial; plasticClear ].

(** What [SetupSceneLights] submits, in order. *)
Definition light_uniforms : ShaderManager :=
  [ (g_UseLightingName, BoolValue true);
    ("directionalLight.direction", Vec3Value (glm.Vec3 (-0.05) (-0.3) (-0.1)));
    ("directionalLight.ambient", Vec3Value (glm.Vec3 0.05 0.05 0.05));
    ("directionalLight.diffuse", Vec3Value (glm.Vec3 0.6 0.6 0.6));
    ("directionalLight.specular", Vec3Value (glm.Vec3 0.0 0.0 0.0));
    ("directionalLight.bActive", BoolValue true);
    ("pointLights[0].position", Vec3Value (glm.Vec3 (-4.0) 8.0 0.0));
    ("pointLights[0].ambient", Vec3Value (glm.Vec3 0.05 0.05 0.05));
    ("pointLights[0].diffuse", Vec3Value (glm.Vec3 0.3 0.3 0.3));
    ("pointLights[0].specular", Vec3Value (glm.Vec3 0.1 0.1 0.1));
    ("pointLights[0].bActive", BoolValue true);
    ("pointLights[1].position", Vec3Value (glm.Vec3 4.0 8.0 0.0));
    ("pointLights[1].ambient", Vec3Value (glm.Vec3 0.05 0.05 0.05));
    ("pointLights[1].diffuse", Vec3Value (glm.Vec3 0.3 0.3 0.3));
    ("pointLights[1].specular", Vec3Value (glm.Vec3 0.1 0.1 0.1));
    ("pointLights[1].bActive", BoolValue true);
    ("pointLights[2].position", Vec3Value (glm.Vec3 3.8 5.5 4.0));
    ("pointLights[2].ambient", Vec3Value (glm.Vec3 0.06 0.03 0.00));
    ("pointLights[2].diffuse", Vec3Value (glm.Vec3 0.95 0.50 0.15));
    ("pointLights[2].specular", Vec3Value (glm.Vec3 1.0 0.9 0.8));
    ("pointLights[2].bActive", BoolValue true);
    ("pointLights[3].position", Vec3Value (glm.Vec3 3.8 3.5 4.0));
    ("pointLights[3].ambient", Vec3Value (glm.Vec3 0.05 0.05 0.05));
    ("pointLights[3].diffuse", Vec3Value (glm.Vec3 0.2 0.2 0.2));
    ("pointLights[3].specular", Vec3Value (glm.Vec3 0.8 0.8 0.8));
    ("pointLights[3].bActive", BoolValue true);
    ("pointLights[4].position", Vec3Value (glm.Vec3 (-3.2) 6.0 (-4.0)));
    ("pointLights[4].ambient", Vec3Value (glm.Vec3 0.05 0.05 0.05));
    ("pointLights[4].diffuse", Vec3Value (glm.Vec3 0.9 0.9 0.9));
    ("pointLights[4].specular", Vec3Value (glm.Vec3 0.1 0.1 0.1));
    ("pointLights[4].bActive", BoolValue true);
    ("spotLight.ambient", Vec3Value (glm.Vec3 0.8 0.8 0.8));
    ("spotLight.diffuse", Vec3Value (glm.Vec3 1.0 1.0 1.0));
    ("spotLight.specular", Vec3Value (glm.Vec3 0.7 0.7 0.7));
    ("spotLight.constant", FloatValue 1.0);
    ("spotLight.linear", FloatValue 0.09);
    ("spotLight.quadratic", FloatValue 0.032);
    ("spotLight.cutOff", FloatValue (cos (glm.radians 42.5)));
    ("spotLight.outerCutOff", FloatValue (cos (glm.radians 48.0)));
    ("spotLight.bActive", BoolValue true) ].

(** The blocks [RenderScene] is written in: one object each, which sets a
    transformation, then either a colour or a texture with its UV scale, then
    a material, and is then drawn. *)
Inductive object_look : Type :=
| Coloured (r g b a : R)
| Textured (textureTag : string) (u v : R).

Record scene_object : Type := mkObject {
  object_scale : glm.vec3;
  object_Xrotation : R;
  object_Yrotation : R;
  object_Zrotation : R;
  object_position : glm.vec3;
  object_look_of : object_look;
  object_material : string;
  object_mesh : mesh_call
}.

Definition object_statements (o : scene_object) : list statement :=
  Transformations (object_scale o) (object_Xrotation o) (object_Yrotation o)
                  (object_Zrotation o) (object_position o)
  :: match object_look_of o with
     | Coloured r g b a => [ShaderColor r g b a]
     | Textured t u v => [ShaderTexture t; TextureUVScale u v]
     end
  ++ [ShaderMaterial (object_material o); Draw (object_mesh o)].

(** Reading a script as a series of such blocks, when it is one. *)
Fixpoint objects_of (script : list statement) : option (list scene_object) :=
  match script with
  | [] => Some []
  | Transformations sc rx ry rz pos :: ShaderColor r g b a :: ShaderMaterial m
      :: Draw mesh :: rest =>
      match objects_of rest with
      | Some os => Some (mkObject sc rx ry rz pos (Coloured r g b a) m mesh :: os)
      | None => None
      end
  | Transformations sc rx ry rz pos :: ShaderTexture t :: TextureUVScale u v
      :: ShaderMaterial m :: Draw mesh :: rest =>
      match objects_of rest with
      | Some os => Some (mkObject sc rx ry rz pos (Textured t u v) m mesh :: os)
      | None => None
      end
  | _ => None
  end.

(** A draw call made with the uniforms of the object [o]: its mesh, its model
    matrix, and its colour or its texture slot and UV scale; [s] is the state
    in which the script was started. *)
Definition drawn_as (s : SceneManager) (o : scene_object) (d : draw_record) : Prop :=
  d.1 = object_mesh o /\
  exists log,
    d.2 = Some log /\
    current_uniform g_ModelName log
      = Some (Mat4Value (modelView (object_scale o) (object_Xrotation o)
                           (object_Yrotation o) (object_Zrotation o)
                           (object_position o))) /\
    match object_look_of o with
    | Coloured r g b a =>
        current_uniform g_UseTextureName log = Some (IntValue 0) /\
        current_uniform g_ColorValueName log = Some (Vec4Value (glm.Vec4 r g b a))
    | Textured t u v =>
        current_uniform g_UseTextureName log = Some (IntValue 1) /\
        (exists slot, FindTextureSlot t s = Ok (slot, s) /\
                      current_uniform g_TextureValueName log
                      = Some (Sampler2DValue slot)) /\
        current_uniform "UVscale" log = Some (Vec2Value (glm.Vec2 u v))
    end.

(** ** The life of an object *)

(** The methods that load no texture, as a caller invokes them; what a method
    returns is not kept. *)
Inductive operation : Type :=
| DoBindGLTextures
| DoDestroyGLTextures
| DoFindTextureID (tag0 : string)
| DoFindTextureSlot (tag0 : string)
| DoFindMaterial (tag0 : string) (material : OBJECT_MATERIAL)
| DoSetTransformations (scaleXYZ : glm.vec3) (XrotationDegrees YrotationDegrees
                        ZrotationDegrees : R) (positionXYZ : glm.vec3)
| DoSetShaderColor (redColorValue greenColorValue blueColorValue alphaValue : R)
| DoSetShaderTexture (textureTag : string)
| DoSetTextureUVScale (u v : R)
| DoSetShaderMaterial (materialTag : string) (indeterminate : OBJECT_MATERIAL)
| DoDefineObjectMaterials
| DoSetupSceneLights
| DoRenderScene (indeterminate : OBJECT_MATERIAL).

Definition perform (op : operation) : M unit :=
  match op with
  | DoBindGLTextures => BindGLTextures
  | DoDestroyGLTextures => DestroyGLTextures
  | DoFindTextureID tag0 => FindTextureID tag0 ;; ret tt
  | DoFindTextureSlot tag0 => FindTextureSlot tag0 ;; ret tt
  | DoFindMaterial tag0 material => FindMaterial tag0 material ;; ret tt
  | DoSetTransformations scaleXYZ rx ry rz positionXYZ =>
      SetTransformations scaleXYZ rx ry rz positionXYZ
  | DoSetShaderColor r g b a => SetShaderColor r g b a
  | DoSetShaderTexture textureTag => SetShaderTexture textureTag
  | DoSetTextureUVScale u v => SetTextureUVScale u v
  | DoSetShaderMaterial materialTag indeterminate =>
      SetShaderMaterial materialTag indeterminate
  | DoDefineObjectMaterials => DefineObjectMaterials
  | DoSetupSceneLights => SetupSceneLights
  | DoRenderScene indeterminate => RenderScene indeterminate ;; ret tt
  end.

(** [history stbi_load s0 tags s]: [s] is reached from [s0] by calls of the
    methods, in any order and number, each of which returned; [tags] lists,
    in call order, the tag given to each [CreateGLTexture] call that returned
    [true].  [LoadSceneTextures] and [PrepareScene] are made of such calls
    ([LoadSceneTextures_history], [PrepareScene_history]). *)
Inductive history (stbi_load : string -> option stbi_image)
    : SceneManager -> list string -> SceneManager -> Prop :=
| history_start s : history stbi_load s [] s
| history_load s0 tags s1 filename tag0 s2 :
    history stbi_load s0 tags s1 ->
    CreateGLTexture stbi_load filename tag0 s1 = Ok (true, s2) ->
    history stbi_load s0 (tags ++ [tag0]) s2
| history_load_failed s0 tags s1 filename tag0 s2 :
    history stbi_load s0 tags s1 ->
    CreateGLTexture stbi_load filename tag0 s1 = Ok (false, s2) ->
    history stbi_load s0 tags s2
| history_operation s0 tags s1 op s2 :
    history stbi_load s0 tags s1 ->
    perform op s1 = Ok (tt, s2) ->
    history stbi_load s0 tags s2.

(** The state a computation leaves, for writing down concrete states. *)
Definition state_after {A} (m : M A) (s : SceneManager) : SceneManager :=
  match m s with
  | Ok (_, s') => s'
  | Fault _ => s
  end.

(** [wood_glass_scene] after [BindGLTextures] and a first textured
    submission. *)
Definition wood_glass_bound_scene : SceneManager :=
  state_after (SetShaderTexture "wood") (state_after BindGLTextures wood_glass_scene).

(** ** Proof steps *)

(** Run the calls that cannot fail: the OpenGL entry points and the accesses
    to the object. *)
Ltac run_gl :=
  cbn [bind ret get modify glGenTextures glBindTexture glTexParameteri
       glTexImage2D glGenerateMipmap glActiveTexture
       m_loadedTextures m_textureIDs m_pShaderManager m_objectMaterials gl
       set_gl set_textureIDs set_loadedTextures set_shader set_objectMaterials].


(** ** Basic facts about the monad and the member accesses *)

Lemma bind_Ok {A B} (m : M A) (k : A -> M B) s a s1 :
  m s = Ok (a, s1) -> bind m k s = k a s1.
Proof. intros H. unfold bind. by rewrite H. Qed.

Lemma bind_Fault {A B} (m : M A) (k : A -> M B) s f :
  m s = Fault f -> bind m k s = Fault f.
Proof. intros H. unfold bind. by rewrite H. Qed.

Lemma bind_inv {A B} (m : M A) (k : A -> M B) s b s2 :
  bind m k s = Ok (b, s2) -> exists a s1, m s = Ok (a, s1) /\ k a s1 = Ok (b, s2).
Proof.
  unfold bind. destruct (m s) as [[a s1]|f]; [|discriminate].
  intros H. by exists a, s1.
Qed.

Lemma bind_assoc {A B C} (m : M A) (k : A -> M B) (k' : B -> M C) s :
  bind (bind m k) k' s = bind m (fun a => bind (k a) k') s.
Proof. unfold bind. by destruct (m s) as [[a s1]|f]. Qed.

Lemma texture_at_Ok s index e :
  0 <= index -> m_textureIDs s !! Z.to_nat index = Some e ->
  texture_at index s = Ok (e, s).
Proof.
  intros Hi He. unfold texture_at.
  destruct (Z.leb_spec 0 index); [|lia]. by rewrite He.
Qed.

Lemma texture_at_Fault s index :
  ~ (0 <= index < Z.of_nat (length (m_textureIDs s))) ->
  texture_at index s = Fault (OutOfBounds index).
Proof.
  intros Hi. unfold texture_at.
  destruct (Z.leb_spec 0 index); [|done].
  rewrite lookup_ge_None_2; [done|lia].
Qed.

Lemma texture_at_inv s index e s' :
  texture_at index s = Ok (e, s') ->
  s' = s /\ 0 <= index /\ m_textureIDs s !! Z.to_nat index = Some e.
Proof.
  unfold texture_at. destruct (Z.leb_spec 0 index); [|discriminate].
  destruct (m_textureIDs s !! Z.to_nat index) eqn:E; [|discriminate].
  intros [= -> ->]. auto.
Qed.

Lemma texture_assign_Ok s index f e :
  0 <= index -> m_textureIDs s !! Z.to_nat index = Some e ->
  texture_assign index f s
  = Ok (tt, set_textureIDs (<[Z.to_nat index := f e]> (m_textureIDs s)) s).
Proof.
  intros Hi He. unfold texture_assign.
  by rewrite (bind_Ok _ _ _ _ _ (texture_at_Ok _ _ _ Hi He)).
Qed.

Lemma texture_assign_Fault s index f :
  ~ (0 <= index < Z.of_nat (length (m_textureIDs s))) ->
  texture_assign index f s = Fault (OutOfBounds index).
Proof.
  intros Hi. unfold texture_assign.
  by rewrite (bind_Fault _ _ _ _ (texture_at_Fault _ _ Hi)).
Qed.

Lemma string_compare_refl a : String.compare a a = Eq.
Proof.
  pose proof (String.compare_antisym a a) as H.
  destruct (String.compare a a); simpl in H; congruence.
Qed.

Lemma string_compare_0 a b : (string_compare a b =? 0) = bool_decide (a = b).
Proof.
  unfold string_compare.
  destruct (String.compare a b) eqn:E.
  - apply String.compare_eq_iff in E. subst. by rewrite bool_decide_eq_true_2.
  - rewrite bool_decide_eq_false_2; [done|]. intros ->.
    by rewrite string_compare_refl in E.
  - rewrite bool_decide_eq_false_2; [done|]. intros ->.
    by rewrite string_compare_refl in E.
Qed.

(** ** [CreateGLTexture], case by case *)

Lemma bind_ret {A B} (a : A) (k : A -> M B) s : bind (ret a) k s = k a s.
Proof. reflexivity. Qed.

Lemma bind_get {B} (k : SceneManager -> M B) s : bind get k s = k s s.
Proof. reflexivity. Qed.

Lemma bind_modify {B} (f : SceneManager -> SceneManager) (k : unit -> M B) s :
  bind (modify f) k s = k tt (f s).
Proof. reflexivity. Qed.

Lemma set_gl_set_gl g g' s : set_gl g (set_gl g' s) = set_gl g s.
Proof. reflexivity. Qed.

(** The OpenGL entry points return, and touch nothing but the context. *)
Lemma glGenTextures_frame s :
  exists g, glGenTextures s = Ok (gl_next_name (gl s), set_gl g s).
Proof. eexists. reflexivity. Qed.

Lemma glBindTexture_frame target texture s :
  exists g, glBindTexture target texture s = Ok (tt, set_gl g s).
Proof. eexists. reflexivity. Qed.

Lemma glTexParameteri_frame target pname param s :
  exists g, glTexParameteri target pname param s = Ok (tt, set_gl g s).
Proof. eexists. reflexivity. Qed.

Lemma glTexImage2D_frame target internalformat w h format type s :
  exists g, glTexImage2D target internalformat w h format type s = Ok (tt, set_gl g s).
Proof. eexists. reflexivity. Qed.

Lemma glGenerateMipmap_frame target s :
  exists g, glGenerateMipmap target s = Ok (tt, set_gl g s).
Proof. eexists. reflexivity. Qed.

Lemma CreateGLTexture_unreadable stbi_load filename t s :
  stbi_load filename = None ->
  CreateGLTexture stbi_load filename t s = Ok (false, s).
Proof. intros H. unfold CreateGLTexture. by rewrite H. Qed.

(** The calls of [CreateGLTexture] up to the test of the channel count. *)
Lemma CreateGLTexture_prologue stbi_load filename t s image :
  stbi_load filename = Some image ->
  exists g,
    CreateGLTexture stbi_load filename t s
    = bind (if colorChannels image =? 3 then
              glTexImage2D GL_TEXTURE_2D GL_RGB8 (width image) (height image)
                           GL_RGB GL_UNSIGNED_BYTE ;;
              ret true
            else if colorChannels image =? 4 then
              glTexImage2D GL_TEXTURE_2D GL_RGBA8 (width image) (height image)
                           GL_RGBA GL_UNSIGNED_BYTE ;;
              ret true
            else ret false)
        (fun uploaded : bool =>
           if uploaded then
             glGenerateMipmap GL_TEXTURE_2D ;;
             glBindTexture GL_TEXTURE_2D 0 ;;
             s' <- get ;;
             texture_assign (m_loadedTextures s') (assign_ID (gl_next_name (gl s))) ;;
             texture_assign (m_loadedTextures s') (assign_tag t) ;;
             modify (set_loadedTextures (m_loadedTextures s' + 1)) ;;
             ret true
           else ret false)
        (set_gl g s).
Proof.
  intros H. unfold CreateGLTexture. rewrite H.
  destruct (glGenTextures_frame s) as [g0 H0]. rewrite (bind_Ok _ _ _ _ _ H0).
  destruct (glBindTexture_frame GL_TEXTURE_2D (gl_next_name (gl s)) (set_gl g0 s))
    as [g1 H1].
  rewrite (bind_Ok _ _ _ _ _ H1), set_gl_set_gl.
  destruct (glTexParameteri_frame GL_TEXTURE_2D GL_TEXTURE_WRAP_S GL_REPEAT (set_gl g1 s))
    as [g2 H2].
  rewrite (bind_Ok _ _ _ _ _ H2), set_gl_set_gl.
  destruct (glTexParameteri_frame GL_TEXTURE_2D GL_TEXTURE_WRAP_T GL_REPEAT (set_gl g2 s))
    as [g3 H3].
  rewrite (bind_Ok _ _ _ _ _ H3), set_gl_set_gl.
  destruct (glTexParameteri_frame GL_TEXTURE_2D GL_TEXTURE_MIN_FILTER GL_LINEAR (set_gl g3 s))
    as [g4 H4].
  rewrite (bind_Ok _ _ _ _ _ H4), set_gl_set_gl.
  destruct (glTexParameteri_frame GL_TEXTURE_2D GL_TEXTURE_MAG_FILTER GL_LINEAR (set_gl g4 s))
    as [g5 H5].
  rewrite (bind_Ok _ _ _ _ _ H5), set_gl_set_gl.
  by exists g5.
Qed.

Lemma CreateGLTexture_unsupported stbi_load filename t s image :
  stbi_load filename = Some image ->
  colorChannels image <> 3 -> colorChannels image <> 4 ->
  exists g, CreateGLTexture stbi_load filename t s = Ok (false, set_gl g s).
Proof.
  intros H H3 H4.
  destruct (CreateGLTexture_prologue _ _ t s _ H) as [g ->].
  apply Z.eqb_neq in H3, H4. rewrite H3, H4, bind_ret.
  by exists g.
Qed.

(** After the upload: mipmaps, unbinding, and the registration. *)
Lemma CreateGLTexture_epilogue (textureID : GLuint) t s :
  exists g,
    (glGenerateMipmap GL_TEXTURE_2D ;;
     glBindTexture GL_TEXTURE_2D 0 ;;
     s' <- get ;;
     texture_assign (m_loadedTextures s') (assign_ID textureID) ;;
     texture_assign (m_loadedTextures s') (assign_tag t) ;;
     modify (set_loadedTextures (m_loadedTextures s' + 1)) ;;
     ret true) s
    = (texture_assign (m_loadedTextures s) (assign_ID textureID) ;;
       texture_assign (m_loadedTextures s) (assign_tag t) ;;
       modify (set_loadedTextures (m_loadedTextures s + 1)) ;;
       ret true) (set_gl g s).
Proof.
  destruct (glGenerateMipmap_frame GL_TEXTURE_2D s) as [g0 H0].
  rewrite (bind_Ok _ _ _ _ _ H0).
  destruct (glBindTexture_frame GL_TEXTURE_2D 0 (set_gl g0 s)) as [g1 H1].
  rewrite (bind_Ok _ _ _ _ _ H1), set_gl_set_gl, bind_get.
  by exists g1.
Qed.

Lemma CreateGLTexture_upload stbi_load filename t s image :
  stbi_load filename = Some image ->
  colorChannels image = 3 \/ colorChannels image = 4 ->
  exists g,
    CreateGLTexture stbi_load filename t s
    = (texture_assign (m_loadedTextures s) (assign_ID (gl_next_name (gl s))) ;;
       texture_assign (m_loadedTextures s) (assign_tag t) ;;
       modify (set_loadedTextures (m_loadedTextures s + 1)) ;;
       ret true) (set_gl g s).
Proof.
  intros H Hc.
  destruct (CreateGLTexture_prologue _ _ t s _ H) as [g ->].
  assert (exists g', forall (k : bool -> M bool),
            bind (if colorChannels image =? 3 then
                    glTexImage2D GL_TEXTURE_2D GL_RGB8 (width image) (height image)
                                 GL_RGB GL_UNSIGNED_BYTE ;;
                    ret true
                  else if colorChannels image =? 4 then
                    glTexImage2D GL_TEXTURE_2D GL_RGBA8 (width image) (height image)
                                 GL_RGBA GL_UNSIGNED_BYTE ;;
                    ret true
                  else ret false) k (set_gl g s)
            = k true (set_gl g' s)) as [g' Hup].
  { destruct Hc as [Hc | Hc]; rewrite Hc; cbn [Z.eqb Pos.eqb].
    - destruct (glTexImage2D_frame GL_TEXTURE_2D GL_RGB8 (width image) (height image)
                  GL_RGB GL_UNSIGNED_BYTE (set_gl g s)) as [g' Hg'].
      exists g'. intros k.
      by rewrite bind_assoc, (bind_Ok _ _ _ _ _ Hg'), set_gl_set_gl, bind_ret.
    - destruct (glTexImage2D_frame GL_TEXTURE_2D GL_RGBA8 (width image) (height image)
                  GL_RGBA GL_UNSIGNED_BYTE (set_gl g s)) as [g' Hg'].
      exists g'. intros k.
      by rewrite bind_assoc, (bind_Ok _ _ _ _ _ Hg'), set_gl_set_gl, bind_ret. }
  rewrite Hup.
  destruct (CreateGLTexture_epilogue (gl_next_name (gl s)) t (set_gl g' s)) as [g'' Hep].
  exists g''. rewrite Hep. by rewrite set_gl_set_gl.
Qed.

Lemma CreateGLTexture_registers stbi_load filename t s image :
  stbi_load filename = Some image ->
  colorChannels image = 3 \/ colorChannels image = 4 ->
  0 <= m_loadedTextures s < Z.of_nat (length (m_textureIDs s)) ->
  exists g,
    CreateGLTexture stbi_load filename t s
    = Ok (true, mkScene (m_pShaderManager s)
                  (<[Z.to_nat (m_loadedTextures s) :=
                       mkTexture (gl_next_name (gl s)) t]> (m_textureIDs s))
                  (m_loadedTextures s + 1) (m_objectMaterials s) g).
Proof.
  intros H Hc Hn.
  destruct (CreateGLTexture_upload _ _ t s _ H Hc) as [g ->]. exists g.
  destruct (lookup_lt_is_Some_2 (m_textureIDs s) (Z.to_nat (m_loadedTextures s)))
    as [e He]; [lia|].
  rewrite (bind_Ok _ _ _ _ _
             (texture_assign_Ok (set_gl g s) _ (assign_ID (gl_next_name (gl s))) e
                (proj1 Hn) He)).
  erewrite (bind_Ok (texture_assign _ _)).
  2: { apply texture_assign_Ok; [exact (proj1 Hn)|].
       apply list_lookup_insert_eq. cbn [m_textureIDs m_loadedTextures set_gl]. lia. }
  rewrite bind_modify. unfold ret.
  cbn [m_textureIDs set_textureIDs set_gl]. by rewrite list_insert_insert_eq.
Qed.

Lemma CreateGLTexture_overflow stbi_load filename t s image :
  stbi_load filename = Some image ->
  colorChannels image = 3 \/ colorChannels image = 4 ->
  ~ (0 <= m_loadedTextures s < Z.of_nat (length (m_textureIDs s))) ->
  CreateGLTexture stbi_load filename t s = Fault (OutOfBounds (m_loadedTextures s)).
Proof.
  intros H Hc Hn.
  destruct (CreateGLTexture_upload _ _ t s _ H Hc) as [g ->].
  apply bind_Fault. by apply texture_assign_Fault.
Qed.

(** What a call that returned tells about the state it left. *)
Lemma CreateGLTexture_true_inv stbi_load filename t s s' :
  CreateGLTexture stbi_load filename t s = Ok (true, s') ->
  0 <= m_loadedTextures s < Z.of_nat (length (m_textureIDs s)) /\
  exists g, s' = mkScene (m_pShaderManager s)
                   (<[Z.to_nat (m_loadedTextures s) :=
                        mkTexture (gl_next_name (gl s)) t]> (m_textureIDs s))
                   (m_loadedTextures s + 1) (m_objectMaterials s) g.
Proof.
  intros Hrun.
  destruct (stbi_load filename) as [image|] eqn:Hload.
  2: { rewrite CreateGLTexture_unreadable in Hrun; [discriminate|done]. }
  destruct (decide (colorChannels image = 3 \/ colorChannels image = 4)) as [Hc|Hc].
  - destruct (decide (0 <= m_loadedTextures s < Z.of_nat (length (m_textureIDs s))))
      as [Hn|Hn].
    + split; [done|].
      destruct (CreateGLTexture_registers _ _ t s _ Hload Hc Hn) as [g Hg].
      rewrite Hg in Hrun. injection Hrun as <-. by exists g.
    + rewrite (CreateGLTexture_overflow _ _ t s _ Hload Hc Hn) in Hrun. discriminate.
  - destruct (CreateGLTexture_unsupported _ _ t s _ Hload) as [g Hg]; [tauto..|].
    rewrite Hg in Hrun. discriminate.
Qed.

Lemma CreateGLTexture_false_inv stbi_load filename t s s' :
  CreateGLTexture stbi_load filename t s = Ok (false, s') ->
  exists g, s' = set_gl g s.
Proof.
  intros Hrun.
  destruct (stbi_load filename) as [image|] eqn:Hload.
  2: { rewrite CreateGLTexture_unreadable in Hrun; [|done].
       injection Hrun as <-. exists (gl s). by destruct s. }
  destruct (decide (colorChannels image = 3 \/ colorChannels image = 4)) as [Hc|Hc].
  - destruct (decide (0 <= m_loadedTextures s < Z.of_nat (length (m_textureIDs s))))
      as [Hn|Hn].
    + destruct (CreateGLTexture_registers _ _ t s _ Hload Hc Hn) as [g Hg].
      rewrite Hg in Hrun. discriminate.
    + rewrite (CreateGLTexture_overflow _ _ t s _ Hload Hc Hn) in Hrun. discriminate.
  - destruct (CreateGLTexture_unsupported _ _ t s _ Hload) as [g Hg]; [tauto..|].
    rewrite Hg in Hrun. injection Hrun as <-. by exists g.
Qed.

(** ** The registry of a reachable state *)

Lemma registry_length s :
  within_capacity s -> length (registry s) = Z.to_nat (m_loadedTextures s).
Proof. intros [H0 H1]. unfold registry. rewrite length_take. lia. Qed.

Lemma registry_lookup s (i : nat) e :
  registry s !! i = Some e ->
  m_textureIDs s !! i = Some e /\ (i < Z.to_nat (m_loadedTextures s))%nat.
Proof.
  unfold registry. intros H.
  apply lookup_take_Some in H. tauto.
Qed.

Lemma loaded_registry stbi_load s0 entries s :
  loaded stbi_load s0 entries s ->
  within_capacity s0 ->
  within_capacity s /\ registry s = registry s0 ++ entries /\
  m_objectMaterials s = m_objectMaterials s0 /\
  m_pShaderManager s = m_pShaderManager s0.
Proof.
  induction 1 as [s|s0 entries s1 filename t s2 handle _ IH Hcall Hh
                  |s0 entries s1 filename t s2 _ IH Hcall]; intros Hwf.
  - by rewrite app_nil_r.
  - destruct (IH Hwf) as (Hwf1 & Hreg & Hm & Hsh).
    destruct (CreateGLTexture_true_inv _ _ _ _ _ Hcall) as (Hn & g & ->).
    cbn in Hh. rewrite list_lookup_insert_eq in Hh by lia. injection Hh as <-.
    unfold within_capacity, registry in *. cbn.
    rewrite length_insert. split; [lia|]. split; [|done].
    replace (Z.to_nat (m_loadedTextures s1 + 1)) with (S (Z.to_nat (m_loadedTextures s1))) by lia.
    erewrite take_S_r by (apply list_lookup_insert_eq; lia).
    rewrite take_insert_ge by lia. by rewrite Hreg, app_assoc.
  - destruct (IH Hwf) as (Hwf1 & Hreg & Hm & Hsh).
    destruct (CreateGLTexture_false_inv _ _ _ _ _ Hcall) as (g & ->).
    by destruct s1.
Qed.

(** ** [FindTextureSlot] *)

Lemma FindTextureSlot_loop_spec t s n index :
  0 <= index ->
  (Z.to_nat index + n <= length (m_textureIDs s))%nat ->
  FindTextureSlot_loop n index t s
  = Ok (match list_find (fun e => tag e = t)
                (take n (drop (Z.to_nat index) (m_textureIDs s))) with
        | Some (k, _) => index + Z.of_nat k
        | None => -1
        end, s).
Proof.
  revert index. induction n as [|n IH]; intros index H0 Hlen.
  - reflexivity.
  - destruct (lookup_lt_is_Some_2 (m_textureIDs s) (Z.to_nat index)) as [e He]; [lia|].
    cbn [FindTextureSlot_loop].
    rewrite (bind_Ok _ _ _ _ _ (texture_at_Ok _ _ _ H0 He)).
    rewrite (drop_S _ _ _ He), firstn_cons, string_compare_0.
    cbn [list_find]. case_bool_decide as Ht.
    + rewrite decide_True by done. unfold ret. f_equal. f_equal. lia.
    + rewrite decide_False by done.
      rewrite IH by lia.
      replace (Z.to_nat (index + 1)) with (S (Z.to_nat index)) by lia.
      destruct (list_find _ _) as [[k e']|]; cbn; [|done].
      f_equal. f_equal. lia.
Qed.

Lemma FindTextureSlot_registry t s :
  within_capacity s ->
  FindTextureSlot t s
  = Ok (match list_find (fun e => tag e = t) (registry s) with
        | Some (k, _) => Z.of_nat k
        | None => -1
        end, s).
Proof.
  intros [H0 H1]. unfold FindTextureSlot. cbn [bind get].
  rewrite FindTextureSlot_loop_spec by lia.
  change (Z.to_nat 0) with 0%nat. rewrite drop_0. fold (registry s).
  by destruct (list_find _ _) as [[k e']|].
Qed.

Lemma FindTextureSlot_absent t s :
  within_capacity s ->
  t ∉ tag <$> registry s ->
  FindTextureSlot t s = Ok (-1, s).
Proof.
  intros Hwf Hnot. rewrite FindTextureSlot_registry by done.
  destruct (list_find _ _) as [[k e]|] eqn:E; [|done].
  apply list_find_Some in E as (Hk & Ht & _).
  exfalso. apply Hnot. apply list_elem_of_fmap. exists e. split; [done|].
  eapply list_elem_of_lookup_2, Hk.
Qed.

Lemma FindTextureSlot_present t s (i : nat) e :
  within_capacity s ->
  NoDup (tag <$> registry s) ->
  registry s !! i = Some e -> tag e = t ->
  FindTextureSlot t s = Ok (Z.of_nat i, s).
Proof.
  intros Hwf Hnd Hi Ht. rewrite FindTextureSlot_registry by done.
  destruct (list_find _ _) as [[k e']|] eqn:E.
  - apply list_find_Some in E as (Hk & Ht' & _).
    assert (k = i) as ->; [|done].
    eapply NoDup_lookup; [exact Hnd| |].
    + rewrite list_lookup_fmap, Hk. reflexivity.
    + rewrite list_lookup_fmap, Hi. cbn. congruence.
  - exfalso. eapply list_find_None in E.
    rewrite Forall_forall in E. eapply E; [|exact Ht].
    eapply list_elem_of_lookup_2, Hi.
Qed.

(** ** [BindGLTextures] *)

Lemma BindGLTextures_loop_spec n : forall i s,
  0 <= i ->
  (Z.to_nat i + n <= length (m_textureIDs s))%nat ->
  exists g,
    for_loop n i (fun i =>
      glActiveTexture (GL_TEXTURE0 + i) ;;
      e <- texture_at i ;;
      glBindTexture GL_TEXTURE_2D (ID e)) s = Ok (tt, set_gl g s) /\
    gl_textures g = gl_textures (gl s) /\
    forall j : Z,
      gl_binding g !! j =
        if decide (i <= j < i + Z.of_nat n)
        then ID <$> (m_textureIDs s !! Z.to_nat j)
        else gl_binding (gl s) !! j.
Proof.
  induction n as [|n IH]; intros i s H0 Hlen.
  - exists (gl s). split; [by destruct s|]. split; [done|].
    intros j. rewrite decide_False by lia. done.
  - destruct (lookup_lt_is_Some_2 (m_textureIDs s) (Z.to_nat i)) as [e He]; [lia|].
    cbn [for_loop]. rewrite bind_assoc. run_gl. rewrite bind_assoc.
    erewrite (bind_Ok (texture_at i)); [|by apply texture_at_Ok].
    run_gl.
    match goal with |- context [for_loop n (i + 1) _ ?s1] =>
      destruct (IH (i + 1) s1) as (g & Hrun & Htex & Hbind); [lia|cbn; lia|] end.
    exists g. split; [exact Hrun|]. split; [exact Htex|].
    intros j. rewrite Hbind. cbn.
    replace (GL_TEXTURE0 + i - GL_TEXTURE0) with i by lia.
    destruct (decide (j = i)) as [->|Hne].
    + rewrite decide_False by lia. rewrite decide_True by lia.
      by rewrite lookup_insert_eq, He.
    + rewrite lookup_insert_ne by done.
      destruct (decide (i + 1 <= j < i + 1 + Z.of_nat n)).
      * by rewrite decide_True by lia.
      * by rewrite decide_False by lia.
Qed.

Lemma BindGLTextures_spec s :
  within_capacity s ->
  exists g,
    BindGLTextures s = Ok (tt, set_gl g s) /\
    gl_textures g = gl_textures (gl s) /\
    forall (i : nat) e, registry s !! i = Some e ->
      gl_binding g !! Z.of_nat i = Some (ID e).
Proof.
  intros [H0 H1]. unfold BindGLTextures. cbn [bind get].
  destruct (BindGLTextures_loop_spec (Z.to_nat (m_loadedTextures s)) 0 s)
    as (g & Hrun & Htex & Hbind); [lia|lia|].
  exists g. split; [exact Hrun|]. split; [exact Htex|].
  intros i e Hi. apply registry_lookup in Hi as [Hi Hlt].
  rewrite Hbind, decide_True by lia.
  by rewrite Nat2Z.id, Hi.
Qed.

(** ** [FindMaterial] and [SetShaderMaterial] *)

Lemma material_at_Ok s index m :
  0 <= index -> m_objectMaterials s !! Z.to_nat index = Some m ->
  material_at index s = Ok (m, s).
Proof.
  intros Hi Hm. unfold material_at.
  destruct (Z.leb_spec 0 index); [|lia]. by rewrite Hm.
Qed.

Lemma FindMaterial_loop_spec t out s n index :
  0 <= index ->
  (Z.to_nat index + n <= length (m_objectMaterials s))%nat ->
  FindMaterial_loop n index t out s
  = Ok (match list_find (fun m => material_tag m = t)
                (take n (drop (Z.to_nat index) (m_objectMaterials s))) with
        | Some (_, m) =>
            (true, mkMaterial (diffuseColor m) (specularColor m) (shininess m)
                              (material_tag out))
        | None => (false, out)
        end, s).
Proof.
  revert index. induction n as [|n IH]; intros index H0 Hlen.
  - reflexivity.
  - destruct (lookup_lt_is_Some_2 (m_objectMaterials s) (Z.to_nat index)) as [m Hm]; [lia|].
    cbn [FindMaterial_loop].
    rewrite (bind_Ok _ _ _ _ _ (material_at_Ok _ _ _ H0 Hm)).
    rewrite (drop_S _ _ _ Hm), firstn_cons, string_compare_0.
    cbn [list_find]. case_bool_decide as Ht.
    + by rewrite decide_True by done.
    + rewrite decide_False by done.
      rewrite IH by lia.
      replace (Z.to_nat (index + 1)) with (S (Z.to_nat index)) by lia.
      by destruct (list_find _ _) as [[k m']|].
Qed.

Lemma FindMaterial_spec t out s :
  FindMaterial t out s
  = Ok (match m_objectMaterials s with
        | [] => (false, out)
        | _ :: _ =>
            (true,
             match list_find (fun m => material_tag m = t) (m_objectMaterials s) with
             | Some (_, m) =>
                 mkMaterial (diffuseColor m) (specularColor m) (shininess m)
                            (material_tag out)
             | None => out
             end)
        end, s).
Proof.
  unfold FindMaterial. cbn [bind get].
  destruct (m_objectMaterials s) as [|m0 ms] eqn:E; [reflexivity|].
  destruct (Z.eqb_spec (Z.of_nat (length (m0 :: ms))) 0) as [H|_]; [cbn in H; lia|].
  rewrite <- E.
  rewrite (bind_Ok _ _ _ _ _
             (FindMaterial_loop_spec t out s (length (m_objectMaterials s)) 0
                ltac:(lia) ltac:(cbn; lia))).
  change (Z.to_nat 0) with 0%nat. rewrite drop_0, firstn_all.
  by destruct (list_find _ _) as [[k m']|].
Qed.

(** A tag no material carries: from a registry that is not empty
    [FindMaterial] answers [true] all the same, and leaves the referent as it
    was. *)
Lemma FindMaterial_unmatched t out s :
  m_objectMaterials s <> [] ->
  t ∉ material_tag <$> m_objectMaterials s ->
  FindMaterial t out s = Ok ((true, out), s).
Proof.
  intros Hne Hnot. rewrite FindMaterial_spec.
  destruct (m_objectMaterials s) as [|m0 ms] eqn:E; [done|].
  destruct (list_find _ _) as [[k m]|] eqn:F; [|done].
  apply list_find_Some in F as (Hk & Ht & _).
  exfalso. apply Hnot. apply list_elem_of_fmap. exists m. split; [done|].
  eapply list_elem_of_lookup_2, Hk.
Qed.

Lemma FindMaterial_first t out s pre m post :
  m_objectMaterials s = pre ++ m :: post ->
  material_tag m = t ->
  Forall (fun m' => material_tag m' <> t) pre ->
  FindMaterial t out s
  = Ok ((true, mkMaterial (diffuseColor m) (specularColor m) (shininess m)
                          (material_tag out)), s).
Proof.
  intros Hms Ht Hpre. rewrite FindMaterial_spec, Hms.
  assert (list_find (fun m => material_tag m = t) (pre ++ m :: post)
          = Some (length pre, m)) as ->.
  { apply list_find_Some. split; [|split; [done|]].
    - by rewrite list_lookup_middle.
    - intros j y Hj Hlt. rewrite lookup_app_l in Hj by done.
      rewrite Forall_forall in Hpre. apply Hpre.
      eapply list_elem_of_lookup_2, Hj. }
  by destruct pre.
Qed.

Lemma shader_set_Ok s sm name value :
  m_pShaderManager s = Some sm ->
  shader_set name value s = Ok (tt, set_shader (Some (sm ++ [(name, value)])) s).
Proof. intros H. unfold shader_set. by rewrite H. Qed.

Lemma shader_set_null s name value :
  m_pShaderManager s = None ->
  shader_set name value s = Fault NullDereference.
Proof. intros H. unfold shader_set. by rewrite H. Qed.

Lemma when_shader_null s body :
  m_pShaderManager s = None -> when_shader body s = Ok (tt, s).
Proof. intros H. unfold when_shader. cbn [bind get]. by rewrite H. Qed.

Lemma when_shader_bound s sm body :
  m_pShaderManager s = Some sm -> when_shader body s = body s.
Proof. intros H. unfold when_shader. cbn [bind get]. by rewrite H. Qed.

(** ** The scenario of the spec, evaluated *)

Lemma load_wood_glass :
  load_textures example_files [("a.jpg", "wood"); ("b.png", "glass")] new_scene
  = Ok ([true; true], wood_glass_scene).
Proof. vm_compute. reflexivity. Qed.

(** ** The properties *)

(** C7. A [CreateGLTexture] call fails when the file cannot be read or
    decoded, and when the decoded image has neither 3 nor 4 channels.  In both
    cases the call returns [false] and leaves the texture table and the count
    of loaded textures as they were; and whenever a call returns [false], the
    table and the count are unchanged. *)
Theorem CreateGLTexture_failure_keeps_registry
    (stbi_load : string -> option stbi_image) (filename t : string) (s : SceneManager) :
  (stbi_load filename = None \/
   exists image, stbi_load filename = Some image /\
                 colorChannels image <> 3 /\ colorChannels image <> 4) ->
  (exists s', CreateGLTexture stbi_load filename t s = Ok (false, s')) /\
  forall s', CreateGLTexture stbi_load filename t s = Ok (false, s') ->
    m_textureIDs s' = m_textureIDs s /\
    m_loadedTextures s' = m_loadedTextures s /\
    registry s' = registry s.
Proof.
  intros Hfail. split.
  - destruct Hfail as [Hnone | (image & Hload & H3 & H4)].
    + exists s. by apply CreateGLTexture_unreadable.
    + destruct (CreateGLTexture_unsupported _ _ t s _ Hload H3 H4) as [g Hg].
      by exists (set_gl g s).
  - intros s' Hrun.
    destruct (CreateGLTexture_false_inv _ _ _ _ _ Hrun) as [g ->].
    done.
Qed.

Lemma CreateGLTexture_failure_keeps_registry_witness :
  (exists s', CreateGLTexture example_files "gray.png" "fog" wood_glass_scene
              = Ok (false, s')) /\
  forall s', CreateGLTexture example_files "gray.png" "fog" wood_glass_scene
             = Ok (false, s') ->
    m_textureIDs s' = m_textureIDs wood_glass_scene /\
    m_loadedTextures s' = m_loadedTextures wood_glass_scene /\
    registry s' = registry wood_glass_scene.
Proof.
  apply (CreateGLTexture_failure_keeps_registry example_files "gray.png" "fog"
           wood_glass_scene).
  right. exists (mkImage 8 8 1). split; [reflexivity|]. split; cbn; lia.
Defined.

(** The run of calls of [load_textures] when every file decodes to 3 or 4
    channels: it succeeds as long as the table has room, and stops in the
    call that would write past its end. *)
Lemma load_textures_overflow stbi_load calls : forall s,
  Forall (fun c => exists image, stbi_load c.1 = Some image /\
                     (colorChannels image = 3 \/ colorChannels image = 4)) calls ->
  within_capacity s ->
  (Z.of_nat (length (m_textureIDs s)) - m_loadedTextures s < Z.of_nat (length calls)) ->
  load_textures stbi_load calls s
  = Fault (OutOfBounds (Z.of_nat (length (m_textureIDs s)))).
Proof.
  induction calls as [|[filename t] calls IH]; intros s Hall Hwf Hlen.
  - destruct Hwf. cbn in Hlen. lia.
  - apply Forall_cons in Hall as [(image & Hload & Hc) Hall]. cbn in Hload.
    cbn [load_textures].
    destruct (decide (m_loadedTextures s < Z.of_nat (length (m_textureIDs s)))) as [Hn|Hn].
    + destruct (CreateGLTexture_registers _ _ t s _ Hload Hc) as [g Hg];
        [destruct Hwf; lia|].
      rewrite (bind_Ok _ _ _ _ _ Hg).
      rewrite (bind_Fault (load_textures stbi_load calls) _ _
                 (OutOfBounds (Z.of_nat (length (m_textureIDs s))))); [done|].
      rewrite IH; [| done | |].
      * cbn. by rewrite length_insert.
      * destruct Hwf. unfold within_capacity. cbn. rewrite length_insert. lia.
      * cbn. rewrite length_insert. cbn in Hlen. lia.
    + rewrite (bind_Fault _ _ _ (OutOfBounds (m_loadedTextures s))).
      * destruct Hwf. do 2 f_equal. lia.
      * apply (CreateGLTexture_overflow _ _ _ _ _ Hload Hc). lia.
Qed.

(** C10. A [CreateGLTexture] call that returns [true] has written its entry
    at index [m_loadedTextures] and has incremented the counter.  Nothing
    compares the counter with the capacity of the table: when the counter has
    reached it, a call on a decodable file still goes on to the write, at an
    index outside the table; and of any run of more than 16 calls on decodable
    files, starting from an empty table of 16 slots, one call writes at
    index 16. *)
Theorem CreateGLTexture_unchecked_capacity (stbi_load : string -> option stbi_image) :
  (forall filename t s s',
     CreateGLTexture stbi_load filename t s = Ok (true, s') ->
     m_textureIDs s'
       = <[Z.to_nat (m_loadedTextures s) := mkTexture (gl_next_name (gl s)) t]>
           (m_textureIDs s) /\
     m_loadedTextures s' = m_loadedTextures s + 1) /\
  (forall filename t s image,
     stbi_load filename = Some image ->
     colorChannels image = 3 \/ colorChannels image = 4 ->
     Z.of_nat (length (m_textureIDs s)) <= m_loadedTextures s ->
     CreateGLTexture stbi_load filename t s = Fault (OutOfBounds (m_loadedTextures s))) /\
  (forall calls s,
     Forall (fun c => exists image, stbi_load c.1 = Some image /\
                        (colorChannels image = 3 \/ colorChannels image = 4)) calls ->
     m_loadedTextures s = 0 ->
     length (m_textureIDs s) = MAX_TEXTURES ->
     (16 < length calls)%nat ->
     load_textures stbi_load calls s = Fault (OutOfBounds 16)).
Proof.
  split; [|split].
  - intros filename t s s' Hrun.
    by destruct (CreateGLTexture_true_inv _ _ _ _ _ Hrun) as (_ & g & ->).
  - intros filename t s image Hload Hc Hn.
    apply (CreateGLTexture_overflow _ _ _ _ _ Hload Hc). lia.
  - intros calls s Hall H0 Hcap Hlen.
    rewrite (load_textures_overflow _ _ _ Hall).
    + by rewrite Hcap.
    + unfold within_capacity. lia.
    + rewrite Hcap, H0. unfold MAX_TEXTURES. lia.
Qed.

Lemma CreateGLTexture_unchecked_capacity_witness :
  (exists s', CreateGLTexture any_rgb "brick.jpg" "brick" new_scene = Ok (true, s') /\
              m_textureIDs s' = <[0%nat := mkTexture 1 "brick"]> (m_textureIDs new_scene) /\
              m_loadedTextures s' = 1) /\
  CreateGLTexture any_rgb "brick.jpg" "brick" (set_loadedTextures 16 new_scene)
  = Fault (OutOfBounds 16) /\
  load_textures any_rgb (replicate 17 ("brick.jpg", "brick")) new_scene
  = Fault (OutOfBounds 16).
Proof.
  destruct (CreateGLTexture_unchecked_capacity any_rgb) as (Hwrite & Hcheck & Hrun).
  split; [|split].
  - eexists. split; [vm_compute; reflexivity|].
    eapply (Hwrite "brick.jpg" "brick" new_scene). vm_compute. reflexivity.
  - apply (Hcheck "brick.jpg" "brick" (set_loadedTextures 16 new_scene) (mkImage 2 2 3)).
    + reflexivity.
    + left. reflexivity.
    + cbn. lia.
  - apply Hrun.
    + apply Forall_forall. intros c _. exists (mkImage 2 2 3). split; [reflexivity|].
      left. reflexivity.
    + reflexivity.
    + reflexivity.
    + cbn. lia.
Defined.

(** C9. [push_back m] appends [m] to the materials defined so far, and
    [FindMaterial] on the tag of [m] then returns [true] and has copied into
    the referent the diffuse colour, the specular colour and the shininess of
    the first material defined with this tag: of the first of the earlier
    materials that carries the tag when there is one, and of [m] otherwise.
    In particular, when [m] is defined under a tag that none had and [m2] is
    defined under the same tag afterwards, [FindMaterial] returns the values
    of [m], the first-defined one. *)
Theorem FindMaterial_after_define (s : SceneManager) (m out : OBJECT_MATERIAL) :
  exists s1,
    push_back m s = Ok (tt, s1) /\
    m_objectMaterials s1 = m_objectMaterials s ++ [m] /\
    (exists pre m1 post,
       m_objectMaterials s ++ [m] = pre ++ m1 :: post /\
       material_tag m1 = material_tag m /\
       Forall (fun m' => material_tag m' <> material_tag m) pre /\
       FindMaterial (material_tag m) out s1
       = Ok ((true, mkMaterial (diffuseColor m1) (specularColor m1) (shininess m1)
                               (material_tag out)), s1)) /\
    (forall (i : nat) first,
       m_objectMaterials s !! i = Some first ->
       material_tag first = material_tag m ->
       (forall (j : nat) m', (j < i)%nat -> m_objectMaterials s !! j = Some m' ->
                             material_tag m' <> material_tag m) ->
       FindMaterial (material_tag m) out s1
       = Ok ((true, mkMaterial (diffuseColor first) (specularColor first)
                               (shininess first) (material_tag out)), s1)) /\
    (Forall (fun m' => material_tag m' <> material_tag m) (m_objectMaterials s) ->
     FindMaterial (material_tag m) out s1
     = Ok ((true, mkMaterial (diffuseColor m) (specularColor m) (shininess m)
                             (material_tag out)), s1) /\
     forall m2, material_tag m2 = material_tag m ->
       exists s2,
         push_back m2 s1 = Ok (tt, s2) /\
         m_objectMaterials s2 = m_objectMaterials s ++ [m; m2] /\
         FindMaterial (material_tag m) out s2
         = Ok ((true, mkMaterial (diffuseColor m) (specularColor m) (shininess m)
                                 (material_tag out)), s2)).
Proof.
  exists (set_objectMaterials (m_objectMaterials s ++ [m]) s).
  split; [reflexivity|]. split; [reflexivity|]. split; [|split].
  - set (ms := m_objectMaterials s ++ [m]).
    destruct (list_find (fun m' => material_tag m' = material_tag m) ms)
      as [[i m1]|] eqn:E.
    + apply list_find_Some in E as (Hi & Ht & Hfirst).
      exists (take i ms), m1, (drop (S i) ms).
      assert (ms = take i ms ++ m1 :: drop (S i) ms) as Hsplit
        by (by rewrite take_drop_middle).
      split; [exact Hsplit|]. split; [exact Ht|].
      assert (Forall (fun m' => material_tag m' <> material_tag m) (take i ms)) as Hpre.
      { apply Forall_forall. intros y Hy.
        apply list_elem_of_lookup in Hy as [j Hj].
        apply lookup_take_Some in Hj as [Hj Hlt]. by eapply Hfirst. }
      split; [exact Hpre|].
      by apply (FindMaterial_first _ _ _ (take i ms) m1 (drop (S i) ms)).
    + exfalso. apply list_find_None in E. rewrite Forall_forall in E.
      apply (E m); [|done]. subst ms. apply elem_of_app. right. by left.
  - intros i first Hi Ht Hbefore.
    apply (FindMaterial_first _ _ _ (take i (m_objectMaterials s)) first
             (drop (S i) (m_objectMaterials s) ++ [m])).
    + cbn [m_objectMaterials set_objectMaterials].
      rewrite <- (take_drop_middle _ _ _ Hi) at 1. by rewrite <- app_assoc.
    + exact Ht.
    + apply Forall_forall. intros y Hy.
      apply list_elem_of_lookup in Hy as [j Hj].
      apply lookup_take_Some in Hj as [Hj Hlt]. by eapply Hbefore.
  - intros Hnone. split.
    + by apply (FindMaterial_first _ _ _ (m_objectMaterials s) m []).
    + intros m2 Hm2.
      exists (set_objectMaterials ((m_objectMaterials s ++ [m]) ++ [m2]) s).
      split; [reflexivity|]. split.
      * cbn [m_objectMaterials set_objectMaterials]. by rewrite <- app_assoc.
      * apply (FindMaterial_first _ _ _ (m_objectMaterials s) m [m2]);
          [|done|exact Hnone].
        cbn [m_objectMaterials set_objectMaterials]. by rewrite <- app_assoc.
Qed.

(** The two materials "gold" of [FindMaterial_duplicate_tag], through the
    statement above. *)
Lemma FindMaterial_after_define_witness :
  FindMaterial "gold" cementMaterial
    (set_objectMaterials [goldMaterial] new_scene)
  = Ok ((true, mkMaterial (diffuseColor goldMaterial) (specularColor goldMaterial)
                          (shininess goldMaterial) "cement"),
        set_objectMaterials [goldMaterial] new_scene) /\
  exists s2,
    push_back (mkMaterial (glm.Vec3 1 1 1) (glm.Vec3 0 0 0) 1 "gold")
      (set_objectMaterials [goldMaterial] new_scene) = Ok (tt, s2) /\
    m_objectMaterials s2
    = [goldMaterial; mkMaterial (glm.Vec3 1 1 1) (glm.Vec3 0 0 0) 1 "gold"] /\
    FindMaterial "gold" cementMaterial s2
    = Ok ((true, mkMaterial (diffuseColor goldMaterial) (specularColor goldMaterial)
                            (shininess goldMaterial) "cement"), s2).
Proof.
  destruct (FindMaterial_after_define new_scene goldMaterial cementMaterial)
    as (s1 & Hpush & _ & _ & _ & Hfresh).
  injection Hpush as <-.
  destruct (Hfresh (Forall_nil_2 _)) as [Hfind Hsecond].
  split; [exact Hfind|].
  apply (Hsecond (mkMaterial (glm.Vec3 1 1 1) (glm.Vec3 0 0 0) 1 "gold")).
  reflexivity.
Defined.

(** Two materials defined under one tag: the first one is found. *)
Lemma FindMaterial_duplicate_tag :
  exists s1 s2,
    push_back goldMaterial new_scene = Ok (tt, s1) /\
    push_back (mkMaterial (glm.Vec3 1 1 1) (glm.Vec3 0 0 0) 1 "gold") s1 = Ok (tt, s2) /\
    FindMaterial "gold" cementMaterial s2
    = Ok ((true, mkMaterial (diffuseColor goldMaterial) (specularColor goldMaterial)
                            (shininess goldMaterial) "cement"), s2).
Proof.
  do 2 eexists. split; [reflexivity|]. split; [reflexivity|].
  by apply (FindMaterial_first "gold" cementMaterial _ [] goldMaterial
              [mkMaterial (glm.Vec3 1 1 1) (glm.Vec3 0 0 0) 1 "gold"]).
Qed.

(** C1. Evaluation at a registry that holds [goldMaterial] alone, queried for
    a tag that no material carries: [FindMaterial] reports success
    ([bFound] is [false] when the loop ends, and the method returns the
    constant [true]) and the referent is left as the caller passed it. *)
Theorem FindMaterial_true_without_match (out : OBJECT_MATERIAL) :
  ("silver" ∉ material_tag <$> m_objectMaterials gold_scene) /\
  FindMaterial_loop 1 0 "silver" out gold_scene = Ok ((false, out), gold_scene) /\
  FindMaterial "silver" out gold_scene = Ok ((true, out), gold_scene).
Proof.
  assert ("silver" ∉ material_tag <$> m_objectMaterials gold_scene) as Hnot.
  { cbn. intros H. apply list_elem_of_singleton in H. discriminate. }
  split; [exact Hnot|]. split.
  - rewrite FindMaterial_loop_spec by (cbn; lia). reflexivity.
  - by apply FindMaterial_unmatched.
Qed.

(** C2. Evaluation at the same registry and tag: [SetShaderMaterial] submits
    the three material uniforms although no material matches; the values are
    those the uninitialised local happened to hold. *)
Theorem SetShaderMaterial_submits_without_match (indeterminate : OBJECT_MATERIAL) :
  SetShaderMaterial "silver" indeterminate gold_scene
  = Ok (tt, set_shader
              (Some [ ("material.diffuseColor", Vec3Value (diffuseColor indeterminate));
                      ("material.specularColor", Vec3Value (specularColor indeterminate));
                      ("material.shininess", FloatValue (shininess indeterminate)) ])
              gold_scene).
Proof.
  unfold SetShaderMaterial. cbn [bind get].
  change (0 <? Z.of_nat (length (m_objectMaterials gold_scene))) with true. cbv iota.
  assert (FindMaterial "silver" indeterminate gold_scene
          = Ok ((true, indeterminate), gold_scene)) as Hfind.
  { apply FindMaterial_unmatched; [done|].
    cbn. intros H. apply list_elem_of_singleton in H. discriminate. }
  rewrite (bind_Ok _ _ _ _ _ Hfind). reflexivity.
Qed.

(** The operations that test [m_pShaderManager] do nothing when it is NULL. *)
Lemma SetTransformations_null s scaleXYZ rx ry rz positionXYZ :
  m_pShaderManager s = None ->
  SetTransformations scaleXYZ rx ry rz positionXYZ s = Ok (tt, s).
Proof. apply when_shader_null. Qed.

Lemma SetShaderColor_null s r g b a :
  m_pShaderManager s = None -> SetShaderColor r g b a s = Ok (tt, s).
Proof. apply when_shader_null. Qed.

Lemma SetShaderTexture_null s t :
  m_pShaderManager s = None -> SetShaderTexture t s = Ok (tt, s).
Proof. apply when_shader_null. Qed.

Lemma SetTextureUVScale_null s u v :
  m_pShaderManager s = None -> SetTextureUVScale u v s = Ok (tt, s).
Proof. apply when_shader_null. Qed.

(** C8. Evaluation at an object constructed with a NULL shader manager, with
    one material defined.  [SetTransformations], [SetShaderColor],
    [SetShaderTexture] and [SetTextureUVScale] test the pointer and return
    without a submission; [SetShaderMaterial] has no such test and calls
    through the NULL pointer. *)
Theorem SetShaderMaterial_null_dereference (indeterminate : OBJECT_MATERIAL) :
  m_pShaderManager null_gold_scene = None /\
  SetTransformations (glm.Vec3 1 1 1) 0 0 0 (glm.Vec3 0 0 0) null_gold_scene
    = Ok (tt, null_gold_scene) /\
  SetShaderColor 1 1 1 1 null_gold_scene = Ok (tt, null_gold_scene) /\
  SetShaderTexture "onyx" null_gold_scene = Ok (tt, null_gold_scene) /\
  SetTextureUVScale 1 1 null_gold_scene = Ok (tt, null_gold_scene) /\
  SetShaderMaterial "gold" indeterminate null_gold_scene = Fault NullDereference.
Proof.
  split; [reflexivity|].
  split; [by apply SetTransformations_null|].
  split; [by apply SetShaderColor_null|].
  split; [by apply SetShaderTexture_null|].
  split; [by apply SetTextureUVScale_null|].
  unfold SetShaderMaterial. cbn [bind get].
  change (0 <? Z.of_nat (length (m_objectMaterials null_gold_scene))) with true.
  cbv iota.
  assert (FindMaterial "gold" indeterminate null_gold_scene
          = Ok ((true, mkMaterial (diffuseColor goldMaterial) (specularColor goldMaterial)
                                  (shininess goldMaterial) (material_tag indeterminate)),
                null_gold_scene)) as Hfind.
  { by apply (FindMaterial_first "gold" indeterminate _ [] goldMaterial []). }
  rewrite (bind_Ok _ _ _ _ _ Hfind). reflexivity.
Qed.

(** ** [DestroyGLTextures] *)

Lemma DestroyGLTextures_loop_spec n : forall i s,
  0 <= i ->
  (Z.to_nat i + n <= length (m_textureIDs s))%nat ->
  exists s',
    for_loop n i (fun i =>
      name <- glGenTextures ;;
      texture_assign i (assign_ID name)) s = Ok (tt, s') /\
    gl_textures (gl s) ⊆ gl_textures (gl s') /\
    gl_calls (gl s')
      = gl_calls (gl s) ++ (GenTextures <$> seqZ (gl_next_name (gl s)) (Z.of_nat n)) /\
    length (m_textureIDs s') = length (m_textureIDs s) /\
    m_loadedTextures s' = m_loadedTextures s.
Proof.
  induction n as [|n IH]; intros i s H0 Hlen.
  - exists s. split; [done|]. split; [done|]. by rewrite app_nil_r.
  - destruct (lookup_lt_is_Some_2 (m_textureIDs s) (Z.to_nat i)) as [e He]; [lia|].
    cbn [for_loop]. rewrite bind_assoc. run_gl.
    erewrite (bind_Ok (texture_assign i _)); [|by apply texture_assign_Ok].
    match goal with |- context [for_loop n (i + 1) _ ?s1] =>
      destruct (IH (i + 1) s1) as (s' & Hrun & Htex & Hcalls & Hlen' & Hcount);
        [lia|cbn; rewrite length_insert; lia|] end.
    exists s'. split; [exact Hrun|].
    cbn in Htex, Hcalls, Hlen', Hcount. rewrite length_insert in Hlen'.
    split; [set_solver|]. split; [|done].
    rewrite Hcalls, <- app_assoc. f_equal.
    rewrite (seqZ_cons _ (Z.of_nat (S n))) by lia. cbn [fmap list_fmap app].
    do 3 f_equal; lia.
Qed.

Lemma DestroyGLTextures_spec s :
  within_capacity s ->
  exists s',
    DestroyGLTextures s = Ok (tt, s') /\
    gl_textures (gl s) ⊆ gl_textures (gl s') /\
    gl_calls (gl s')
      = gl_calls (gl s) ++ (GenTextures <$> seqZ (gl_next_name (gl s)) (m_loadedTextures s)).
Proof.
  intros [H0 H1]. unfold DestroyGLTextures. cbn [bind get].
  destruct (DestroyGLTextures_loop_spec (Z.to_nat (m_loadedTextures s)) 0 s)
    as (s' & Hrun & Htex & Hcalls & _); [lia|lia|].
  exists s'. split; [exact Hrun|]. split; [exact Htex|].
  by rewrite Hcalls, Z2Nat.id.
Qed.

(** C3. Evaluation at the scene with the textures "wood" (handle 1) and
    "glass" (handle 2): [DestroyGLTextures] calls [glGenTextures] once per
    entry and nothing else.  The handles 1 and 2 are still alive afterwards,
    two more names (3 and 4) have been generated, and the table now holds
    those. *)
Theorem DestroyGLTextures_releases_nothing :
  exists s',
    DestroyGLTextures wood_glass_scene = Ok (tt, s') /\
    ID <$> registry wood_glass_scene = [1; 2] /\
    gl_textures (gl wood_glass_scene) = {[1; 2]} /\
    gl_calls (gl s') = gl_calls (gl wood_glass_scene) ++ [GenTextures 3; GenTextures 4] /\
    gl_textures (gl s') = {[1; 2; 3; 4]} /\
    ID <$> registry s' = [3; 4].
Proof.
  eexists. split; [vm_compute; reflexivity|].
  repeat split; vm_compute; reflexivity.
Qed.


Lemma loaded_wood_glass :
  loaded example_files new_scene [mkTexture 1 "wood"; mkTexture 2 "glass"]
         wood_glass_scene.
Proof.
  change [mkTexture 1 "wood"; mkTexture 2 "glass"]
    with (([] ++ [mkTexture 1 "wood"]) ++ [mkTexture 2 "glass"]).
  eapply (loaded_success _ _ _ _ "b.png" "glass").
  - eapply (loaded_success _ _ _ _ "a.jpg" "wood").
    + apply loaded_none.
    + vm_compute. reflexivity.
    + vm_compute. reflexivity.
  - vm_compute. reflexivity.
  - vm_compute. reflexivity.
Defined.


(** The end-to-end scenario of the spec, by evaluation. *)
Lemma wood_glass_scenario :
  FindTextureSlot "wood" wood_glass_scene = Ok (0, wood_glass_scene) /\
  FindTextureSlot "glass" wood_glass_scene = Ok (1, wood_glass_scene) /\
  exists s', BindGLTextures wood_glass_scene = Ok (tt, s') /\
             gl_binding (gl s') = {[0 := 1; 1 := 2]}.
Proof.
  split; [vm_compute; reflexivity|]. split; [vm_compute; reflexivity|].
  eexists. split; vm_compute; reflexivity.
Qed.

(** ** [SetTransformations] *)

Section Transformations.
Local Open Scope R_scope.





End Transformations.

(** * Further properties of the code *)

(** ** The OpenGL calls of the texture methods *)

Lemma gl_set_gl g s : gl (set_gl g s) = g.
Proof. reflexivity. Qed.

Lemma gl_run_snoc calls c g : gl_run (calls ++ [c]) g = gl_exec (gl_run calls g) c.
Proof. unfold gl_run. by rewrite foldl_snoc. Qed.

Lemma gl_run_app calls1 calls2 g :
  gl_run (calls1 ++ calls2) g = gl_run calls2 (gl_run calls1 g).
Proof. unfold gl_run. by rewrite foldl_app. Qed.

Lemma gl_calls_run calls : forall g, gl_calls (gl_run calls g) = gl_calls g ++ calls.
Proof.
  induction calls as [|c calls IH]; intros g.
  - by rewrite app_nil_r.
  - change (gl_run (c :: calls) g) with (gl_run calls (gl_exec g c)).
    rewrite IH. unfold gl_exec, gl_record. cbn [gl_calls].
    rewrite <- app_assoc. by destruct c.
Qed.

Lemma glGenTextures_exec s :
  glGenTextures s
  = Ok (gl_next_name (gl s), set_gl (gl_exec (gl s) (GenTextures (gl_next_name (gl s)))) s).
Proof. reflexivity. Qed.

Lemma glBindTexture_exec target texture s :
  glBindTexture target texture s
  = Ok (tt, set_gl (gl_exec (gl s) (BindTexture target texture)) s).
Proof. reflexivity. Qed.

Lemma glActiveTexture_exec texture s :
  glActiveTexture texture s = Ok (tt, set_gl (gl_exec (gl s) (ActiveTexture texture)) s).
Proof. reflexivity. Qed.

Lemma glTexParameteri_exec target pname param s :
  glTexParameteri target pname param s
  = Ok (tt, set_gl (gl_exec (gl s) (TexParameteri target pname param)) s).
Proof. reflexivity. Qed.

Lemma glTexImage2D_exec target internalformat w h format type s :
  glTexImage2D target internalformat w h format type s
  = Ok (tt, set_gl (gl_exec (gl s) (TexImage2D target internalformat w h format type)) s).
Proof. reflexivity. Qed.

Lemma glGenerateMipmap_exec target s :
  glGenerateMipmap target s = Ok (tt, set_gl (gl_exec (gl s) (GenerateMipmap target)) s).
Proof. reflexivity. Qed.

(** One call of the program text, run on a state whose context is
    [gl_run calls g]. *)
Ltac gl_step lemma :=
  rewrite (bind_Ok _ _ _ _ _ lemma), ?set_gl_set_gl, ?gl_set_gl, <- ?gl_run_snoc;
  cbn [app].

Lemma CreateGLTexture_prologue_calls stbi_load filename t s image :
  stbi_load filename = Some image ->
  CreateGLTexture stbi_load filename t s
  = bind (if colorChannels image =? 3 then
            glTexImage2D GL_TEXTURE_2D GL_RGB8 (width image) (height image)
                         GL_RGB GL_UNSIGNED_BYTE ;;
            ret true
          else if colorChannels image =? 4 then
            glTexImage2D GL_TEXTURE_2D GL_RGBA8 (width image) (height image)
                         GL_RGBA GL_UNSIGNED_BYTE ;;
            ret true
          else ret false)
      (fun uploaded : bool =>
         if uploaded then
           glGenerateMipmap GL_TEXTURE_2D ;;
           glBindTexture GL_TEXTURE_2D 0 ;;
           s' <- get ;;
           texture_assign (m_loadedTextures s') (assign_ID (gl_next_name (gl s))) ;;
           texture_assign (m_loadedTextures s') (assign_tag t) ;;
           modify (set_loadedTextures (m_loadedTextures s' + 1)) ;;
           ret true
         else ret false)
      (set_gl (gl_run (rejected_calls (gl_next_name (gl s))) (gl s)) s).
Proof.
  intros H. unfold CreateGLTexture. rewrite H.
  rewrite (bind_Ok _ _ _ _ _ (glGenTextures_exec s)).
  change (gl_exec (gl s) (GenTextures (gl_next_name (gl s))))
    with (gl_run [GenTextures (gl_next_name (gl s))] (gl s)).
  gl_step (glBindTexture_exec GL_TEXTURE_2D (gl_next_name (gl s))
             (set_gl (gl_run [GenTextures (gl_next_name (gl s))] (gl s)) s)).
  match goal with |- bind _ _ ?s1 = _ =>
    gl_step (glTexParameteri_exec GL_TEXTURE_2D GL_TEXTURE_WRAP_S GL_REPEAT s1) end.
  match goal with |- bind _ _ ?s1 = _ =>
    gl_step (glTexParameteri_exec GL_TEXTURE_2D GL_TEXTURE_WRAP_T GL_REPEAT s1) end.
  match goal with |- bind _ _ ?s1 = _ =>
    gl_step (glTexParameteri_exec GL_TEXTURE_2D GL_TEXTURE_MIN_FILTER GL_LINEAR s1) end.
  match goal with |- bind _ _ ?s1 = _ =>
    gl_step (glTexParameteri_exec GL_TEXTURE_2D GL_TEXTURE_MAG_FILTER GL_LINEAR s1) end.
  reflexivity.
Qed.

(** The outcome of [CreateGLTexture] for an image it accepts, with the
    context it leaves. *)
Lemma CreateGLTexture_accepted stbi_load filename t s image :
  stbi_load filename = Some image ->
  colorChannels image = 3 \/ colorChannels image = 4 ->
  CreateGLTexture stbi_load filename t s
  = (texture_assign (m_loadedTextures s) (assign_ID (gl_next_name (gl s))) ;;
     texture_assign (m_loadedTextures s) (assign_tag t) ;;
     modify (set_loadedTextures (m_loadedTextures s + 1)) ;;
     ret true)
      (set_gl (gl_run (upload_calls image (gl_next_name (gl s))) (gl s)) s).
Proof.
  intros H Hc. rewrite (CreateGLTexture_prologue_calls _ _ t s _ H).
  unfold upload_calls, rejected_calls.
  destruct Hc as [Hc | Hc]; rewrite Hc; cbn [Z.eqb Pos.eqb]; rewrite bind_assoc.
  - match goal with |- bind _ _ ?s1 = _ =>
      gl_step (glTexImage2D_exec GL_TEXTURE_2D GL_RGB8 (width image) (height image)
                 GL_RGB GL_UNSIGNED_BYTE s1) end.
    rewrite bind_ret.
    match goal with |- bind _ _ ?s1 = _ =>
      gl_step (glGenerateMipmap_exec GL_TEXTURE_2D s1) end.
    match goal with |- bind _ _ ?s1 = _ =>
      gl_step (glBindTexture_exec GL_TEXTURE_2D 0 s1) end.
    by rewrite bind_get.
  - match goal with |- bind _ _ ?s1 = _ =>
      gl_step (glTexImage2D_exec GL_TEXTURE_2D GL_RGBA8 (width image) (height image)
                 GL_RGBA GL_UNSIGNED_BYTE s1) end.
    rewrite bind_ret.
    match goal with |- bind _ _ ?s1 = _ =>
      gl_step (glGenerateMipmap_exec GL_TEXTURE_2D s1) end.
    match goal with |- bind _ _ ?s1 = _ =>
      gl_step (glBindTexture_exec GL_TEXTURE_2D 0 s1) end.
    by rewrite bind_get.
Qed.

Lemma CreateGLTexture_registers_calls stbi_load filename t s image :
  stbi_load filename = Some image ->
  colorChannels image = 3 \/ colorChannels image = 4 ->
  0 <= m_loadedTextures s < Z.of_nat (length (m_textureIDs s)) ->
  CreateGLTexture stbi_load filename t s
  = Ok (true, mkScene (m_pShaderManager s)
                (<[Z.to_nat (m_loadedTextures s) :=
                     mkTexture (gl_next_name (gl s)) t]> (m_textureIDs s))
                (m_loadedTextures s + 1) (m_objectMaterials s)
                (gl_run (upload_calls image (gl_next_name (gl s))) (gl s))).
Proof.
  intros H Hc Hn. rewrite (CreateGLTexture_accepted _ _ t s _ H Hc).
  set (g := gl_run _ _).
  destruct (lookup_lt_is_Some_2 (m_textureIDs s) (Z.to_nat (m_loadedTextures s)))
    as [e He]; [lia|].
  rewrite (bind_Ok _ _ _ _ _
             (texture_assign_Ok (set_gl g s) _ (assign_ID (gl_next_name (gl s))) e
                (proj1 Hn) He)).
  erewrite (bind_Ok (texture_assign _ _)).
  2: { apply texture_assign_Ok; [exact (proj1 Hn)|].
       apply list_lookup_insert_eq. cbn [m_textureIDs m_loadedTextures set_gl]. lia. }
  rewrite bind_modify. unfold ret.
  cbn [m_textureIDs set_textureIDs set_gl]. by rewrite list_insert_insert_eq.
Qed.

Lemma CreateGLTexture_unsupported_calls stbi_load filename t s image :
  stbi_load filename = Some image ->
  colorChannels image <> 3 -> colorChannels image <> 4 ->
  CreateGLTexture stbi_load filename t s
  = Ok (false, set_gl (gl_run (rejected_calls (gl_next_name (gl s))) (gl s)) s).
Proof.
  intros H H3 H4. rewrite (CreateGLTexture_prologue_calls _ _ t s _ H).
  apply Z.eqb_neq in H3, H4. by rewrite H3, H4, bind_ret.
Qed.

(** What the calls of an accepted upload do to the context. *)
Lemma upload_calls_effect image name g :
  let g' := gl_run (upload_calls image name) g in
  gl_next_name g' = name + 1 /\
  gl_textures g' = {[name]} ∪ gl_textures g /\
  gl_active_unit g' = gl_active_unit g /\
  gl_binding g' = <[gl_active_unit g := 0]> (gl_binding g).
Proof.
  intros g'. subst g'. unfold upload_calls.
  destruct (colorChannels image =? 3).
  all: split; [reflexivity|]; split; [reflexivity|]; split; [reflexivity|].
  all: cbn; by rewrite insert_insert_eq.
Qed.

(** What the calls made before a rejection do to the context. *)
Lemma rejected_calls_effect name g :
  let g' := gl_run (rejected_calls name) g in
  gl_next_name g' = name + 1 /\
  gl_textures g' = {[name]} ∪ gl_textures g /\
  gl_active_unit g' = gl_active_unit g /\
  gl_binding g' = <[gl_active_unit g := name]> (gl_binding g).
Proof. intros g'. subst g'. by repeat split. Qed.

(** ** Lookups in the texture table *)

Lemma FindTextureID_loop_spec t s n index :
  0 <= index ->
  (Z.to_nat index + n <= length (m_textureIDs s))%nat ->
  FindTextureID_loop n index t s
  = Ok (match list_find (fun e => tag e = t)
                (take n (drop (Z.to_nat index) (m_textureIDs s))) with
        | Some (_, e) => int_of_GLuint (ID e)
        | None => -1
        end, s).
Proof.
  revert index. induction n as [|n IH]; intros index H0 Hlen.
  - reflexivity.
  - destruct (lookup_lt_is_Some_2 (m_textureIDs s) (Z.to_nat index)) as [e He]; [lia|].
    cbn [FindTextureID_loop].
    rewrite (bind_Ok _ _ _ _ _ (texture_at_Ok _ _ _ H0 He)).
    rewrite (drop_S _ _ _ He), firstn_cons, string_compare_0.
    cbn [list_find]. case_bool_decide as Ht.
    + by rewrite decide_True by done.
    + rewrite decide_False by done.
      rewrite IH by lia.
      replace (Z.to_nat (index + 1)) with (S (Z.to_nat index)) by lia.
      by destruct (list_find _ _) as [[k e']|].
Qed.

Lemma FindTextureID_registry t s :
  within_capacity s ->
  FindTextureID t s
  = Ok (match list_find (fun e => tag e = t) (registry s) with
        | Some (_, e) => int_of_GLuint (ID e)
        | None => -1
        end, s).
Proof.
  intros [H0 H1]. unfold FindTextureID. cbn [bind get].
  rewrite FindTextureID_loop_spec by lia.
  change (Z.to_nat 0) with 0%nat. by rewrite drop_0.
Qed.

(** X1. [FindTextureSlot] returns the index of the first registered entry
    that carries the tag, and -1 when none does; entries at or beyond
    [m_loadedTextures] are never looked at, and the object is not changed. *)
Theorem FindTextureSlot_first_match (t : string) (s : SceneManager) :
  within_capacity s ->
  exists slot : Z,
    FindTextureSlot t s = Ok (slot, s) /\
    ((slot = -1 /\ t ∉ tag <$> registry s) \/
     (0 <= slot < m_loadedTextures s /\
      (exists e, m_textureIDs s !! Z.to_nat slot = Some e /\ tag e = t) /\
      forall (j : nat) e', (Z.of_nat j < slot) -> m_textureIDs s !! j = Some e' ->
                           tag e' <> t)).
Proof.
  intros Hwf. rewrite FindTextureSlot_registry by done.
  destruct (list_find _ _) as [[k e]|] eqn:E.
  - exists (Z.of_nat k). split; [done|]. right.
    apply list_find_Some in E as (Hk & Ht & Hfirst).
    apply registry_lookup in Hk as [Hk Hlt].
    split; [destruct Hwf; lia|]. split.
    + exists e. by rewrite Nat2Z.id.
    + intros j e' Hj Hj'. apply (Hfirst j); [|lia].
      unfold registry. rewrite lookup_take_lt by lia. done.
  - exists (-1). split; [done|]. left. split; [done|].
    apply list_find_None in E. rewrite Forall_forall in E.
    intros Hin. apply list_elem_of_fmap in Hin as (e & -> & He). by apply (E e).
Qed.

Lemma FindTextureSlot_first_match_witness :
  exists slot : Z,
    FindTextureSlot "glass" wood_glass_scene = Ok (slot, wood_glass_scene) /\
    ((slot = -1 /\ "glass" ∉ tag <$> registry wood_glass_scene) \/
     (0 <= slot < m_loadedTextures wood_glass_scene /\
      (exists e, m_textureIDs wood_glass_scene !! Z.to_nat slot = Some e /\
                 tag e = "glass") /\
      forall (j : nat) e', (Z.of_nat j < slot) ->
                           m_textureIDs wood_glass_scene !! j = Some e' ->
                           tag e' <> "glass")).
Proof.
  apply (FindTextureSlot_first_match "glass" wood_glass_scene).
  unfold within_capacity. cbn. lia.
Defined.

Lemma int_of_GLuint_small v : 0 <= v < 2 ^ 31 -> int_of_GLuint v = v.
Proof. intros Hv. unfold int_of_GLuint. rewrite Z.mod_small; lia. Qed.

Lemma int_of_GLuint_large v : 2 ^ 31 <= v < 2 ^ 32 -> int_of_GLuint v = v - 2 ^ 32.
Proof.
  intros Hv. unfold int_of_GLuint.
  replace (v + 2 ^ 31) with (v - 2 ^ 31 + 1 * 2 ^ 32) by lia.
  rewrite Z.mod_add by lia. rewrite Z.mod_small; lia.
Qed.

(** X2. [FindTextureID] and [FindTextureSlot] agree: both answer -1 for a tag
    that is not registered, and otherwise [FindTextureID] returns the handle
    stored at the slot [FindTextureSlot] returns, as the [int] it is assigned
    to: the handle itself when it is below 2^31, and the handle less 2^32
    when it is a [GLuint] from 2^31 on (the handle 0xFFFFFFFF comes back as
    -1, the value that also says not found). *)
Theorem FindTextureID_is_handle_at_slot (t : string) (s : SceneManager) :
  within_capacity s ->
  exists slot id : Z,
    FindTextureSlot t s = Ok (slot, s) /\
    FindTextureID t s = Ok (id, s) /\
    ((slot = -1 /\ id = -1) \/
     (0 <= slot /\
      exists e, m_textureIDs s !! Z.to_nat slot = Some e /\
                id = int_of_GLuint (ID e) /\
                (0 <= ID e < 2 ^ 31 -> id = ID e) /\
                (2 ^ 31 <= ID e < 2 ^ 32 -> id = ID e - 2 ^ 32) /\
                (ID e = 0xFFFFFFFF -> id = -1))).
Proof.
  intros Hwf.
  rewrite FindTextureSlot_registry, FindTextureID_registry by done.
  destruct (list_find _ _) as [[k e]|] eqn:E.
  - exists (Z.of_nat k), (int_of_GLuint (ID e)). split; [done|]. split; [done|]. right.
    apply list_find_Some in E as (Hk & _).
    apply registry_lookup in Hk as [Hk _].
    split; [lia|]. exists e. rewrite Nat2Z.id. split; [exact Hk|]. split; [done|].
    split; [apply int_of_GLuint_small|]. split; [apply int_of_GLuint_large|].
    intros ->. reflexivity.
  - exists (-1), (-1). split; [done|]. split; [done|]. by left.
Qed.

Lemma FindTextureID_is_handle_at_slot_witness :
  exists slot id : Z,
    FindTextureSlot "glass" wood_glass_scene = Ok (slot, wood_glass_scene) /\
    FindTextureID "glass" wood_glass_scene = Ok (id, wood_glass_scene) /\
    ((slot = -1 /\ id = -1) \/
     (0 <= slot /\
      exists e, m_textureIDs wood_glass_scene !! Z.to_nat slot = Some e /\
                id = int_of_GLuint (ID e) /\
                (0 <= ID e < 2 ^ 31 -> id = ID e) /\
                (2 ^ 31 <= ID e < 2 ^ 32 -> id = ID e - 2 ^ 32) /\
                (ID e = 0xFFFFFFFF -> id = -1))).
Proof.
  apply (FindTextureID_is_handle_at_slot "glass" wood_glass_scene).
  unfold within_capacity. cbn. lia.
Defined.

(** ** What a load does besides the registration *)

Lemma CreateGLTexture_true_calls stbi_load filename t s s' :
  CreateGLTexture stbi_load filename t s = Ok (true, s') ->
  exists image,
    stbi_load filename = Some image /\
    (colorChannels image = 3 \/ colorChannels image = 4) /\
    0 <= m_loadedTextures s < Z.of_nat (length (m_textureIDs s)) /\
    s' = mkScene (m_pShaderManager s)
           (<[Z.to_nat (m_loadedTextures s) :=
                mkTexture (gl_next_name (gl s)) t]> (m_textureIDs s))
           (m_loadedTextures s + 1) (m_objectMaterials s)
           (gl_run (upload_calls image (gl_next_name (gl s))) (gl s)).
Proof.
  intros Hrun.
  destruct (stbi_load filename) as [image|] eqn:Hload.
  2: { rewrite CreateGLTexture_unreadable in Hrun; [discriminate|done]. }
  exists image. split; [done|].
  destruct (decide (colorChannels image = 3 \/ colorChannels image = 4)) as [Hc|Hc].
  - split; [done|].
    destruct (decide (0 <= m_loadedTextures s < Z.of_nat (length (m_textureIDs s))))
      as [Hn|Hn].
    + split; [done|].
      rewrite (CreateGLTexture_registers_calls _ _ t s _ Hload Hc Hn) in Hrun.
      by injection Hrun as <-.
    + rewrite (CreateGLTexture_overflow _ _ t s _ Hload Hc Hn) in Hrun. discriminate.
  - rewrite (CreateGLTexture_unsupported_calls _ _ t s _ Hload) in Hrun by tauto.
    discriminate.
Qed.

(** X3. A [CreateGLTexture] call that returns [true] was given a file that
    decodes to 3 or 4 channels.  It keeps every entry registered before and
    adds one, made of the name [glGenTextures] returned and the tag; it
    leaves the materials and the shader manager alone; the new name is alive
    in the context, and the active texture unit is left with texture 0
    bound. *)
Theorem CreateGLTexture_success_effect (stbi_load : string -> option stbi_image)
    (filename t : string) (s s' : SceneManager) :
  within_capacity s ->
  CreateGLTexture stbi_load filename t s = Ok (true, s') ->
  accepted stbi_load filename = true /\
  registry s' = registry s ++ [mkTexture (gl_next_name (gl s)) t] /\
  within_capacity s' /\
  m_objectMaterials s' = m_objectMaterials s /\
  m_pShaderManager s' = m_pShaderManager s /\
  gl_textures (gl s') = {[gl_next_name (gl s)]} ∪ gl_textures (gl s) /\
  gl_active_unit (gl s') = gl_active_unit (gl s) /\
  gl_binding (gl s') = <[gl_active_unit (gl s) := 0]> (gl_binding (gl s)).
Proof.
  intros Hwf Hrun.
  destruct (CreateGLTexture_true_calls _ _ _ _ _ Hrun) as (image & Hload & Hc & Hn & ->).
  destruct (upload_calls_effect image (gl_next_name (gl s)) (gl s))
    as (_ & Htex & Hact & Hbind).
  split.
  { unfold accepted. rewrite Hload.
    destruct Hc as [-> | ->]; reflexivity. }
  split.
  { unfold registry. cbn [m_loadedTextures m_textureIDs].
    replace (Z.to_nat (m_loadedTextures s + 1)) with (S (Z.to_nat (m_loadedTextures s)))
      by lia.
    erewrite take_S_r by (apply list_lookup_insert_eq; lia).
    by rewrite take_insert_ge by lia. }
  split.
  { unfold within_capacity. cbn [m_loadedTextures m_textureIDs].
    rewrite length_insert. lia. }
  by repeat split.
Qed.

Lemma CreateGLTexture_success_effect_witness :
  accepted example_files "a.jpg" = true /\
  registry (mkScene (Some []) (<[0%nat := mkTexture 1 "wood"]> (m_textureIDs new_scene))
              1 [] (gl_run (upload_calls (mkImage 64 64 3) 1) GL_initial))
  = registry new_scene ++ [mkTexture 1 "wood"].
Proof.
  pose proof (CreateGLTexture_success_effect example_files "a.jpg" "wood" new_scene
                (mkScene (Some []) (<[0%nat := mkTexture 1 "wood"]> (m_textureIDs new_scene))
                   1 [] (gl_run (upload_calls (mkImage 64 64 3) 1) GL_initial))) as H.
  destruct H as (Hacc & Hreg & _).
  - unfold within_capacity. cbn. lia.
  - apply (CreateGLTexture_registers_calls example_files "a.jpg" "wood" new_scene
             (mkImage 64 64 3)).
    + reflexivity.
    + left. reflexivity.
    + cbn. lia.
  - split; [exact Hacc|exact Hreg].
Defined.

(** X4. When the file decodes but the channel count is neither 3 nor 4, the
    method has already generated a texture name and bound it: it returns
    [false] with the table unchanged, and leaves that texture alive and bound
    on the active unit (the calls that unbind and the registration are
    skipped).  When the file cannot be read, nothing at all has changed. *)
Theorem CreateGLTexture_rejection_leaves_texture
    (stbi_load : string -> option stbi_image) (filename t : string) (s : SceneManager) :
  (stbi_load filename = None ->
   CreateGLTexture stbi_load filename t s = Ok (false, s)) /\
  (forall image,
     stbi_load filename = Some image ->
     colorChannels image <> 3 -> colorChannels image <> 4 ->
     exists s',
       CreateGLTexture stbi_load filename t s = Ok (false, s') /\
       registry s' = registry s /\
       gl_textures (gl s') = {[gl_next_name (gl s)]} ∪ gl_textures (gl s) /\
       gl_binding (gl s') !! gl_active_unit (gl s') = Some (gl_next_name (gl s)) /\
       gl_calls (gl s') = gl_calls (gl s) ++ rejected_calls (gl_next_name (gl s))).
Proof.
  split; [apply CreateGLTexture_unreadable|].
  intros image Hload H3 H4.
  eexists. split; [by apply (CreateGLTexture_unsupported_calls _ _ t s image)|].
  destruct (rejected_calls_effect (gl_next_name (gl s)) (gl s))
    as (_ & Htex & Hact & Hbind).
  rewrite gl_set_gl. split; [done|]. split; [exact Htex|]. split.
  - by rewrite Hact, Hbind, lookup_insert_eq.
  - apply gl_calls_run.
Qed.

Lemma CreateGLTexture_rejection_leaves_texture_witness :
  exists s',
    CreateGLTexture example_files "gray.png" "fog" wood_glass_scene = Ok (false, s') /\
    registry s' = registry wood_glass_scene /\
    gl_textures (gl s') = {[3]} ∪ gl_textures (gl wood_glass_scene) /\
    gl_binding (gl s') !! gl_active_unit (gl s') = Some 3 /\
    gl_calls (gl s') = gl_calls (gl wood_glass_scene) ++ rejected_calls 3.
Proof.
  apply (CreateGLTexture_rejection_leaves_texture example_files "gray.png" "fog"
           wood_glass_scene) with (image := mkImage 8 8 1).
  - reflexivity.
  - cbn. lia.
  - cbn. lia.
Defined.

(** ** The calls of [BindGLTextures] *)

Lemma BindGLTextures_loop_calls n : forall i s,
  0 <= i ->
  (Z.to_nat i + n <= length (m_textureIDs s))%nat ->
  for_loop n i (fun i =>
    glActiveTexture (GL_TEXTURE0 + i) ;;
    e <- texture_at i ;;
    glBindTexture GL_TEXTURE_2D (ID e)) s
  = Ok (tt, set_gl (gl_run (bind_calls i (take n (drop (Z.to_nat i) (m_textureIDs s))))
                      (gl s)) s).
Proof.
  induction n as [|n IH]; intros i s H0 Hlen.
  - cbn. by destruct s.
  - destruct (lookup_lt_is_Some_2 (m_textureIDs s) (Z.to_nat i)) as [e He]; [lia|].
    cbn [for_loop]. rewrite bind_assoc.
    rewrite (bind_Ok _ _ _ _ _ (glActiveTexture_exec (GL_TEXTURE0 + i) s)).
    rewrite bind_assoc.
    erewrite (bind_Ok (texture_at i)); [|by apply texture_at_Ok].
    match goal with |- bind _ _ ?s1 = _ =>
      rewrite (bind_Ok _ _ _ _ _ (glBindTexture_exec GL_TEXTURE_2D (ID e) s1)) end.
    rewrite set_gl_set_gl, gl_set_gl.
    rewrite IH by (cbn [m_textureIDs set_gl]; lia).
    rewrite set_gl_set_gl, gl_set_gl. cbn [m_textureIDs set_gl].
    rewrite (drop_S _ _ _ He), firstn_cons.
    replace (Z.to_nat (i + 1)) with (S (Z.to_nat i)) by lia.
    reflexivity.
Qed.

Lemma bind_calls_effect entries : forall i g,
  gl_next_name (gl_run (bind_calls i entries) g) = gl_next_name g /\
  gl_textures (gl_run (bind_calls i entries) g) = gl_textures g /\
  (entries <> [] ->
   gl_active_unit (gl_run (bind_calls i entries) g) = i + Z.of_nat (length entries) - 1) /\
  forall j : Z,
    gl_binding (gl_run (bind_calls i entries) g) !! j =
      if decide (i <= j < i + Z.of_nat (length entries))
      then ID <$> (entries !! Z.to_nat (j - i))
      else gl_binding g !! j.
Proof.
  induction entries as [|e entries IH]; intros i g.
  - cbn. repeat split; [done|]. intros j. by rewrite decide_False by lia.
  - change (gl_run (bind_calls i (e :: entries)) g)
      with (gl_run (bind_calls (i + 1) entries)
              (gl_exec (gl_exec g (ActiveTexture (GL_TEXTURE0 + i)))
                       (BindTexture GL_TEXTURE_2D (ID e)))).
    destruct (IH (i + 1) (gl_exec (gl_exec g (ActiveTexture (GL_TEXTURE0 + i)))
                                  (BindTexture GL_TEXTURE_2D (ID e))))
      as (Hnext & Htex & Hact & Hbind).
    split; [by rewrite Hnext|]. split; [by rewrite Htex|]. split.
    + intros _. destruct entries as [|e' entries'].
      * cbn. lia.
      * rewrite Hact by done. cbn [length]. lia.
    + intros j. rewrite Hbind. cbn [gl_exec gl_record gl_binding gl_active_unit length].
      replace (GL_TEXTURE0 + i - GL_TEXTURE0) with i by lia.
      destruct (decide (j = i)) as [->|Hne].
      * rewrite decide_False by lia. rewrite decide_True by lia.
        rewrite lookup_insert_eq. by replace (Z.to_nat (i - i)) with 0%nat by lia.
      * rewrite lookup_insert_ne by done.
        destruct (decide (i + 1 <= j < i + 1 + Z.of_nat (length entries))).
        -- rewrite decide_True by lia.
           by replace (Z.to_nat (j - i)) with (S (Z.to_nat (j - (i + 1)))) by lia.
        -- by rewrite decide_False by lia.
Qed.

(** X5. [BindGLTextures] returns; it calls, for each registered entry in
    index order, [glActiveTexture(GL_TEXTURE0 + i)] and then
    [glBindTexture(GL_TEXTURE_2D, ID)], and makes no other call.  It changes
    nothing of the object and generates no texture name; units outside
    0..m_loadedTextures-1 keep their binding; the last unit bound stays the
    active one.  With no texture loaded it does nothing. *)
Theorem BindGLTextures_calls (s : SceneManager) :
  within_capacity s ->
  exists g,
    BindGLTextures s = Ok (tt, set_gl g s) /\
    gl_calls g = gl_calls (gl s) ++ bind_calls 0 (registry s) /\
    gl_textures g = gl_textures (gl s) /\
    gl_next_name g = gl_next_name (gl s) /\
    (forall j : Z, ~ (0 <= j < m_loadedTextures s) ->
                   gl_binding g !! j = gl_binding (gl s) !! j) /\
    (0 < m_loadedTextures s -> gl_active_unit g = m_loadedTextures s - 1) /\
    (m_loadedTextures s = 0 -> g = gl s).
Proof.
  intros [H0 H1]. unfold BindGLTextures. cbn [bind get].
  rewrite BindGLTextures_loop_calls by lia.
  change (Z.to_nat 0) with 0%nat. rewrite drop_0. fold (registry s).
  eexists. split; [reflexivity|].
  destruct (bind_calls_effect (registry s) 0 (gl s)) as (Hnext & Htex & Hact & Hbind).
  pose proof (registry_length s (conj H0 H1)) as Hlen.
  split; [apply gl_calls_run|]. split; [exact Htex|]. split; [exact Hnext|]. split.
  { intros j Hj. rewrite Hbind, decide_False by lia. done. }
  split.
  { intros Hpos. rewrite Hact; [lia|].
    intros Hnil. rewrite Hnil in Hlen. cbn in Hlen. lia. }
  intros Hzero. unfold registry. by rewrite Hzero.
Qed.

Lemma BindGLTextures_calls_witness :
  exists g,
    BindGLTextures wood_glass_scene = Ok (tt, set_gl g wood_glass_scene) /\
    gl_calls g = gl_calls (gl wood_glass_scene) ++ bind_calls 0 (registry wood_glass_scene) /\
    gl_textures g = gl_textures (gl wood_glass_scene) /\
    gl_next_name g = gl_next_name (gl wood_glass_scene) /\
    (forall j : Z, ~ (0 <= j < m_loadedTextures wood_glass_scene) ->
                   gl_binding g !! j = gl_binding (gl wood_glass_scene) !! j) /\
    (0 < m_loadedTextures wood_glass_scene ->
     gl_active_unit g = m_loadedTextures wood_glass_scene - 1) /\
    (m_loadedTextures wood_glass_scene = 0 -> g = gl wood_glass_scene).
Proof.
  apply (BindGLTextures_calls wood_glass_scene).
  unfold within_capacity. cbn. lia.
Defined.

(** X6. A texture loaded after [BindGLTextures] undoes the last binding:
    [BindGLTextures] leaves unit [m_loadedTextures - 1] active, and a
    successful [CreateGLTexture] binds on the active unit first the new
    texture and then texture 0.  The lower units keep their textures. *)
Theorem CreateGLTexture_after_bind_unbinds_last_unit
    (stbi_load : string -> option stbi_image) (filename t : string)
    (s s1 s2 : SceneManager) :
  within_capacity s ->
  0 < m_loadedTextures s ->
  BindGLTextures s = Ok (tt, s1) ->
  CreateGLTexture stbi_load filename t s1 = Ok (true, s2) ->
  gl_binding (gl s2) !! (m_loadedTextures s - 1) = Some 0 /\
  forall (i : nat) e,
    registry s !! i = Some e -> Z.of_nat i < m_loadedTextures s - 1 ->
    gl_binding (gl s2) !! Z.of_nat i = Some (ID e).
Proof.
  intros Hwf Hpos Hbind Hload.
  pose proof (registry_length s Hwf) as Hlen.
  assert (BindGLTextures s
          = Ok (tt, set_gl (gl_run (bind_calls 0 (registry s)) (gl s)) s)) as Hrun.
  { destruct Hwf. unfold BindGLTextures. cbn [bind get].
    rewrite BindGLTextures_loop_calls by lia.
    change (Z.to_nat 0) with 0%nat. by rewrite drop_0. }
  rewrite Hrun in Hbind. injection Hbind as <-.
  destruct (bind_calls_effect (registry s) 0 (gl s)) as (_ & _ & Hact & Hunits).
  destruct (CreateGLTexture_true_calls _ _ _ _ _ Hload) as (image & _ & _ & _ & ->).
  cbn [gl]. rewrite gl_set_gl.
  destruct (upload_calls_effect image
              (gl_next_name (gl_run (bind_calls 0 (registry s)) (gl s)))
              (gl_run (bind_calls 0 (registry s)) (gl s))) as (_ & _ & _ & ->).
  rewrite Hact.
  2: { intros Hnil. rewrite Hnil in Hlen. cbn in Hlen. lia. }
  replace (0 + Z.of_nat (length (registry s)) - 1) with (m_loadedTextures s - 1) by lia.
  split.
  - by rewrite lookup_insert_eq.
  - intros i e Hi Hlt. rewrite lookup_insert_ne by lia.
    rewrite Hunits, decide_True by lia.
    replace (Z.to_nat (Z.of_nat i - 0)) with i by lia. by rewrite Hi.
Qed.

Lemma CreateGLTexture_after_bind_unbinds_last_unit_witness :
  exists s1 s2,
    BindGLTextures wood_glass_scene = Ok (tt, s1) /\
    CreateGLTexture example_files "a.jpg" "oak" s1 = Ok (true, s2) /\
    gl_binding (gl s2) !! (m_loadedTextures wood_glass_scene - 1) = Some 0 /\
    forall (i : nat) e,
      registry wood_glass_scene !! i = Some e ->
      Z.of_nat i < m_loadedTextures wood_glass_scene - 1 ->
      gl_binding (gl s2) !! Z.of_nat i = Some (ID e).
Proof.
  eexists. eexists.
  split; [vm_compute; reflexivity|].
  split; [vm_compute; reflexivity|].
  eapply (CreateGLTexture_after_bind_unbinds_last_unit example_files "a.jpg" "oak"
            wood_glass_scene).
  - unfold within_capacity. cbn. lia.
  - cbn. lia.
  - vm_compute. reflexivity.
  - vm_compute. reflexivity.
Defined.

(** ** [DestroyGLTextures], in general *)

Lemma DestroyGLTextures_loop_table n : forall i s,
  0 <= i ->
  (Z.to_nat i + n <= length (m_textureIDs s))%nat ->
  exists table,
    for_loop n i (fun i =>
      name <- glGenTextures ;;
      texture_assign i (assign_ID name)) s
    = Ok (tt, set_textureIDs table
                (set_gl (gl_run (GenTextures <$> seqZ (gl_next_name (gl s)) (Z.of_nat n))
                           (gl s)) s)) /\
    length table = length (m_textureIDs s) /\
    forall (j : nat) e, m_textureIDs s !! j = Some e ->
      table !! j
      = Some (if decide (i <= Z.of_nat j < i + Z.of_nat n)
              then mkTexture (gl_next_name (gl s) + (Z.of_nat j - i)) (tag e)
              else e).
Proof.
  induction n as [|n IH]; intros i s H0 Hlen.
  - exists (m_textureIDs s). split; [by destruct s|]. split; [done|].
    intros j e Hj. by rewrite decide_False by lia.
  - destruct (lookup_lt_is_Some_2 (m_textureIDs s) (Z.to_nat i)) as [e He]; [lia|].
    cbn [for_loop]. rewrite bind_assoc.
    rewrite (bind_Ok _ _ _ _ _ (glGenTextures_exec s)).
    erewrite (bind_Ok (texture_assign i _)); [|by apply texture_assign_Ok].
    match goal with |- context [for_loop n (i + 1) _ ?s1] =>
      destruct (IH (i + 1) s1) as (table & Hrun & Hlen' & Htable);
        [lia|cbn [m_textureIDs set_textureIDs set_gl]; rewrite length_insert; lia|] end.
    exists table. rewrite Hrun.
    cbn [m_textureIDs set_textureIDs set_gl gl] in *. rewrite length_insert in Hlen'.
    split; [|split; [exact Hlen'|]].
    + rewrite (seqZ_cons _ (Z.of_nat (S n))) by lia. cbn [fmap list_fmap].
      replace (Z.pred (Z.of_nat (S n))) with (Z.of_nat n) by lia.
      reflexivity.
    + intros j e' Hj.
      destruct (decide (j = Z.to_nat i)) as [->|Hne].
      * rewrite He in Hj. injection Hj as <-.
        rewrite (Htable (Z.to_nat i) (assign_ID (gl_next_name (gl s)) e))
          by (apply list_lookup_insert_eq; lia).
        rewrite decide_False by lia. rewrite decide_True by lia.
        unfold assign_ID. do 2 f_equal. lia.
      * rewrite (Htable j e') by (by rewrite list_lookup_insert_ne).
        destruct (decide (i + 1 <= Z.of_nat j < i + 1 + Z.of_nat n)).
        -- rewrite decide_True by lia. do 2 f_equal. cbn. lia.
        -- by rewrite decide_False by lia.
Qed.

Lemma list_find_tag (t : string) (l : list TEXTURE_INFO) :
  fst <$> list_find (fun e => tag e = t) l = fst <$> list_find (fun t' => t' = t) (tag <$> l).
Proof.
  induction l as [|e l IH]; [done|].
  cbn [list_find fmap list_fmap].
  destruct (decide (tag e = t)) as [Ht|Ht]; [done|].
  destruct (list_find _ l) as [[k e']|], (list_find _ (tag <$> l)) as [[k' t']|];
    cbn in *; congruence.
Qed.

Lemma gl_textures_exec_subseteq g c : gl_textures g ⊆ gl_textures (gl_exec g c).
Proof. destruct c; cbn; set_solver. Qed.

Lemma gl_textures_run_subseteq calls : forall g, gl_textures g ⊆ gl_textures (gl_run calls g).
Proof.
  induction calls as [|c calls IH]; intros g; [done|].
  change (gl_run (c :: calls) g) with (gl_run calls (gl_exec g c)).
  etrans; [apply (gl_textures_exec_subseteq g c)|apply IH].
Qed.

(** X7. [DestroyGLTextures] removes nothing.  In every state it returns,
    having called [glGenTextures] once per registered entry and made no
    other call: every texture that was alive is still alive, the count of
    loaded textures and the tags are as before (so [FindTextureSlot] answers
    as before), and the handle of entry [j] has been overwritten by the
    j-th newly generated name. *)
Theorem DestroyGLTextures_keeps_everything (s : SceneManager) :
  within_capacity s ->
  exists s',
    DestroyGLTextures s = Ok (tt, s') /\
    m_loadedTextures s' = m_loadedTextures s /\
    gl_textures (gl s) ⊆ gl_textures (gl s') /\
    gl_calls (gl s')
      = gl_calls (gl s) ++ (GenTextures <$> seqZ (gl_next_name (gl s)) (m_loadedTextures s)) /\
    (forall (j : nat) e, registry s !! j = Some e ->
       registry s' !! j = Some (mkTexture (gl_next_name (gl s) + Z.of_nat j) (tag e))) /\
    (forall t slot, FindTextureSlot t s = Ok (slot, s) ->
                    FindTextureSlot t s' = Ok (slot, s')).
Proof.
  intros Hwf. pose proof Hwf as [H0 H1].
  unfold DestroyGLTextures. cbn [bind get].
  destruct (DestroyGLTextures_loop_table (Z.to_nat (m_loadedTextures s)) 0 s)
    as (table & -> & Hlen & Htable); [lia|lia|].
  rewrite Z2Nat.id by lia.
  eexists. split; [reflexivity|].
  cbn [m_loadedTextures m_textureIDs gl set_textureIDs set_gl].
  assert (forall (j : nat) e, registry s !! j = Some e ->
            take (Z.to_nat (m_loadedTextures s)) table !! j
            = Some (mkTexture (gl_next_name (gl s) + Z.of_nat j) (tag e))) as Hreg.
  { intros j e Hj. apply registry_lookup in Hj as [Hj Hlt].
    rewrite lookup_take_lt by lia. rewrite (Htable j e Hj), decide_True by lia.
    do 2 f_equal. lia. }
  split; [done|]. split; [apply gl_textures_run_subseteq|].
  split; [apply gl_calls_run|]. split; [exact Hreg|].
  intros t slot Hfind.
  rewrite FindTextureSlot_registry in Hfind by done.
  rewrite FindTextureSlot_registry by (unfold within_capacity; cbn; lia).
  injection Hfind as <-.
  assert (tag <$> take (Z.to_nat (m_loadedTextures s)) table = tag <$> registry s) as Htags.
  { apply list_eq. intros j. rewrite !list_lookup_fmap.
    destruct (registry s !! j) as [e|] eqn:Hj.
    - by rewrite (Hreg j e Hj).
    - apply lookup_ge_None in Hj. rewrite lookup_ge_None_2; [done|].
      rewrite length_take. rewrite registry_length in Hj by done. lia. }
  unfold registry at 1. cbn [m_loadedTextures m_textureIDs set_textureIDs set_gl].
  pose proof (list_find_tag t (take (Z.to_nat (m_loadedTextures s)) table)) as Hl.
  pose proof (list_find_tag t (registry s)) as Hr.
  rewrite Htags, <- Hr in Hl.
  destruct (list_find _ (take _ table)) as [[k e]|],
           (list_find _ (registry s)) as [[k' e']|]; cbn in Hl; try discriminate.
  - injection Hl as ->. reflexivity.
  - reflexivity.
Qed.

Lemma DestroyGLTextures_keeps_everything_witness :
  exists s',
    DestroyGLTextures wood_glass_scene = Ok (tt, s') /\
    m_loadedTextures s' = m_loadedTextures wood_glass_scene /\
    gl_textures (gl wood_glass_scene) ⊆ gl_textures (gl s') /\
    gl_calls (gl s')
      = gl_calls (gl wood_glass_scene)
        ++ (GenTextures <$> seqZ (gl_next_name (gl wood_glass_scene))
                                 (m_loadedTextures wood_glass_scene)) /\
    (forall (j : nat) e, registry wood_glass_scene !! j = Some e ->
       registry s' !! j
       = Some (mkTexture (gl_next_name (gl wood_glass_scene) + Z.of_nat j) (tag e))) /\
    (forall t slot, FindTextureSlot t wood_glass_scene = Ok (slot, wood_glass_scene) ->
                    FindTextureSlot t s' = Ok (slot, s')).
Proof.
  apply (DestroyGLTextures_keeps_everything wood_glass_scene).
  unfold within_capacity. cbn. lia.
Defined.

(** ** Materials *)

Lemma list_find_split {A} (P : A -> Prop) `{!forall x, Decision (P x)} (l : list A) i x :
  list_find P l = Some (i, x) ->
  exists pre post, l = pre ++ x :: post /\ P x /\ Forall (fun y => ~ P y) pre.
Proof.
  intros E. apply list_find_Some in E as (Hi & Hx & Hfirst).
  exists (take i l), (drop (S i) l). split; [by rewrite take_drop_middle|].
  split; [done|]. apply Forall_forall. intros y Hy.
  apply list_elem_of_lookup in Hy as [j Hj].
  apply lookup_take_Some in Hj as [Hj Hlt]. by eapply Hfirst.
Qed.

(** X8. [FindMaterial] always returns and never changes the object.  Its
    result is [false] exactly when no material has been defined: for a list
    that is not empty it is [true] whether or not the tag occurs.  The tag of
    the referent is never written; the three shading members are those of the
    first material with the tag when there is one, and are left as they were
    otherwise. *)
Theorem FindMaterial_result (t : string) (out : OBJECT_MATERIAL) (s : SceneManager) :
  exists (b : bool) (out' : OBJECT_MATERIAL),
    FindMaterial t out s = Ok ((b, out'), s) /\
    (b = false <-> m_objectMaterials s = []) /\
    material_tag out' = material_tag out /\
    (((t ∉ material_tag <$> m_objectMaterials s) /\ out' = out) \/
     exists pre m post,
       m_objectMaterials s = pre ++ m :: post /\
       material_tag m = t /\
       Forall (fun m' => material_tag m' <> t) pre /\
       diffuseColor out' = diffuseColor m /\
       specularColor out' = specularColor m /\
       shininess out' = shininess m).
Proof.
  rewrite FindMaterial_spec.
  destruct (list_find (fun m => material_tag m = t) (m_objectMaterials s))
    as [[i m]|] eqn:E.
  - destruct (list_find_split _ _ _ _ E) as (pre & post & Hsplit & Ht & Hpre).
    destruct (m_objectMaterials s) as [|m0 ms] eqn:Hms.
    { by destruct pre. }
    eexists _, _. split; [reflexivity|]. split; [done|]. split; [done|].
    right. by exists pre, m, post.
  - assert (t ∉ material_tag <$> m_objectMaterials s) as Hnot.
    { apply list_find_None in E. rewrite Forall_forall in E.
      intros Hin. apply list_elem_of_fmap in Hin as (m & -> & Hm). by apply (E m). }
    destruct (m_objectMaterials s) as [|m0 ms] eqn:Hms.
    + eexists _, _. split; [reflexivity|]. split; [done|]. split; [done|]. by left.
    + eexists _, _. split; [reflexivity|]. split; [done|]. split; [done|]. by left.
Qed.

(** X9. With a shader manager and a tag that some material carries,
    [SetShaderMaterial] submits exactly three uniforms, in this order: the
    diffuse colour, the specular colour and the shininess of the first
    material with the tag.  What the uninitialised local held does not show. *)
Theorem SetShaderMaterial_found (t : string) (indeterminate : OBJECT_MATERIAL)
    (s : SceneManager) (sm : ShaderManager) (pre post : list OBJECT_MATERIAL)
    (m : OBJECT_MATERIAL) :
  m_pShaderManager s = Some sm ->
  m_objectMaterials s = pre ++ m :: post ->
  material_tag m = t ->
  Forall (fun m' => material_tag m' <> t) pre ->
  SetShaderMaterial t indeterminate s
  = Ok (tt, set_shader
              (Some (sm ++ [ ("material.diffuseColor", Vec3Value (diffuseColor m));
                             ("material.specularColor", Vec3Value (specularColor m));
                             ("material.shininess", FloatValue (shininess m)) ])) s).
Proof.
  intros Hsm Hms Ht Hpre. unfold SetShaderMaterial. cbn [bind get].
  destruct (Z.ltb_spec 0 (Z.of_nat (length (m_objectMaterials s)))) as [_|Hlen].
  2: { rewrite Hms, length_app in Hlen. cbn in Hlen. lia. }
  rewrite (bind_Ok _ _ _ _ _ (FindMaterial_first t indeterminate s pre m post Hms Ht Hpre)).
  cbn [diffuseColor specularColor shininess].
  rewrite (bind_Ok _ _ _ _ _ (shader_set_Ok _ _ _ _ Hsm)).
  erewrite (bind_Ok (shader_set _ _)) by (by apply shader_set_Ok).
  erewrite shader_set_Ok by reflexivity.
  cbn [set_shader m_pShaderManager m_textureIDs m_loadedTextures m_objectMaterials gl].
  by rewrite <- !app_assoc.
Qed.

Lemma SetShaderMaterial_found_witness :
  SetShaderMaterial "gold" cementMaterial gold_scene
  = Ok (tt, set_shader
              (Some ([] ++ [ ("material.diffuseColor", Vec3Value (diffuseColor goldMaterial));
                             ("material.specularColor", Vec3Value (specularColor goldMaterial));
                             ("material.shininess", FloatValue (shininess goldMaterial)) ]))
              gold_scene).
Proof.
  apply (SetShaderMaterial_found "gold" cementMaterial gold_scene [] [] [] goldMaterial).
  - reflexivity.
  - reflexivity.
  - reflexivity.
  - constructor.
Defined.

(** X10. [SetShaderMaterial] looks at the material list before anything
    else: while no material is defined it returns at once and nothing changes,
    even when the shader manager is NULL.  Once a material is defined, a NULL
    shader manager is dereferenced whatever the tag, since [FindMaterial]
    answers [true] for every tag. *)
Theorem SetShaderMaterial_without_shader (t : string) (indeterminate : OBJECT_MATERIAL)
    (s : SceneManager) :
  (m_objectMaterials s = [] -> SetShaderMaterial t indeterminate s = Ok (tt, s)) /\
  (m_objectMaterials s <> [] -> m_pShaderManager s = None ->
   SetShaderMaterial t indeterminate s = Fault NullDereference).
Proof.
  split.
  - intros Hms. unfold SetShaderMaterial. cbn [bind get]. by rewrite Hms.
  - intros Hms Hsm. unfold SetShaderMaterial. cbn [bind get].
    destruct (Z.ltb_spec 0 (Z.of_nat (length (m_objectMaterials s)))) as [_|Hlen].
    2: { destruct (m_objectMaterials s); [done|cbn in Hlen; lia]. }
    rewrite (bind_Ok _ _ _ _ _ (FindMaterial_spec t indeterminate s)).
    destruct (m_objectMaterials s) as [|m0 ms]; [done|].
    apply bind_Fault. by apply shader_set_null.
Qed.

Lemma SetShaderMaterial_without_shader_witness :
  SetShaderMaterial "gold" cementMaterial null_scene = Ok (tt, null_scene) /\
  SetShaderMaterial "silver" cementMaterial null_gold_scene = Fault NullDereference.
Proof.
  split.
  - apply (SetShaderMaterial_without_shader "gold" cementMaterial null_scene).
    reflexivity.
  - apply (SetShaderMaterial_without_shader "silver" cementMaterial null_gold_scene).
    + discriminate.
    + reflexivity.
Defined.

(** ** Colour, texture and the sticky uniforms *)

Lemma last_write name (b : ShaderManager) : forall acc : option uniform_value,
  foldl (fun acc c => if String.eqb c.1 name then Some c.2 else acc) acc b
  = match current_uniform name b with
    | Some v => Some v
    | None => acc
    end.
Proof.
  unfold current_uniform. induction b as [|c b IH]; intros acc; [done|].
  cbn [foldl]. rewrite (IH (if String.eqb c.1 name then Some c.2 else acc)).
  rewrite (IH (if String.eqb c.1 name then Some c.2 else None)).
  destruct (foldl _ None b); [done|]. by destruct (String.eqb c.1 name).
Qed.

Lemma current_uniform_app name (a b : ShaderManager) :
  current_uniform name (a ++ b)
  = match current_uniform name b with
    | Some v => Some v
    | None => current_uniform name a
    end.
Proof. unfold current_uniform at 1. rewrite foldl_app. apply last_write. Qed.

Lemma FindTextureSlot_loop_state t n : forall index s slot s',
  FindTextureSlot_loop n index t s = Ok (slot, s') -> s' = s.
Proof.
  induction n as [|n IH]; intros index s slot s' Hrun.
  - by injection Hrun as _ <-.
  - cbn [FindTextureSlot_loop] in Hrun.
    apply bind_inv in Hrun as (e & s1 & Hat & Hrun).
    apply texture_at_inv in Hat as (-> & _).
    destruct (string_compare (tag e) t =? 0).
    + by injection Hrun as _ <-.
    + by apply IH in Hrun.
Qed.

Lemma FindTextureSlot_state t s slot s' :
  FindTextureSlot t s = Ok (slot, s') -> s' = s.
Proof. unfold FindTextureSlot. cbn [bind get]. apply FindTextureSlot_loop_state. Qed.

Lemma FindTextureSlot_loop_set_shader t v n : forall index s slot,
  FindTextureSlot_loop n index t s = Ok (slot, s) ->
  FindTextureSlot_loop n index t (set_shader v s) = Ok (slot, set_shader v s).
Proof.
  induction n as [|n IH]; intros index s slot Hrun.
  - by injection Hrun as <-.
  - cbn [FindTextureSlot_loop] in *.
    apply bind_inv in Hrun as (e & s1 & Hat & Hrun).
    apply texture_at_inv in Hat as (-> & Hi & He).
    erewrite (bind_Ok (texture_at index)) by (by apply texture_at_Ok).
    destruct (string_compare (tag e) t =? 0).
    + by injection Hrun as <-.
    + by apply IH.
Qed.

Lemma SetShaderTexture_bound t s sm slot :
  m_pShaderManager s = Some sm ->
  FindTextureSlot t s = Ok (slot, s) ->
  SetShaderTexture t s
  = Ok (tt, set_shader (Some (sm ++ [ (g_UseTextureName, IntValue 1);
                                      (g_TextureValueName, Sampler2DValue slot) ])) s).
Proof.
  intros Hsm Hfind. unfold SetShaderTexture.
  rewrite (when_shader_bound _ sm) by done.
  rewrite (bind_Ok _ _ _ _ _ (shader_set_Ok _ _ _ _ Hsm)).
  erewrite (bind_Ok (FindTextureSlot t)).
  2: { unfold FindTextureSlot in *. cbn [bind get] in *.
       by apply FindTextureSlot_loop_set_shader. }
  erewrite shader_set_Ok by reflexivity.
  cbn [set_shader m_pShaderManager m_textureIDs m_loadedTextures m_objectMaterials gl].
  by rewrite <- app_assoc.
Qed.

Lemma SetShaderColor_bound r g b a s sm :
  m_pShaderManager s = Some sm ->
  SetShaderColor r g b a s
  = Ok (tt, set_shader (Some (sm ++ [ (g_UseTextureName, IntValue 0);
                                      (g_ColorValueName, Vec4Value (glm.Vec4 r g b a)) ])) s).
Proof.
  intros Hsm. unfold SetShaderColor.
  rewrite (when_shader_bound _ sm) by done.
  rewrite (bind_Ok _ _ _ _ _ (shader_set_Ok _ _ _ _ Hsm)).
  erewrite shader_set_Ok by reflexivity.
  cbn [set_shader m_pShaderManager m_textureIDs m_loadedTextures m_objectMaterials gl].
  by rewrite <- app_assoc.
Qed.

(** X11. [bUseTexture] is sticky, and whichever of [SetShaderTexture] and
    [SetShaderColor] ran last decides it.  After a texture and then a colour,
    the program has [bUseTexture] = 0 and the colour, and [objectTexture]
    still names the slot of the texture; after a colour and then a texture it
    has [bUseTexture] = 1 and the slot, and [objectColor] still holds the
    colour. *)
Theorem last_of_texture_and_colour_wins (t : string) (r g b a : R)
    (s : SceneManager) (sm : ShaderManager) :
  m_pShaderManager s = Some sm ->
  within_capacity s ->
  exists slot : Z,
    FindTextureSlot t s = Ok (slot, s) /\
    (exists s1 s2 sm2,
       SetShaderTexture t s = Ok (tt, s1) /\
       SetShaderColor r g b a s1 = Ok (tt, s2) /\
       m_pShaderManager s2 = Some sm2 /\
       current_uniform g_UseTextureName sm2 = Some (IntValue 0) /\
       current_uniform g_ColorValueName sm2 = Some (Vec4Value (glm.Vec4 r g b a)) /\
       current_uniform g_TextureValueName sm2 = Some (Sampler2DValue slot)) /\
    (exists s1 s2 sm2,
       SetShaderColor r g b a s = Ok (tt, s1) /\
       SetShaderTexture t s1 = Ok (tt, s2) /\
       m_pShaderManager s2 = Some sm2 /\
       current_uniform g_UseTextureName sm2 = Some (IntValue 1) /\
       current_uniform g_ColorValueName sm2 = Some (Vec4Value (glm.Vec4 r g b a)) /\
       current_uniform g_TextureValueName sm2 = Some (Sampler2DValue slot)).
Proof.
  intros Hsm Hwf.
  pose proof (FindTextureSlot_registry t s Hwf) as Hfind.
  eexists. split; [exact Hfind|]. split.
  - eexists _, _, _.
    split; [by apply (SetShaderTexture_bound t s sm)|].
    split; [by apply SetShaderColor_bound|].
    split; [reflexivity|].
    rewrite <- app_assoc. by rewrite !current_uniform_app.
  - eexists _, _, _.
    split; [by apply SetShaderColor_bound|].
    split.
    { apply SetShaderTexture_bound; [reflexivity|].
      rewrite (FindTextureSlot_registry t (set_shader _ s)) by exact Hwf. reflexivity. }
    split; [reflexivity|].
    rewrite <- app_assoc. by rewrite !current_uniform_app.
Qed.

Lemma last_of_texture_and_colour_wins_witness :
  exists slot : Z,
    FindTextureSlot "glass" wood_glass_scene = Ok (slot, wood_glass_scene) /\
    (exists s1 s2 sm2,
       SetShaderTexture "glass" wood_glass_scene = Ok (tt, s1) /\
       SetShaderColor 1 0 0 1 s1 = Ok (tt, s2) /\
       m_pShaderManager s2 = Some sm2 /\
       current_uniform g_UseTextureName sm2 = Some (IntValue 0) /\
       current_uniform g_ColorValueName sm2 = Some (Vec4Value (glm.Vec4 1 0 0 1)) /\
       current_uniform g_TextureValueName sm2 = Some (Sampler2DValue slot)) /\
    (exists s1 s2 sm2,
       SetShaderColor 1 0 0 1 wood_glass_scene = Ok (tt, s1) /\
       SetShaderTexture "glass" s1 = Ok (tt, s2) /\
       m_pShaderManager s2 = Some sm2 /\
       current_uniform g_UseTextureName sm2 = Some (IntValue 1) /\
       current_uniform g_ColorValueName sm2 = Some (Vec4Value (glm.Vec4 1 0 0 1)) /\
       current_uniform g_TextureValueName sm2 = Some (Sampler2DValue slot)).
Proof.
  apply (last_of_texture_and_colour_wins "glass" 1 0 0 1 wood_glass_scene []).
  - reflexivity.
  - unfold within_capacity. cbn. lia.
Defined.

Lemma set_shader_set_shader v v' s : set_shader v (set_shader v' s) = set_shader v s.
Proof. reflexivity. Qed.

Lemma same_scene_set_shader v s : same_scene s (set_shader v s).
Proof. by repeat split. Qed.

Lemma submitted_set_shader s sm calls :
  m_pShaderManager s = Some sm -> submitted s (set_shader (Some (sm ++ calls)) s) calls.
Proof. intros Hsm. unfold submitted. by rewrite Hsm. Qed.

Lemma submitted_nothing s : submitted s s [].
Proof. unfold submitted. destruct (m_pShaderManager s); [by rewrite app_nil_r|done]. Qed.

Lemma same_scene_refl s : same_scene s s.
Proof. by repeat split. Qed.

Lemma when_shader_frame body s s' (n : nat) :
  (forall sm, m_pShaderManager s = Some sm ->
     exists calls, body s = Ok (tt, set_shader (Some (sm ++ calls)) s) /\ length calls = n) ->
  when_shader body s = Ok (tt, s') ->
  same_scene s s' /\
  exists calls, submitted s s' calls /\ (length calls = 0 \/ length calls = n)%nat.
Proof.
  intros Hbody Hrun. destruct (m_pShaderManager s) as [sm|] eqn:Hsm.
  - rewrite (when_shader_bound _ sm) in Hrun by done.
    destruct (Hbody sm eq_refl) as (calls & Hcalls & Hlen).
    rewrite Hcalls in Hrun. injection Hrun as <-.
    split; [apply same_scene_set_shader|].
    exists calls. split; [by apply submitted_set_shader|]. by right.
  - rewrite when_shader_null in Hrun by done. injection Hrun as <-.
    split; [apply same_scene_refl|]. exists []. split; [apply submitted_nothing|]. by left.
Qed.

Lemma SetTransformations_frame scaleXYZ rx ry rz positionXYZ s s' :
  SetTransformations scaleXYZ rx ry rz positionXYZ s = Ok (tt, s') ->
  same_scene s s' /\
  exists calls, submitted s s' calls /\ (length calls = 0 \/ length calls = 1)%nat.
Proof.
  apply when_shader_frame. intros sm Hsm.
  eexists. split; [by apply shader_set_Ok|done].
Qed.

Lemma SetTextureUVScale_frame u v s s' :
  SetTextureUVScale u v s = Ok (tt, s') ->
  same_scene s s' /\
  exists calls, submitted s s' calls /\ (length calls = 0 \/ length calls = 1)%nat.
Proof.
  apply when_shader_frame. intros sm Hsm.
  eexists. split; [by apply shader_set_Ok|done].
Qed.

Lemma SetShaderColor_frame r g b a s s' :
  SetShaderColor r g b a s = Ok (tt, s') ->
  same_scene s s' /\
  exists calls, submitted s s' calls /\ (length calls = 0 \/ length calls = 2)%nat.
Proof.
  intros Hrun. destruct (m_pShaderManager s) as [sm|] eqn:Hsm.
  - rewrite (SetShaderColor_bound _ _ _ _ _ sm) in Hrun by done.
    injection Hrun as <-. split; [apply same_scene_set_shader|].
    eexists. split; [by apply submitted_set_shader|]. by right.
  - rewrite SetShaderColor_null in Hrun by done. injection Hrun as <-.
    split; [apply same_scene_refl|]. exists []. split; [apply submitted_nothing|]. by left.
Qed.

Lemma SetShaderTexture_frame t s s' :
  SetShaderTexture t s = Ok (tt, s') ->
  same_scene s s' /\
  exists calls, submitted s s' calls /\ (length calls = 0 \/ length calls = 2)%nat.
Proof.
  intros Hrun. destruct (m_pShaderManager s) as [sm|] eqn:Hsm.
  - pose proof Hrun as Hrun0. unfold SetShaderTexture in Hrun.
    rewrite (when_shader_bound _ sm) in Hrun by done.
    rewrite (bind_Ok _ _ _ _ _ (shader_set_Ok _ _ _ _ Hsm)) in Hrun.
    apply bind_inv in Hrun as (slot & s1 & Hfind & _).
    pose proof (FindTextureSlot_state _ _ _ _ Hfind) as ->.
    assert (FindTextureSlot t s = Ok (slot, s)) as Hfind0.
    { unfold FindTextureSlot in *. cbn [bind get] in *.
      cbn [m_loadedTextures set_shader] in Hfind.
      apply (FindTextureSlot_loop_set_shader t (m_pShaderManager s)) in Hfind.
      cbn [set_shader m_pShaderManager m_textureIDs m_loadedTextures
           m_objectMaterials gl] in Hfind.
      by destruct s. }
    rewrite (SetShaderTexture_bound t s sm slot Hsm Hfind0) in Hrun0.
    injection Hrun0 as <-. split; [apply same_scene_set_shader|].
    eexists. split; [by apply submitted_set_shader|]. by right.
  - rewrite SetShaderTexture_null in Hrun by done. injection Hrun as <-.
    split; [apply same_scene_refl|]. exists []. split; [apply submitted_nothing|]. by left.
Qed.

Lemma SetShaderMaterial_frame t indeterminate s s' :
  SetShaderMaterial t indeterminate s = Ok (tt, s') ->
  same_scene s s' /\
  exists calls, submitted s s' calls /\ (length calls = 0 \/ length calls = 3)%nat.
Proof.
  intros Hrun. unfold SetShaderMaterial in Hrun. cbn [bind get] in Hrun.
  destruct (0 <? Z.of_nat (length (m_objectMaterials s))).
  2: { injection Hrun as <-. split; [apply same_scene_refl|].
       exists []. split; [apply submitted_nothing|]. by left. }
  pose proof (FindMaterial_spec t indeterminate s) as Hfind.
  destruct (m_objectMaterials s) as [|m0 ms].
  { rewrite (bind_Ok _ _ _ _ _ Hfind) in Hrun.
    injection Hrun as <-. split; [apply same_scene_refl|].
    exists []. split; [apply submitted_nothing|]. by left. }
  match type of Hfind with _ = Ok ((true, ?m), _) => set (out' := m) in Hfind end.
  clearbody out'. rewrite (bind_Ok _ _ _ _ _ Hfind) in Hrun.
  destruct (m_pShaderManager s) as [sm|] eqn:Hsm.
  - rewrite (bind_Ok _ _ _ _ _ (shader_set_Ok _ _ _ _ Hsm)) in Hrun.
    erewrite (bind_Ok (shader_set _ _)) in Hrun by (by apply shader_set_Ok).
    erewrite shader_set_Ok in Hrun by reflexivity.
    injection Hrun as <-.
    rewrite !set_shader_set_shader, <- !app_assoc.
    split; [apply same_scene_set_shader|].
    eexists. split; [by apply submitted_set_shader|]. by right.
  - rewrite (bind_Fault _ _ _ NullDereference) in Hrun; [discriminate|].
    by apply shader_set_null.
Qed.

(** X12. The five operations that talk to the shader never touch the texture
    table, the count, the material list or the OpenGL context: when one of
    them returns, the only difference is what the shader manager has
    received, which is one uniform for [SetTransformations] and
    [SetTextureUVScale], two for [SetShaderColor] and [SetShaderTexture],
    three or none for [SetShaderMaterial], and none at all when the shader
    manager is NULL. *)
Theorem submissions_change_only_the_shader_manager (s s' : SceneManager) :
  (forall scaleXYZ rx ry rz positionXYZ,
     SetTransformations scaleXYZ rx ry rz positionXYZ s = Ok (tt, s') ->
     same_scene s s' /\ exists calls, submitted s s' calls /\
                                      (length calls = 0 \/ length calls = 1)%nat) /\
  (forall u v,
     SetTextureUVScale u v s = Ok (tt, s') ->
     same_scene s s' /\ exists calls, submitted s s' calls /\
                                      (length calls = 0 \/ length calls = 1)%nat) /\
  (forall r g b a,
     SetShaderColor r g b a s = Ok (tt, s') ->
     same_scene s s' /\ exists calls, submitted s s' calls /\
                                      (length calls = 0 \/ length calls = 2)%nat) /\
  (forall t,
     SetShaderTexture t s = Ok (tt, s') ->
     same_scene s s' /\ exists calls, submitted s s' calls /\
                                      (length calls = 0 \/ length calls = 2)%nat) /\
  (forall t indeterminate,
     SetShaderMaterial t indeterminate s = Ok (tt, s') ->
     same_scene s s' /\ exists calls, submitted s s' calls /\
                                      (length calls = 0 \/ length calls = 3)%nat).
Proof.
  split; [|split; [|split; [|split]]].
  - intros. by eapply SetTransformations_frame.
  - intros. by eapply SetTextureUVScale_frame.
  - intros. by eapply SetShaderColor_frame.
  - intros. by eapply SetShaderTexture_frame.
  - intros. by eapply SetShaderMaterial_frame.
Qed.

Lemma submissions_change_only_the_shader_manager_witness :
  same_scene gold_scene
    (set_shader (Some [(g_ModelName,
                        Mat4Value (modelView (glm.Vec3 1 1 1) 0 0 0 (glm.Vec3 0 0 0)))])
       gold_scene) /\
  same_scene gold_scene
    (set_shader (Some [("UVscale", Vec2Value (glm.Vec2 3 2))]) gold_scene) /\
  same_scene gold_scene
    (set_shader (Some [(g_UseTextureName, IntValue 0);
                       (g_ColorValueName, Vec4Value (glm.Vec4 1 1 1 1))]) gold_scene) /\
  same_scene gold_scene
    (set_shader (Some [(g_UseTextureName, IntValue 1);
                       (g_TextureValueName, Sampler2DValue (-1))]) gold_scene) /\
  same_scene gold_scene
    (set_shader (Some [("material.diffuseColor", Vec3Value (diffuseColor goldMaterial));
                       ("material.specularColor", Vec3Value (specularColor goldMaterial));
                       ("material.shininess", FloatValue (shininess goldMaterial))])
       gold_scene).
Proof.
  split; [|split; [|split; [|split]]].
  - eapply (proj1 (submissions_change_only_the_shader_manager gold_scene _)
              (glm.Vec3 1 1 1) 0%R 0%R 0%R (glm.Vec3 0 0 0)).
    reflexivity.
  - eapply (proj1 (proj2 (submissions_change_only_the_shader_manager gold_scene _))
              3%R 2%R).
    reflexivity.
  - eapply (proj1 (proj2 (proj2 (submissions_change_only_the_shader_manager gold_scene _)))
              1%R 1%R 1%R 1%R).
    reflexivity.
  - eapply (proj1 (proj2 (proj2 (proj2
              (submissions_change_only_the_shader_manager gold_scene _)))) "onyx").
    reflexivity.
  - eapply (proj2 (proj2 (proj2 (proj2
              (submissions_change_only_the_shader_manager gold_scene _))))
              "gold" cementMaterial).
    reflexivity.
Defined.

(** ** The material palette *)

Lemma DefineObjectMaterials_run s :
  DefineObjectMaterials s
  = Ok (tt, set_objectMaterials (m_objectMaterials s ++ defined_materials) s).
Proof.
  unfold DefineObjectMaterials, push_back. rewrite !bind_modify. unfold modify.
  cbn [m_objectMaterials set_objectMaterials m_pShaderManager m_textureIDs
       m_loadedTextures gl].
  by rewrite <- !app_assoc.
Qed.

Lemma defined_tags :
  material_tag <$> defined_materials
  = ["gold"; "cement"; "wood"; "tile"; "glass"; "clay"; "plasticClear"].
Proof. reflexivity. Qed.

Lemma list_find_app_repeat {A} (P : A -> Prop) `{!forall x, Decision (P x)} (l d : list A) :
  fst <$> list_find P ((l ++ d) ++ d) = fst <$> list_find P (l ++ d) /\
  snd <$> list_find P ((l ++ d) ++ d) = snd <$> list_find P (l ++ d).
Proof.
  destruct (list_find P (l ++ d)) as [[i x]|] eqn:E.
  - by rewrite (list_find_app_l _ _ _ _ _ E).
  - rewrite list_find_app_r by done.
    assert (list_find P d = None) as ->; [|done].
    apply list_find_None. apply list_find_None in E.
    by apply Forall_app in E as [_ ?].
Qed.

Lemma FindMaterial_nonempty t out s :
  m_objectMaterials s <> [] ->
  FindMaterial t out s
  = Ok ((true,
         match list_find (fun m => material_tag m = t) (m_objectMaterials s) with
         | Some (_, m) =>
             mkMaterial (diffuseColor m) (specularColor m) (shininess m)
                        (material_tag out)
         | None => out
         end), s).
Proof.
  intros Hne. rewrite FindMaterial_spec.
  by destruct (m_objectMaterials s).
Qed.

(** X13. [DefineObjectMaterials] appends its seven materials to whatever the
    list holds, with no test for tags already present.  Running it a second
    time doubles the entries and changes no lookup: [FindMaterial] returns
    the same result for every tag after the second run as after the first. *)
Theorem DefineObjectMaterials_again_changes_no_lookup (s : SceneManager) :
  exists s1 s2,
    DefineObjectMaterials s = Ok (tt, s1) /\
    DefineObjectMaterials s1 = Ok (tt, s2) /\
    m_objectMaterials s1 = m_objectMaterials s ++ defined_materials /\
    m_objectMaterials s2 = (m_objectMaterials s ++ defined_materials) ++ defined_materials /\
    forall t out, exists r,
      FindMaterial t out s1 = Ok (r, s1) /\ FindMaterial t out s2 = Ok (r, s2).
Proof.
  eexists _, _. split; [apply DefineObjectMaterials_run|].
  split; [apply DefineObjectMaterials_run|].
  split; [reflexivity|]. split; [reflexivity|].
  intros t out.
  rewrite !FindMaterial_nonempty
    by (cbn [m_objectMaterials set_objectMaterials];
        destruct (m_objectMaterials s); discriminate).
  cbn [m_objectMaterials set_objectMaterials].
  destruct (list_find_app_repeat (fun m => material_tag m = t) (m_objectMaterials s)
              defined_materials) as [_ Hsnd].
  eexists. split; [reflexivity|].
  destruct (list_find _ ((m_objectMaterials s ++ defined_materials) ++ defined_materials))
    as [[i m]|],
    (list_find _ (m_objectMaterials s ++ defined_materials)) as [[i' m']|];
    cbn in Hsnd; try discriminate.
  - by injection Hsnd as ->.
  - reflexivity.
Qed.

(** X14. The seven tags are pairwise distinct, so on an object without
    materials every material of the palette can be looked up:
    after [DefineObjectMaterials], [FindMaterial] on the tag of any of them
    copies that material's colours and shininess. *)
Theorem DefineObjectMaterials_all_reachable (s : SceneManager) :
  m_objectMaterials s = [] ->
  NoDup (material_tag <$> defined_materials) /\
  exists s1,
    DefineObjectMaterials s = Ok (tt, s1) /\
    forall m out,
      m ∈ defined_materials ->
      FindMaterial (material_tag m) out s1
      = Ok ((true, mkMaterial (diffuseColor m) (specularColor m) (shininess m)
                              (material_tag out)), s1).
Proof.
  intros Hempty.
  assert (NoDup (material_tag <$> defined_materials)) as Hnd.
  { rewrite defined_tags. apply (bool_decide_unpack _). vm_compute. exact I. }
  split; [exact Hnd|].
  eexists. split; [apply DefineObjectMaterials_run|].
  intros m out Hm. rewrite Hempty. cbn [app].
  apply list_elem_of_lookup in Hm as [i Hi].
  apply (FindMaterial_first _ _ _ (take i defined_materials) m
           (drop (S i) defined_materials)).
  - cbn [m_objectMaterials set_objectMaterials]. by rewrite take_drop_middle.
  - reflexivity.
  - apply Forall_forall. intros m' Hm' Heq.
    apply list_elem_of_lookup in Hm' as [j Hj].
    apply lookup_take_Some in Hj as [Hj Hlt].
    assert (j = i); [|lia].
    eapply NoDup_lookup; [exact Hnd| |].
    + by rewrite list_lookup_fmap, Hj.
    + by rewrite list_lookup_fmap, Hi, Heq.
Qed.

Lemma DefineObjectMaterials_all_reachable_witness :
  NoDup (material_tag <$> defined_materials) /\
  exists s1,
    DefineObjectMaterials new_scene = Ok (tt, s1) /\
    forall m out,
      m ∈ defined_materials ->
      FindMaterial (material_tag m) out s1
      = Ok ((true, mkMaterial (diffuseColor m) (specularColor m) (shininess m)
                              (material_tag out)), s1).
Proof. apply (DefineObjectMaterials_all_reachable new_scene). reflexivity. Defined.

(** ** [LoadSceneTextures] *)

Lemma loaded_trans stbi_load s0 es s1 es' s2 :
  loaded stbi_load s0 es s1 ->
  loaded stbi_load s1 es' s2 ->
  loaded stbi_load s0 (es ++ es') s2.
Proof.
  intros H01 H12. induction H12 as [s|s1 es' s2 f t s3 h _ IH Hcall Hh|s1 es' s2 f t s3 _ IH Hcall].
  - by rewrite app_nil_r.
  - rewrite app_assoc. eapply loaded_success; [by apply IH|exact Hcall|exact Hh].
  - eapply loaded_failure; [by apply IH|exact Hcall].
Qed.

Lemma accepted_true stbi_load filename :
  accepted stbi_load filename = true ->
  exists image, stbi_load filename = Some image /\
                (colorChannels image = 3 \/ colorChannels image = 4).
Proof.
  unfold accepted. destruct (stbi_load filename) as [image|]; [|discriminate].
  intros H. exists image. split; [done|].
  apply orb_true_iff in H as [H|H]; apply Z.eqb_eq in H; auto.
Qed.

Lemma accepted_false stbi_load filename :
  accepted stbi_load filename <> true ->
  stbi_load filename = None \/
  exists image, stbi_load filename = Some image /\
                colorChannels image <> 3 /\ colorChannels image <> 4.
Proof.
  unfold accepted. destruct (stbi_load filename) as [image|]; [|auto].
  intros H. right. exists image. split; [done|].
  destruct (Z.eqb_spec (colorChannels image) 3), (Z.eqb_spec (colorChannels image) 4);
    cbn in H; try done.
Qed.

(** A run of calls for which the table has room: every call returns, and
    the accepted files are the ones registered, in call order. *)
Lemma load_textures_run stbi_load calls : forall s,
  within_capacity s ->
  m_loadedTextures s + Z.of_nat (length calls) <= Z.of_nat (length (m_textureIDs s)) ->
  exists s' entries,
    load_textures stbi_load calls s
    = Ok ((fun c => accepted stbi_load c.1) <$> calls, s') /\
    loaded stbi_load s entries s' /\
    tag <$> entries = snd <$> filter (fun c => accepted stbi_load c.1 = true) calls.
Proof.
  induction calls as [|[filename t] calls IH]; intros s Hwf Hroom.
  - exists s, []. split; [done|]. split; [constructor|done].
  - cbn [length] in Hroom. cbn [load_textures fmap list_fmap].
    destruct (decide (accepted stbi_load filename = true)) as [Hacc|Hacc].
    + destruct (accepted_true _ _ Hacc) as (image & Hload & Hc).
      destruct Hwf as [H0 H1].
      rewrite (bind_Ok _ _ _ _ _
                 (CreateGLTexture_registers_calls _ _ t s _ Hload Hc ltac:(lia))).
      match goal with |- context [bind (load_textures _ _) _ ?s1] =>
        destruct (IH s1) as (s' & entries & Hrun & Hloaded & Htags) end.
      { unfold within_capacity. cbn [m_loadedTextures m_textureIDs].
        rewrite length_insert. lia. }
      { cbn [m_loadedTextures m_textureIDs]. rewrite length_insert. lia. }
      rewrite (bind_Ok _ _ _ _ _ Hrun).
      exists s', (mkTexture (gl_next_name (gl s)) t :: entries).
      cbn [fst]. rewrite Hacc. split; [done|]. split.
      * apply (loaded_trans _ _ [mkTexture (gl_next_name (gl s)) t] _ _ _
                 ltac:(eapply (loaded_success _ _ [] _ filename t);
                       [constructor
                       |apply (CreateGLTexture_registers_calls _ _ t s _ Hload Hc); lia
                       |cbn [m_textureIDs]; by rewrite list_lookup_insert_eq by lia])
                 Hloaded).
      * rewrite filter_cons_True by done. cbn. by rewrite Htags.
    + assert (exists g, CreateGLTexture stbi_load filename t s = Ok (false, set_gl g s))
        as [g Hcall].
      { destruct (accepted_false _ _ Hacc) as [Hnone|(image & Hload & H3 & H4)].
        - exists (gl s). rewrite CreateGLTexture_unreadable by done. by destruct s.
        - eexists. by apply (CreateGLTexture_unsupported_calls _ _ t s image). }
      rewrite (bind_Ok _ _ _ _ _ Hcall).
      destruct (IH (set_gl g s)) as (s' & entries & Hrun & Hloaded & Htags);
        [exact Hwf|cbn [m_loadedTextures m_textureIDs set_gl]; lia|].
      rewrite (bind_Ok _ _ _ _ _ Hrun).
      exists s', entries. cbn [fst].
      apply not_true_is_false in Hacc. rewrite Hacc. split; [done|]. split.
      * apply (loaded_trans _ _ [] _ _ _
                 ltac:(eapply (loaded_failure _ _ [] _ filename t);
                       [constructor|exact Hcall])
                 Hloaded).
      * rewrite filter_cons_False by (cbn; congruence). exact Htags.
Qed.

Lemma scene_texture_tags :
  snd <$> scene_textures
  = ["onyx"; "ice"; "wood"; "ground"; "concrete"; "metal"; "wood2"; "meat"].
Proof. reflexivity. Qed.

(** X15. [LoadSceneTextures] on an object with no texture loaded and a table
    of at least 8 slots returns, whatever the loader does with the eight
    files.  The registered tags are those of the accepted files, in the order
    of the calls; each registered tag is found at its own index, and that
    texture unit is bound to its handle.  A file that fails moves the later
    textures one slot down; when all eight are accepted the slots are 0 to 7
    in the order of the calls. *)
Theorem LoadSceneTextures_slots (stbi_load : string -> option stbi_image)
    (s : SceneManager) :
  m_loadedTextures s = 0 ->
  (8 <= length (m_textureIDs s))%nat ->
  exists s',
    LoadSceneTextures stbi_load s = Ok (tt, s') /\
    tag <$> registry s'
      = snd <$> filter (fun c => accepted stbi_load c.1 = true) scene_textures /\
    (forall (i : nat) e,
       registry s' !! i = Some e ->
       FindTextureSlot (tag e) s' = Ok (Z.of_nat i, s') /\
       gl_binding (gl s') !! Z.of_nat i = Some (ID e)) /\
    (Forall (fun c => accepted stbi_load c.1 = true) scene_textures ->
     forall (i : nat) c,
       scene_textures !! i = Some c -> FindTextureSlot c.2 s' = Ok (Z.of_nat i, s')).
Proof.
  intros Hzero Hcap.
  assert (within_capacity s) as Hwf0 by (unfold within_capacity; lia).
  destruct (load_textures_run stbi_load scene_textures s Hwf0)
    as (s1 & entries & Hrun & Hloaded & Htags); [cbn; lia|].
  destruct (loaded_registry _ _ _ _ Hloaded Hwf0) as (Hwf & Hreg & _ & _).
  assert (registry s = []) as Hempty by (unfold registry; by rewrite Hzero).
  rewrite Hempty in Hreg. cbn [app] in Hreg.
  destruct (BindGLTextures_spec s1 Hwf) as (g & Hbind & _ & Hunits).
  exists (set_gl g s1). unfold LoadSceneTextures.
  rewrite (bind_Ok _ _ _ _ _ Hrun). split; [exact Hbind|].
  assert (registry (set_gl g s1) = registry s1) as Hsame by reflexivity.
  rewrite Hsame, gl_set_gl, Hreg.
  assert (NoDup (tag <$> entries)) as Hnd.
  { rewrite Htags. eapply sublist_NoDup.
    2: { apply fmap_sublist. apply sublist_filter. }
    rewrite scene_texture_tags. apply (bool_decide_unpack _). vm_compute. exact I. }
  assert (forall (i : nat) e, entries !! i = Some e ->
            FindTextureSlot (tag e) (set_gl g s1) = Ok (Z.of_nat i, set_gl g s1)) as Hslot.
  { intros i e Hi.
    apply (FindTextureSlot_present _ _ i e); [exact Hwf| | |done].
    - by rewrite Hsame, Hreg.
    - by rewrite Hsame, Hreg. }
  split; [exact Htags|]. split.
  - intros i e Hi. split; [by apply Hslot|]. apply Hunits. by rewrite Hreg.
  - intros Hall i c Hi.
    assert (filter (fun c => accepted stbi_load c.1 = true) scene_textures = scene_textures)
      as Hfilter.
    { clear -Hall. induction Hall as [|c l Hc _ IH]; [done|].
      by rewrite filter_cons_True, IH by done. }
    rewrite Hfilter in Htags.
    assert (exists e, entries !! i = Some e /\ tag e = c.2) as (e & He & <-).
    { assert ((tag <$> entries) !! i = Some c.2) as Hl
        by (by rewrite Htags, list_lookup_fmap, Hi).
      rewrite list_lookup_fmap in Hl.
      destruct (entries !! i) as [e|]; [|discriminate].
      exists e. split; [done|]. by injection Hl. }
    by apply Hslot.
Qed.

Lemma LoadSceneTextures_slots_witness :
  exists s',
    LoadSceneTextures any_rgb new_scene = Ok (tt, s') /\
    tag <$> registry s'
      = snd <$> filter (fun c => accepted any_rgb c.1 = true) scene_textures /\
    (forall (i : nat) e,
       registry s' !! i = Some e ->
       FindTextureSlot (tag e) s' = Ok (Z.of_nat i, s') /\
       gl_binding (gl s') !! Z.of_nat i = Some (ID e)) /\
    (Forall (fun c => accepted any_rgb c.1 = true) scene_textures ->
     forall (i : nat) c,
       scene_textures !! i = Some c -> FindTextureSlot c.2 s' = Ok (Z.of_nat i, s')).
Proof.
  apply (LoadSceneTextures_slots any_rgb new_scene).
  - reflexivity.
  - cbn. lia.
Defined.

(** ** [SetupSceneLights] *)

Ltac shader_step Hsm :=
  erewrite (bind_Ok (shader_set _ _))
    by (apply shader_set_Ok; first [exact Hsm | reflexivity]);
  rewrite ?set_shader_set_shader.

Lemma SetupSceneLights_run s sm :
  m_pShaderManager s = Some sm ->
  SetupSceneLights s = Ok (tt, set_shader (Some (sm ++ light_uniforms)) s).
Proof.
  intros Hsm. unfold SetupSceneLights, shader_set3.
  do 39 shader_step Hsm.
  erewrite shader_set_Ok by reflexivity.
  rewrite set_shader_set_shader, <- !app_assoc. reflexivity.
Qed.

(** X16. [SetupSceneLights] calls through [m_pShaderManager] without the test
    that the per-object operations make: on an object constructed with a NULL
    shader manager its first statement dereferences NULL. *)
Theorem SetupSceneLights_null_dereference (s : SceneManager) :
  m_pShaderManager s = None -> SetupSceneLights s = Fault NullDereference.
Proof.
  intros Hsm. unfold SetupSceneLights.
  apply bind_Fault. by apply shader_set_null.
Qed.

Lemma SetupSceneLights_null_dereference_witness :
  SetupSceneLights null_scene = Fault NullDereference.
Proof. apply (SetupSceneLights_null_dereference null_scene). reflexivity. Defined.

(** X17. With a shader manager, [SetupSceneLights] returns after 40
    submissions and changes nothing else.  Afterwards lighting is enabled and
    the directional light, the five point lights and the spotlight are all
    marked active; no position and no direction is ever submitted for the
    spotlight.  Running it again leaves every uniform of the program with the
    value it had after the first run. *)
Theorem SetupSceneLights_submissions (s : SceneManager) (sm : ShaderManager) :
  m_pShaderManager s = Some sm ->
  exists s1 sm1 s2 sm2,
    SetupSceneLights s = Ok (tt, s1) /\
    same_scene s s1 /\
    m_pShaderManager s1 = Some sm1 /\
    length sm1 = (length sm + 40)%nat /\
    current_uniform g_UseLightingName sm1 = Some (BoolValue true) /\
    Forall (fun name => current_uniform name sm1 = Some (BoolValue true))
      [ "directionalLight.bActive"; "pointLights[0].bActive"; "pointLights[1].bActive";
        "pointLights[2].bActive"; "pointLights[3].bActive"; "pointLights[4].bActive";
        "spotLight.bActive" ] /\
    current_uniform "spotLight.position" sm1 = current_uniform "spotLight.position" sm /\
    current_uniform "spotLight.direction" sm1 = current_uniform "spotLight.direction" sm /\
    SetupSceneLights s1 = Ok (tt, s2) /\
    m_pShaderManager s2 = Some sm2 /\
    forall name, current_uniform name sm2 = current_uniform name sm1.
Proof.
  intros Hsm.
  exists (set_shader (Some (sm ++ light_uniforms)) s), (sm ++ light_uniforms),
         (set_shader (Some ((sm ++ light_uniforms) ++ light_uniforms)) s),
         ((sm ++ light_uniforms) ++ light_uniforms).
  split; [by apply SetupSceneLights_run|].
  split; [apply same_scene_set_shader|]. split; [reflexivity|].
  split; [by rewrite length_app|].
  split; [by rewrite current_uniform_app|].
  split.
  { repeat constructor; by rewrite current_uniform_app. }
  split; [by rewrite current_uniform_app|].
  split; [by rewrite current_uniform_app|].
  split.
  { by rewrite (SetupSceneLights_run (set_shader (Some (sm ++ light_uniforms)) s)
                  (sm ++ light_uniforms) eq_refl). }
  split; [reflexivity|].
  intros name. rewrite (current_uniform_app name (sm ++ light_uniforms)).
  rewrite (current_uniform_app name sm).
  by destruct (current_uniform name light_uniforms).
Qed.

Lemma SetupSceneLights_submissions_witness :
  exists s1 sm1 s2 sm2,
    SetupSceneLights new_scene = Ok (tt, s1) /\
    same_scene new_scene s1 /\
    m_pShaderManager s1 = Some sm1 /\
    length sm1 = (0 + 40)%nat /\
    current_uniform g_UseLightingName sm1 = Some (BoolValue true) /\
    Forall (fun name => current_uniform name sm1 = Some (BoolValue true))
      [ "directionalLight.bActive"; "pointLights[0].bActive"; "pointLights[1].bActive";
        "pointLights[2].bActive"; "pointLights[3].bActive"; "pointLights[4].bActive";
        "spotLight.bActive" ] /\
    current_uniform "spotLight.position" sm1 = current_uniform "spotLight.position" [] /\
    current_uniform "spotLight.direction" sm1 = current_uniform "spotLight.direction" [] /\
    SetupSceneLights s1 = Ok (tt, s2) /\
    m_pShaderManager s2 = Some sm2 /\
    forall name, current_uniform name sm2 = current_uniform name sm1.
Proof. apply (SetupSceneLights_submissions new_scene []). reflexivity. Defined.

(** ** Scripts of statements *)

Lemma same_scene_trans s1 s2 s3 : same_scene s1 s2 -> same_scene s2 s3 -> same_scene s1 s3.
Proof.
  intros (H1 & H2 & H3 & H4) (H1' & H2' & H3' & H4').
  repeat split; congruence.
Qed.

Lemma submitted_trans s1 s2 s3 c c' :
  submitted s1 s2 c -> submitted s2 s3 c' -> submitted s1 s3 (c ++ c').
Proof.
  unfold submitted.
  destruct (m_pShaderManager s1), (m_pShaderManager s2), (m_pShaderManager s3);
    try done.
  - intros -> ->. by rewrite app_assoc.
  - by intros -> ->.
Qed.

Lemma set_shader_same s sm : m_pShaderManager s = Some sm -> set_shader (Some (sm ++ [])) s = s.
Proof. intros H. destruct s. cbn in *. subst. by rewrite app_nil_r. Qed.

Lemma exec_frame ind st s ds s' :
  exec ind st s = Ok (ds, s') ->
  ds = statement_draws st (m_pShaderManager s) /\
  same_scene s s' /\ exists calls, submitted s s' calls.
Proof.
  intros Hrun. destruct st; cbn [exec] in Hrun.
  1-5: apply bind_inv in Hrun as ([] & s1 & Hop & Hret); injection Hret as <- <-.
  - destruct (SetTransformations_frame _ _ _ _ _ _ _ Hop) as (? & calls & ? & _). eauto.
  - destruct (SetShaderColor_frame _ _ _ _ _ _ Hop) as (? & calls & ? & _). eauto.
  - destruct (SetShaderTexture_frame _ _ _ Hop) as (? & calls & ? & _). eauto.
  - destruct (SetTextureUVScale_frame _ _ _ _ Hop) as (? & calls & ? & _). eauto.
  - destruct (SetShaderMaterial_frame _ _ _ _ Hop) as (? & calls & ? & _). eauto.
  - cbn [bind get ret] in Hrun. injection Hrun as <- <-.
    split; [done|]. split; [apply same_scene_refl|]. exists []. apply submitted_nothing.
Qed.

Lemma script_draws_cons st script :
  script_draws (st :: script) = (fst <$> statement_draws st None) ++ script_draws script.
Proof. by destruct st. Qed.

Lemma statement_draws_fst st shader :
  fst <$> statement_draws st shader = fst <$> statement_draws st None.
Proof. by destruct st. Qed.

Lemma run_frame ind script : forall s draws s',
  run ind script s = Ok (draws, s') ->
  fst <$> draws = script_draws script /\
  same_scene s s' /\ exists calls, submitted s s' calls.
Proof.
  induction script as [|st script IH]; intros s draws s' Hrun.
  - injection Hrun as <- <-. split; [done|]. split; [apply same_scene_refl|].
    exists []. apply submitted_nothing.
  - cbn [run] in Hrun.
    apply bind_inv in Hrun as (first & s1 & Hexec & Hrun).
    apply bind_inv in Hrun as (others & s2 & Hrest & Hret). injection Hret as <- <-.
    destruct (exec_frame _ _ _ _ _ Hexec) as (-> & Hsame & c & Hc).
    destruct (IH _ _ _ Hrest) as (Hdraws & Hsame' & c' & Hc').
    split; [|split].
    + by rewrite fmap_app, script_draws_cons, statement_draws_fst, Hdraws.
    + by eapply same_scene_trans.
    + exists (c ++ c'). by eapply submitted_trans.
Qed.

Lemma slot_sentinel t s slot :
  within_capacity s ->
  FindTextureSlot t s = Ok (slot, s) ->
  (slot = -1 <-> t ∉ tag <$> registry s).
Proof.
  intros Hwf Hfind. rewrite FindTextureSlot_registry in Hfind by done.
  injection Hfind as <-.
  destruct (list_find _ _) as [[k e]|] eqn:E.
  - apply list_find_Some in E as (Hk & Ht & _). split; [lia|].
    intros Hnot. exfalso. apply Hnot. apply list_elem_of_fmap. exists e.
    split; [done|]. eapply list_elem_of_lookup_2, Hk.
  - split; [|done]. intros _.
    apply list_find_None in E. rewrite Forall_forall in E.
    intros Hin. apply list_elem_of_fmap in Hin as (e & -> & He). by apply (E e).
Qed.

Lemma SetShaderMaterial_bound t ind s sm :
  m_pShaderManager s = Some sm ->
  exists calls,
    SetShaderMaterial t ind s = Ok (tt, set_shader (Some (sm ++ calls)) s) /\
    sentinel_submission ∉ calls.
Proof.
  intros Hsm. unfold SetShaderMaterial. cbn [bind get].
  destruct (0 <? Z.of_nat (length (m_objectMaterials s))).
  2: { exists []. rewrite set_shader_same by done. split; [done|]. apply not_elem_of_nil. }
  pose proof (FindMaterial_spec t ind s) as Hfind.
  destruct (m_objectMaterials s) as [|m0 ms].
  { rewrite (bind_Ok _ _ _ _ _ Hfind).
    exists []. rewrite set_shader_same by done. split; [done|]. apply not_elem_of_nil. }
  match type of Hfind with _ = Ok ((true, ?m), _) => set (out' := m) in Hfind end.
  clearbody out'. rewrite (bind_Ok _ _ _ _ _ Hfind).
  rewrite (bind_Ok _ _ _ _ _ (shader_set_Ok _ _ _ _ Hsm)).
  erewrite (bind_Ok (shader_set _ _)) by (by apply shader_set_Ok).
  erewrite shader_set_Ok by reflexivity.
  rewrite !set_shader_set_shader, <- !app_assoc.
  eexists. split; [reflexivity|].
  cbn [app]. unfold sentinel_submission.
  rewrite !not_elem_of_cons. repeat split; try discriminate. apply not_elem_of_nil.
Qed.

Lemma SetTransformations_bound scaleXYZ rx ry rz positionXYZ s sm :
  m_pShaderManager s = Some sm ->
  SetTransformations scaleXYZ rx ry rz positionXYZ s
  = Ok (tt, set_shader
              (Some (sm ++ [(g_ModelName,
                             Mat4Value (modelView scaleXYZ rx ry rz positionXYZ))])) s).
Proof.
  intros Hsm. unfold SetTransformations.
  rewrite (when_shader_bound _ sm) by done. by apply shader_set_Ok.
Qed.

Lemma SetTextureUVScale_bound u v s sm :
  m_pShaderManager s = Some sm ->
  SetTextureUVScale u v s
  = Ok (tt, set_shader (Some (sm ++ [("UVscale", Vec2Value (glm.Vec2 u v))])) s).
Proof.
  intros Hsm. unfold SetTextureUVScale.
  rewrite (when_shader_bound _ sm) by done. by apply shader_set_Ok.
Qed.

(** A statement run with a shader manager, on a state within capacity. *)
Lemma exec_bound ind st s sm :
  m_pShaderManager s = Some sm ->
  within_capacity s ->
  exists calls,
    exec ind st s
    = Ok (statement_draws st (Some sm), set_shader (Some (sm ++ calls)) s) /\
    (sentinel_submission ∈ calls <->
     exists t, st = ShaderTexture t /\ t ∉ tag <$> registry s).
Proof.
  intros Hsm Hwf.
  assert (forall calls : ShaderManager,
            sentinel_submission ∉ calls ->
            (forall t, st <> ShaderTexture t) ->
            (sentinel_submission ∈ calls <->
             exists t, st = ShaderTexture t /\ t ∉ tag <$> registry s)) as Hno.
  { intros calls Hnot Hst. split; [done|]. intros (t & -> & _). by destruct (Hst t). }
  destruct st; cbn [exec statement_draws].
  - rewrite (bind_Ok _ _ _ _ _ (SetTransformations_bound _ _ _ _ _ _ _ Hsm)).
    eexists. split; [reflexivity|]. apply Hno; [|done].
    unfold sentinel_submission. rewrite not_elem_of_cons. split; [discriminate|].
    apply not_elem_of_nil.
  - rewrite (bind_Ok _ _ _ _ _ (SetShaderColor_bound _ _ _ _ _ _ Hsm)).
    eexists. split; [reflexivity|]. apply Hno; [|done].
    unfold sentinel_submission. rewrite !not_elem_of_cons.
    repeat split; try discriminate. apply not_elem_of_nil.
  - pose proof (FindTextureSlot_registry textureTag s Hwf) as Hfind.
    rewrite (bind_Ok _ _ _ _ _ (SetShaderTexture_bound _ _ _ _ Hsm Hfind)).
    eexists. split; [reflexivity|].
    pose proof (slot_sentinel _ _ _ Hwf Hfind) as Hslot.
    unfold sentinel_submission. rewrite !elem_of_cons. split.
    + intros [Heq|[Heq|Hnil]].
      * discriminate.
      * exists textureTag. split; [done|]. apply Hslot. by injection Heq.
      * by apply elem_of_nil in Hnil.
    + intros (t & [= <-] & Ht). right. left. apply Hslot in Ht. by rewrite Ht.
  - rewrite (bind_Ok _ _ _ _ _ (SetTextureUVScale_bound _ _ _ _ Hsm)).
    eexists. split; [reflexivity|]. apply Hno; [|done].
    unfold sentinel_submission. rewrite not_elem_of_cons. split; [discriminate|].
    apply not_elem_of_nil.
  - destruct (SetShaderMaterial_bound materialTag ind s sm Hsm) as (calls & Hrun & Hnot).
    rewrite (bind_Ok _ _ _ _ _ Hrun).
    exists calls. split; [reflexivity|]. by apply Hno.
  - cbn [bind get ret]. rewrite Hsm. exists [].
    rewrite set_shader_same by done. split; [done|].
    apply Hno; [apply not_elem_of_nil|done].
Qed.

Lemma script_textures_cons st script :
  script_textures (st :: script)
  = match st with ShaderTexture t => [t] | _ => [] end ++ script_textures script.
Proof. by destruct st. Qed.

(** A script run with a shader manager, on a state within capacity: it
    returns, and the not-found value is among the submissions exactly when
    one of its texture tags is not registered. *)
Lemma run_bound ind script : forall s sm,
  m_pShaderManager s = Some sm ->
  within_capacity s ->
  exists calls draws,
    run ind script s = Ok (draws, set_shader (Some (sm ++ calls)) s) /\
    fst <$> draws = script_draws script /\
    (sentinel_submission ∈ calls <->
     Exists (fun t => t ∉ tag <$> registry s) (script_textures script)).
Proof.
  induction script as [|st script IH]; intros s sm Hsm Hwf.
  - exists [], []. rewrite set_shader_same by done. split; [done|]. split; [done|].
    split; [intros H; by apply elem_of_nil in H|intros H; by apply Exists_nil in H].
  - destruct (exec_bound ind st s sm Hsm Hwf) as (c & Hexec & Hc).
    destruct (IH (set_shader (Some (sm ++ c)) s) (sm ++ c) eq_refl Hwf)
      as (c' & draws & Hrun & Hdraws & Hc').
    exists (c ++ c'), (statement_draws st (Some sm) ++ draws).
    cbn [run]. rewrite (bind_Ok _ _ _ _ _ Hexec), (bind_Ok _ _ _ _ _ Hrun).
    rewrite set_shader_set_shader, <- app_assoc. split; [done|]. split.
    + by rewrite fmap_app, script_draws_cons, statement_draws_fst, Hdraws.
    + rewrite elem_of_app, script_textures_cons, Exists_app, Hc, Hc'.
      change (registry (set_shader (Some (sm ++ c)) s)) with (registry s).
      apply or_iff_compat_r. split.
      * intros (t & -> & Ht). by apply Exists_cons_hd.
      * destruct st; intros H; try (by apply Exists_nil in H).
        apply Exists_cons in H as [H|H]; [eauto|by apply Exists_nil in H].
Qed.

Lemma SetShaderMaterial_resolved t ind ind' s :
  t ∈ material_tag <$> m_objectMaterials s ->
  SetShaderMaterial t ind s = SetShaderMaterial t ind' s.
Proof.
  intros Hin. unfold SetShaderMaterial. cbn [bind get].
  destruct (0 <? Z.of_nat (length (m_objectMaterials s))); [|done].
  assert (m_objectMaterials s <> []) as Hne.
  { intros Hnil. rewrite Hnil in Hin. by apply elem_of_nil in Hin. }
  rewrite (bind_Ok _ _ _ _ _ (FindMaterial_nonempty t ind s Hne)).
  rewrite (bind_Ok _ _ _ _ _ (FindMaterial_nonempty t ind' s Hne)).
  destruct (list_find _ _) as [[i m]|] eqn:E; [done|].
  exfalso. apply list_find_None in E. rewrite Forall_forall in E.
  apply list_elem_of_fmap in Hin as (m & -> & Hm). by apply (E m).
Qed.

Lemma script_materials_cons st script :
  script_materials (st :: script)
  = match st with ShaderMaterial t => [t] | _ => [] end ++ script_materials script.
Proof. by destruct st. Qed.

(** When every material tag of a script is defined, what the uninitialised
    local of [SetShaderMaterial] holds has no influence on the run. *)
Lemma run_resolved ind ind' script : forall s,
  Forall (fun t => t ∈ material_tag <$> m_objectMaterials s) (script_materials script) ->
  run ind script s = run ind' script s.
Proof.
  induction script as [|st script IH]; intros s Hall; [done|].
  rewrite script_materials_cons in Hall. apply Forall_app in Hall as [Hst Hall].
  assert (exec ind st s = exec ind' st s) as Hexec.
  { destruct st; try done. cbn [exec].
    apply Forall_cons in Hst as [Hst _].
    unfold bind. by rewrite (SetShaderMaterial_resolved _ ind ind'). }
  cbn [run]. unfold bind at 1 3. rewrite Hexec.
  destruct (exec ind' st s) as [[first s1]|f] eqn:Hrun; [|done].
  destruct (exec_frame _ _ _ _ _ Hrun) as (_ & (_ & _ & Hmat & _) & _).
  unfold bind. rewrite (IH s1); [done|]. by rewrite Hmat.
Qed.

Lemma SetShaderMaterial_empty t ind s :
  m_objectMaterials s = [] -> SetShaderMaterial t ind s = Ok (tt, s).
Proof. intros Hempty. unfold SetShaderMaterial. cbn [bind get]. by rewrite Hempty. Qed.

Lemma exec_null ind st s :
  m_pShaderManager s = None ->
  (m_objectMaterials s = [] \/ forall t, st <> ShaderMaterial t) ->
  exec ind st s = Ok (statement_draws st None, s).
Proof.
  intros Hsm Hst. destruct st; cbn [exec statement_draws].
  - by rewrite (bind_Ok _ _ _ _ _ (SetTransformations_null _ _ _ _ _ _ Hsm)).
  - by rewrite (bind_Ok _ _ _ _ _ (SetShaderColor_null _ _ _ _ _ Hsm)).
  - by rewrite (bind_Ok _ _ _ _ _ (SetShaderTexture_null _ _ Hsm)).
  - by rewrite (bind_Ok _ _ _ _ _ (SetTextureUVScale_null _ _ _ Hsm)).
  - destruct Hst as [Hempty|Hst]; [|by destruct (Hst materialTag)].
    by rewrite (bind_Ok _ _ _ _ _ (SetShaderMaterial_empty _ _ _ Hempty)).
  - cbn [bind get ret]. by rewrite Hsm.
Qed.

Lemma run_null_empty ind script s :
  m_pShaderManager s = None ->
  m_objectMaterials s = [] ->
  run ind script s = Ok ((fun mesh => (mesh, None)) <$> script_draws script, s).
Proof.
  intros Hsm Hempty. induction script as [|st script IH]; [done|].
  cbn [run]. rewrite (bind_Ok _ _ _ _ _ (exec_null ind st s Hsm (or_introl Hempty))).
  rewrite (bind_Ok _ _ _ _ _ IH). cbn [ret]. by destruct st.
Qed.

Lemma SetShaderMaterial_null_fault t ind s :
  m_pShaderManager s = None ->
  m_objectMaterials s <> [] ->
  SetShaderMaterial t ind s = Fault NullDereference.
Proof.
  intros Hsm Hne. unfold SetShaderMaterial. cbn [bind get].
  destruct (Z.ltb_spec 0 (Z.of_nat (length (m_objectMaterials s)))) as [_|Hlen].
  2: { destruct (m_objectMaterials s); [done|cbn in Hlen; lia]. }
  rewrite (bind_Ok _ _ _ _ _ (FindMaterial_nonempty t ind s Hne)).
  apply bind_Fault. by apply shader_set_null.
Qed.

Lemma run_null_fault ind script s :
  m_pShaderManager s = None ->
  m_objectMaterials s <> [] ->
  script_materials script <> [] ->
  run ind script s = Fault NullDereference.
Proof.
  intros Hsm Hne. induction script as [|st script IH]; intros Hscript; [done|].
  cbn [run].
  assert ((exists t, st = ShaderMaterial t) \/ forall t, st <> ShaderMaterial t)
    as [[t ->]|Hst] by (destruct st; eauto).
  - apply bind_Fault. cbn [exec]. apply bind_Fault. by apply SetShaderMaterial_null_fault.
  - rewrite (bind_Ok _ _ _ _ _ (exec_null ind st s Hsm (or_intror Hst))).
    apply bind_Fault. apply IH.
    rewrite script_materials_cons in Hscript.
    destruct st; try done. by destruct (Hst materialTag).
Qed.

(** ** [RenderScene] and [PrepareScene] *)

Lemma render_script_draws :
  script_draws render_script
  = [ DrawPlaneMesh; DrawBoxMesh; DrawPyramid4Mesh; DrawTaperedCylinderMesh;
      DrawPyramid4Mesh; DrawPyramid4Mesh; DrawPyramid4Mesh; DrawPyramid4Mesh;
      DrawPyramid4Mesh; DrawCylinderMesh []; DrawPyramid4Mesh; DrawPyramid4Mesh;
      DrawPyramid4Mesh; DrawPyramid4Mesh; DrawPyramid4Mesh; DrawPyramid4Mesh;
      DrawCylinderMesh [false; false; true]; DrawCylinderMesh [];
      DrawBoxMesh; DrawBoxMesh ].
Proof. reflexivity. Qed.

Lemma render_script_textures :
  script_textures render_script
  = [ "onyx"; "wood"; "metal"; "wood2"; "meat"; "meat"; "meat"; "meat"; "meat";
      "meat"; "meat"; "meat"; "meat"; "meat"; "meat"; "metal"; "metal" ].
Proof. reflexivity. Qed.

Lemma render_script_materials :
  script_materials render_script
  = [ "tile"; "wood"; "tile"; "wood"; "clay"; "clay"; "clay"; "clay"; "clay"; "tile";
      "clay"; "clay"; "clay"; "clay"; "clay"; "clay"; "glass"; "plasticClear";
      "glass"; "glass" ].
Proof. reflexivity. Qed.

Lemma render_script_texture_set (P : string -> Prop) :
  Exists P (script_textures render_script)
  <-> exists t, t ∈ ["onyx"; "wood"; "metal"; "wood2"; "meat"] /\ P t.
Proof.
  rewrite render_script_textures, Exists_exists. split.
  - intros (t & Hin & HP). exists t. split; [|done].
    rewrite !elem_of_cons in Hin. rewrite !elem_of_cons. tauto.
  - intros (t & Hin & HP). exists t. split; [|done].
    rewrite !elem_of_cons in Hin. rewrite !elem_of_cons. tauto.
Qed.

Lemma render_script_material_set (P : string -> Prop) :
  Forall P ["tile"; "wood"; "clay"; "glass"; "plasticClear"] ->
  Forall P (script_materials render_script).
Proof.
  rewrite render_script_materials, !Forall_forall. intros H t Hin. apply H.
  rewrite !elem_of_cons in Hin. rewrite !elem_of_cons. tauto.
Qed.

(** X18. With a shader manager and a table within capacity, [RenderScene]
    always returns: it makes its 20 draw calls in the order of the source and
    changes nothing but what the shader manager has received.  A texture that
    was never registered makes no call fail; the not-found value -1 is
    submitted as [objectTexture] exactly when one of the five tags the scene
    uses (onyx, wood, metal, wood2, meat) is missing from the registry. *)
Theorem RenderScene_with_shader (indeterminate : OBJECT_MATERIAL) (s : SceneManager)
    (sm : ShaderManager) :
  m_pShaderManager s = Some sm ->
  within_capacity s ->
  exists calls draws,
    RenderScene indeterminate s = Ok (draws, set_shader (Some (sm ++ calls)) s) /\
    fst <$> draws = script_draws render_script /\
    length draws = 20%nat /\
    (sentinel_submission ∈ calls <->
     exists t, t ∈ ["onyx"; "wood"; "metal"; "wood2"; "meat"] /\ t ∉ tag <$> registry s).
Proof.
  intros Hsm Hwf.
  destruct (run_bound indeterminate render_script s sm Hsm Hwf)
    as (calls & draws & Hrun & Hdraws & Hsentinel).
  exists calls, draws. split; [exact Hrun|]. split; [exact Hdraws|]. split.
  - pose proof (f_equal length Hdraws) as Hlen.
    rewrite length_fmap, render_script_draws in Hlen. exact Hlen.
  - rewrite Hsentinel. apply render_script_texture_set.
Qed.

Lemma RenderScene_with_shader_witness :
  exists calls draws,
    RenderScene cementMaterial wood_glass_scene
    = Ok (draws, set_shader (Some ([] ++ calls)) wood_glass_scene) /\
    fst <$> draws = script_draws render_script /\
    length draws = 20%nat /\
    (sentinel_submission ∈ calls <->
     exists t, t ∈ ["onyx"; "wood"; "metal"; "wood2"; "meat"] /\
               t ∉ tag <$> registry wood_glass_scene).
Proof.
  apply (RenderScene_with_shader cementMaterial wood_glass_scene []).
  - reflexivity.
  - unfold within_capacity. cbn. lia.
Defined.

(** X19. On an object whose shader manager is NULL, [RenderScene] depends on
    the material list alone.  While no material is defined every operation is
    skipped and the 20 draw calls are made with nothing submitted; once a
    material is defined the first [SetShaderMaterial] dereferences NULL. *)
Theorem RenderScene_without_shader (indeterminate : OBJECT_MATERIAL) (s : SceneManager) :
  m_pShaderManager s = None ->
  (m_objectMaterials s = [] ->
   RenderScene indeterminate s
   = Ok ((fun mesh => (mesh, None)) <$> script_draws render_script, s)) /\
  (m_objectMaterials s <> [] ->
   RenderScene indeterminate s = Fault NullDereference).
Proof.
  intros Hsm. split.
  - intros Hempty. by apply run_null_empty.
  - intros Hne. apply run_null_fault; [done..|].
    by rewrite render_script_materials.
Qed.

Lemma RenderScene_without_shader_witness :
  RenderScene cementMaterial null_scene
  = Ok ((fun mesh => (mesh, None)) <$> script_draws render_script, null_scene) /\
  RenderScene cementMaterial null_gold_scene = Fault NullDereference.
Proof.
  split.
  - apply (RenderScene_without_shader cementMaterial null_scene); reflexivity.
  - apply (RenderScene_without_shader cementMaterial null_gold_scene);
      [reflexivity|discriminate].
Defined.

(** X20. When the five material tags the scene uses (tile, wood, clay, glass,
    plasticClear) are all defined, every [SetShaderMaterial] of [RenderScene]
    finds its material: the outcome does not depend on what the uninitialised
    local happens to hold. *)
Theorem RenderScene_materials_resolve (s : SceneManager) :
  Forall (fun t => t ∈ material_tag <$> m_objectMaterials s)
    ["tile"; "wood"; "clay"; "glass"; "plasticClear"] ->
  forall indeterminate indeterminate',
    RenderScene indeterminate s = RenderScene indeterminate' s.
Proof.
  intros Hdefined ind ind'. apply run_resolved.
  by apply render_script_material_set.
Qed.

Lemma RenderScene_materials_resolve_witness :
  RenderScene goldMaterial (set_objectMaterials defined_materials new_scene)
  = RenderScene cementMaterial (set_objectMaterials defined_materials new_scene).
Proof.
  apply (RenderScene_materials_resolve (set_objectMaterials defined_materials new_scene)).
  cbn [m_objectMaterials set_objectMaterials]. rewrite defined_tags.
  rewrite Forall_forall. intros t Hin.
  rewrite !elem_of_cons in Hin. rewrite !elem_of_cons. tauto.
Defined.

(** X21. [PrepareScene] on an object whose shader manager is NULL never
    returns: the materials are defined, then [SetupSceneLights] dereferences
    NULL, before any texture is loaded. *)
Theorem PrepareScene_null_dereference (stbi_load : string -> option stbi_image)
    (s : SceneManager) :
  m_pShaderManager s = None ->
  PrepareScene stbi_load s = Fault NullDereference.
Proof.
  intros Hsm. unfold PrepareScene.
  rewrite (bind_Ok _ _ _ _ _ (DefineObjectMaterials_run s)).
  apply bind_Fault. unfold SetupSceneLights.
  apply bind_Fault. by apply shader_set_null.
Qed.

Lemma PrepareScene_null_dereference_witness :
  PrepareScene example_files null_scene = Fault NullDereference.
Proof. apply (PrepareScene_null_dereference example_files null_scene). reflexivity. Defined.

Lemma LoadSceneTextures_run stbi_load s :
  m_loadedTextures s = 0 ->
  (8 <= length (m_textureIDs s))%nat ->
  exists s',
    LoadSceneTextures stbi_load s = Ok (tt, s') /\
    within_capacity s' /\
    tag <$> registry s'
      = snd <$> filter (fun c => accepted stbi_load c.1 = true) scene_textures /\
    m_objectMaterials s' = m_objectMaterials s /\
    m_pShaderManager s' = m_pShaderManager s.
Proof.
  intros Hzero Hcap.
  assert (within_capacity s) as Hwf0 by (unfold within_capacity; lia).
  destruct (load_textures_run stbi_load scene_textures s Hwf0)
    as (s1 & entries & Hrun & Hloaded & Htags); [cbn; lia|].
  destruct (loaded_registry _ _ _ _ Hloaded Hwf0) as (Hwf & Hreg & Hmat & Hsh).
  assert (registry s = []) as Hempty by (unfold registry; by rewrite Hzero).
  rewrite Hempty in Hreg. cbn [app] in Hreg.
  destruct (BindGLTextures_spec s1 Hwf) as (g & Hbind & _).
  exists (set_gl g s1). unfold LoadSceneTextures.
  rewrite (bind_Ok _ _ _ _ _ Hrun). split; [exact Hbind|].
  split; [exact Hwf|]. split; [|by split].
  change (registry (set_gl g s1)) with (registry s1). by rewrite Hreg.
Qed.

Lemma filter_all {A} (P : A -> Prop) `{!forall x, Decision (P x)} (l : list A) :
  Forall P l -> filter P l = l.
Proof.
  induction 1 as [|x l Hx _ IH]; [done|]. by rewrite filter_cons_True, IH by done.
Qed.

(** X22. [PrepareScene] on an object with a shader manager, no texture loaded
    and a table of at least 8 slots returns, whatever the loader does with
    the files: the seven materials are appended, the lights are submitted,
    the accepted files are registered in call order, and the seven meshes are
    loaded before blending is switched on.  [RenderScene] after it never
    reads the uninitialised material; and when all eight files are accepted
    it never submits the not-found texture slot. *)
Theorem PrepareScene_then_RenderScene (stbi_load : string -> option stbi_image)
    (s : SceneManager) (sm : ShaderManager) :
  m_pShaderManager s = Some sm ->
  m_loadedTextures s = 0 ->
  (8 <= length (m_textureIDs s))%nat ->
  exists s1,
    PrepareScene stbi_load s
    = Ok ([ LoadPlaneMesh; LoadBoxMesh; LoadPyramid4Mesh; LoadCylinderMesh;
            LoadTaperedCylinderMesh; LoadTorusMesh; LoadSphereMesh;
            glEnable GL_BLEND; glBlendFunc GL_SRC_ALPHA GL_ONE_MINUS_SRC_ALPHA ], s1) /\
    m_objectMaterials s1 = m_objectMaterials s ++ defined_materials /\
    m_pShaderManager s1 = Some (sm ++ light_uniforms) /\
    tag <$> registry s1
      = snd <$> filter (fun c => accepted stbi_load c.1 = true) scene_textures /\
    (forall indeterminate indeterminate',
       RenderScene indeterminate s1 = RenderScene indeterminate' s1) /\
    (Forall (fun c => accepted stbi_load c.1 = true) scene_textures ->
     exists calls draws,
       (sentinel_submission ∉ calls) /\
       forall indeterminate,
         RenderScene indeterminate s1
         = Ok (draws, set_shader (Some ((sm ++ light_uniforms) ++ calls)) s1)).
Proof.
  intros Hsm Hzero Hcap. unfold PrepareScene.
  rewrite (bind_Ok _ _ _ _ _ (DefineObjectMaterials_run s)).
  erewrite (bind_Ok SetupSceneLights) by (apply (SetupSceneLights_run _ sm); exact Hsm).
  match goal with |- context [bind (LoadSceneTextures _) _ ?s2] =>
    destruct (LoadSceneTextures_run stbi_load s2 Hzero Hcap)
      as (s1 & Hload & Hwf & Htags & Hmat & Hsh) end.
  rewrite (bind_Ok _ _ _ _ _ Hload).
  cbn [m_objectMaterials m_pShaderManager set_shader set_objectMaterials] in Hmat, Hsh.
  exists s1. split; [reflexivity|]. split; [exact Hmat|]. split; [exact Hsh|].
  split; [exact Htags|].
  assert (forall ind ind', RenderScene ind s1 = RenderScene ind' s1) as Hind.
  { intros ind ind'. apply run_resolved, render_script_material_set.
    rewrite Hmat, fmap_app, defined_tags, Forall_forall. intros t Hin.
    apply elem_of_app. right.
    rewrite !elem_of_cons in Hin. rewrite !elem_of_cons. tauto. }
  split; [exact Hind|].
  intros Hall.
  destruct (run_bound goldMaterial render_script s1 _ Hsh Hwf)
    as (calls & draws & Hrun & _ & Hsentinel).
  exists calls, draws. split.
  - rewrite Hsentinel, render_script_texture_set.
    intros (t & Hin & Hnot). apply Hnot.
    rewrite Htags, filter_all, scene_texture_tags by done.
    rewrite !elem_of_cons in Hin. rewrite !elem_of_cons. tauto.
  - intros ind. by rewrite (Hind ind goldMaterial).
Qed.

Lemma PrepareScene_then_RenderScene_witness :
  exists s1,
    PrepareScene any_rgb new_scene
    = Ok ([ LoadPlaneMesh; LoadBoxMesh; LoadPyramid4Mesh; LoadCylinderMesh;
            LoadTaperedCylinderMesh; LoadTorusMesh; LoadSphereMesh;
            glEnable GL_BLEND; glBlendFunc GL_SRC_ALPHA GL_ONE_MINUS_SRC_ALPHA ], s1) /\
    m_objectMaterials s1 = m_objectMaterials new_scene ++ defined_materials /\
    m_pShaderManager s1 = Some ([] ++ light_uniforms) /\
    tag <$> registry s1
      = snd <$> filter (fun c => accepted any_rgb c.1 = true) scene_textures /\
    (forall indeterminate indeterminate',
       RenderScene indeterminate s1 = RenderScene indeterminate' s1) /\
    (Forall (fun c => accepted any_rgb c.1 = true) scene_textures ->
     exists calls draws,
       (sentinel_submission ∉ calls) /\
       forall indeterminate,
         RenderScene indeterminate s1
         = Ok (draws, set_shader (Some (([] ++ light_uniforms) ++ calls)) s1)).
Proof.
  apply (PrepareScene_then_RenderScene any_rgb new_scene []).
  - reflexivity.
  - reflexivity.
  - cbn. lia.
Defined.

(** ** More on textures and transformations *)

Lemma loaded_table_length stbi_load s0 entries s :
  loaded stbi_load s0 entries s ->
  length (m_textureIDs s) = length (m_textureIDs s0).
Proof.
  induction 1 as [s|s0 entries s1 filename t s2 handle _ IH Hcall Hh
                  |s0 entries s1 filename t s2 _ IH Hcall].
  - done.
  - destruct (CreateGLTexture_true_inv _ _ _ _ _ Hcall) as (_ & g & ->).
    cbn [m_textureIDs]. by rewrite length_insert.
  - by destruct (CreateGLTexture_false_inv _ _ _ _ _ Hcall) as (g & ->).
Qed.

Lemma LoadSceneTextures_room stbi_load s :
  within_capacity s ->
  m_loadedTextures s + 8 <= Z.of_nat (length (m_textureIDs s)) ->
  exists s',
    LoadSceneTextures stbi_load s = Ok (tt, s') /\
    within_capacity s' /\
    tag <$> registry s'
      = (tag <$> registry s)
        ++ (snd <$> filter (fun c => accepted stbi_load c.1 = true) scene_textures) /\
    length (m_textureIDs s') = length (m_textureIDs s).
Proof.
  intros Hwf0 Hroom.
  destruct (load_textures_run stbi_load scene_textures s Hwf0)
    as (s1 & entries & Hrun & Hloaded & Htags); [cbn; lia|].
  destruct (loaded_registry _ _ _ _ Hloaded Hwf0) as (Hwf & Hreg & _ & _).
  destruct (BindGLTextures_spec s1 Hwf) as (g & Hbind & _).
  exists (set_gl g s1). unfold LoadSceneTextures.
  rewrite (bind_Ok _ _ _ _ _ Hrun). split; [exact Hbind|].
  split; [exact Hwf|]. split.
  - change (registry (set_gl g s1)) with (registry s1). by rewrite Hreg, fmap_app, Htags.
  - apply (loaded_table_length _ _ _ _ Hloaded).
Qed.

(** X23. The table has room for [LoadSceneTextures] twice, not three times.
    With all eight files accepted and a table of 16 slots, the second run
    fills the table with a second copy of every texture, which no lookup ever
    reaches ([FindTextureSlot] still answers 0 to 7); a third run writes at
    index 16, past the end of the table. *)
Theorem LoadSceneTextures_third_run_overflows (stbi_load : string -> option stbi_image)
    (s : SceneManager) :
  Forall (fun c => accepted stbi_load c.1 = true) scene_textures ->
  m_loadedTextures s = 0 ->
  length (m_textureIDs s) = MAX_TEXTURES ->
  exists s1 s2,
    LoadSceneTextures stbi_load s = Ok (tt, s1) /\
    LoadSceneTextures stbi_load s1 = Ok (tt, s2) /\
    m_loadedTextures s1 = 8 /\
    m_loadedTextures s2 = 16 /\
    (forall (i : nat) c,
       scene_textures !! i = Some c -> FindTextureSlot c.2 s2 = Ok (Z.of_nat i, s2)) /\
    LoadSceneTextures stbi_load s2 = Fault (OutOfBounds 16).
Proof.
  intros Hall Hzero Hcap. unfold MAX_TEXTURES in Hcap.
  assert (within_capacity s) as Hwf0 by (unfold within_capacity; lia).
  destruct (LoadSceneTextures_room stbi_load s Hwf0) as (s1 & Hrun1 & Hwf1 & Htags1 & Hlen1);
    [lia|].
  assert (registry s = []) as Hempty by (unfold registry; by rewrite Hzero).
  rewrite Hempty, filter_all, scene_texture_tags in Htags1 by done. cbn [fmap list_fmap app] in Htags1.
  assert (m_loadedTextures s1 = 8) as Hcount1.
  { pose proof (f_equal length Htags1) as Hl.
    rewrite length_fmap, registry_length in Hl by done. cbn in Hl. destruct Hwf1. lia. }
  destruct (LoadSceneTextures_room stbi_load s1 Hwf1) as (s2 & Hrun2 & Hwf2 & Htags2 & Hlen2);
    [lia|].
  rewrite Htags1, filter_all, scene_texture_tags in Htags2 by done. cbn [app] in Htags2.
  assert (m_loadedTextures s2 = 16) as Hcount2.
  { pose proof (f_equal length Htags2) as Hl.
    rewrite length_fmap, registry_length in Hl by done. cbn in Hl. destruct Hwf2. lia. }
  exists s1, s2. split; [exact Hrun1|]. split; [exact Hrun2|].
  split; [exact Hcount1|]. split; [exact Hcount2|]. split.
  - intros i c Hi. rewrite FindTextureSlot_registry by done.
    pose proof (list_find_tag c.2 (registry s2)) as Hfind. rewrite Htags2 in Hfind.
    assert (fst <$> list_find (fun t' => t' = c.2)
                      [ "onyx"; "ice"; "wood"; "ground"; "concrete"; "metal"; "wood2";
                        "meat"; "onyx"; "ice"; "wood"; "ground"; "concrete"; "metal";
                        "wood2"; "meat" ] = Some i) as Hi'.
    { do 8 (destruct i as [|i]; [injection Hi as <-; reflexivity|]). discriminate. }
    rewrite Hi' in Hfind.
    destruct (list_find _ (registry s2)) as [[k e]|]; [|discriminate].
    by injection Hfind as ->.
  - unfold LoadSceneTextures. apply bind_Fault.
    rewrite (load_textures_overflow stbi_load scene_textures s2).
    + by rewrite Hlen2, Hlen1, Hcap.
    + eapply Forall_impl; [exact Hall|]. intros c Hc. by apply accepted_true.
    + exact Hwf2.
    + rewrite Hlen2, Hlen1, Hcap, Hcount2. cbn. lia.
Qed.

Lemma LoadSceneTextures_third_run_overflows_witness :
  exists s1 s2,
    LoadSceneTextures any_rgb new_scene = Ok (tt, s1) /\
    LoadSceneTextures any_rgb s1 = Ok (tt, s2) /\
    m_loadedTextures s1 = 8 /\
    m_loadedTextures s2 = 16 /\
    (forall (i : nat) c,
       scene_textures !! i = Some c -> FindTextureSlot c.2 s2 = Ok (Z.of_nat i, s2)) /\
    LoadSceneTextures any_rgb s2 = Fault (OutOfBounds 16).
Proof.
  apply (LoadSceneTextures_third_run_overflows any_rgb new_scene).
  - apply Forall_forall. intros c _. reflexivity.
  - reflexivity.
  - reflexivity.
Defined.



(** ** The blocks of [RenderScene] *)

Lemma objects_of_sound : forall os script,
  objects_of script = Some os -> script = flat_map object_statements os.
Proof.
  induction os as [|o os IH]; intros script Hparse.
  - destruct script as [|st1 script]; [done|]. exfalso.
    destruct st1; try discriminate.
    destruct script as [|st2 script]; [discriminate|].
    destruct st2; try discriminate.
    + destruct script as [|st3 script]; [discriminate|].
      destruct st3; try discriminate.
      destruct script as [|st4 script]; [discriminate|].
      destruct st4; try discriminate.
      cbn in Hparse. destruct (objects_of script); discriminate.
    + destruct script as [|st3 script]; [discriminate|].
      destruct st3; try discriminate.
      destruct script as [|st4 script]; [discriminate|].
      destruct st4; try discriminate.
      destruct script as [|st5 script]; [discriminate|].
      destruct st5; try discriminate.
      cbn in Hparse. destruct (objects_of script); discriminate.
  - destruct script as [|st1 script]; [discriminate|].
    destruct st1; try discriminate.
    destruct script as [|st2 script]; [discriminate|].
    destruct st2; try discriminate.
    + destruct script as [|st3 script]; [discriminate|].
      destruct st3; try discriminate.
      destruct script as [|st4 script]; [discriminate|].
      destruct st4; try discriminate.
      cbn in Hparse. destruct (objects_of script) as [os'|] eqn:E; [|discriminate].
      injection Hparse as <- <-. cbn. do 4 f_equal. by apply IH.
    + destruct script as [|st3 script]; [discriminate|].
      destruct st3; try discriminate.
      destruct script as [|st4 script]; [discriminate|].
      destruct st4; try discriminate.
      destruct script as [|st5 script]; [discriminate|].
      destruct st5; try discriminate.
      cbn in Hparse. destruct (objects_of script) as [os'|] eqn:E; [|discriminate].
      injection Hparse as <- <-. cbn. do 5 f_equal. by apply IH.
Qed.

Lemma render_script_objects :
  exists os, objects_of render_script = Some os /\ length os = 20%nat.
Proof. eexists. split; reflexivity. Qed.

Lemma SetShaderMaterial_uniforms t ind s sm :
  m_pShaderManager s = Some sm ->
  exists calls,
    SetShaderMaterial t ind s = Ok (tt, set_shader (Some (sm ++ calls)) s) /\
    (calls = [] \/
     exists m, calls = [ ("material.diffuseColor", Vec3Value (diffuseColor m));
                         ("material.specularColor", Vec3Value (specularColor m));
                         ("material.shininess", FloatValue (shininess m)) ]).
Proof.
  intros Hsm. unfold SetShaderMaterial. cbn [bind get].
  destruct (0 <? Z.of_nat (length (m_objectMaterials s))).
  2: { exists []. rewrite set_shader_same by done. split; [done|by left]. }
  pose proof (FindMaterial_spec t ind s) as Hfind.
  destruct (m_objectMaterials s) as [|m0 ms].
  { rewrite (bind_Ok _ _ _ _ _ Hfind).
    exists []. rewrite set_shader_same by done. split; [done|by left]. }
  match type of Hfind with _ = Ok ((true, ?m), _) => set (out' := m) in Hfind end.
  clearbody out'. rewrite (bind_Ok _ _ _ _ _ Hfind).
  rewrite (bind_Ok _ _ _ _ _ (shader_set_Ok _ _ _ _ Hsm)).
  erewrite (bind_Ok (shader_set _ _)) by (by apply shader_set_Ok).
  erewrite shader_set_Ok by reflexivity.
  rewrite !set_shader_set_shader, <- !app_assoc.
  eexists. split; [reflexivity|]. right. by exists out'.
Qed.

Lemma exec_Transformations ind sc rx ry rz pos s sm :
  m_pShaderManager s = Some sm ->
  exec ind (Transformations sc rx ry rz pos) s
  = Ok ([], set_shader
              (Some (sm ++ [(g_ModelName, Mat4Value (modelView sc rx ry rz pos))])) s).
Proof.
  intros Hsm. cbn [exec].
  by rewrite (bind_Ok _ _ _ _ _ (SetTransformations_bound _ _ _ _ _ _ _ Hsm)).
Qed.

Lemma exec_ShaderColor ind r g b a s sm :
  m_pShaderManager s = Some sm ->
  exec ind (ShaderColor r g b a) s
  = Ok ([], set_shader
              (Some (sm ++ [ (g_UseTextureName, IntValue 0);
                             (g_ColorValueName, Vec4Value (glm.Vec4 r g b a)) ])) s).
Proof.
  intros Hsm. cbn [exec].
  by rewrite (bind_Ok _ _ _ _ _ (SetShaderColor_bound _ _ _ _ _ _ Hsm)).
Qed.

Lemma exec_ShaderTexture ind t s sm slot :
  m_pShaderManager s = Some sm ->
  FindTextureSlot t s = Ok (slot, s) ->
  exec ind (ShaderTexture t) s
  = Ok ([], set_shader
              (Some (sm ++ [ (g_UseTextureName, IntValue 1);
                             (g_TextureValueName, Sampler2DValue slot) ])) s).
Proof.
  intros Hsm Hfind. cbn [exec].
  by rewrite (bind_Ok _ _ _ _ _ (SetShaderTexture_bound _ _ _ _ Hsm Hfind)).
Qed.

Lemma exec_TextureUVScale ind u v s sm :
  m_pShaderManager s = Some sm ->
  exec ind (TextureUVScale u v) s
  = Ok ([], set_shader (Some (sm ++ [("UVscale", Vec2Value (glm.Vec2 u v))])) s).
Proof.
  intros Hsm. cbn [exec].
  by rewrite (bind_Ok _ _ _ _ _ (SetTextureUVScale_bound _ _ _ _ Hsm)).
Qed.

Lemma exec_ShaderMaterial ind t s sm :
  m_pShaderManager s = Some sm ->
  exists calls,
    exec ind (ShaderMaterial t) s = Ok ([], set_shader (Some (sm ++ calls)) s) /\
    (calls = [] \/
     exists m, calls = [ ("material.diffuseColor", Vec3Value (diffuseColor m));
                         ("material.specularColor", Vec3Value (specularColor m));
                         ("material.shininess", FloatValue (shininess m)) ]).
Proof.
  intros Hsm.
  destruct (SetShaderMaterial_uniforms t ind s sm Hsm) as (calls & Hrun & Hcalls).
  exists calls. split; [|done]. cbn [exec]. by rewrite (bind_Ok _ _ _ _ _ Hrun).
Qed.

Lemma exec_Draw ind mesh s :
  exec ind (Draw mesh) s = Ok ([(mesh, m_pShaderManager s)], s).
Proof. reflexivity. Qed.

Lemma run_cons ind st rest s d s' ds s'' :
  exec ind st s = Ok (d, s') ->
  run ind rest s' = Ok (ds, s'') ->
  run ind (st :: rest) s = Ok (d ++ ds, s'').
Proof.
  intros Hexec Hrun. cbn [run].
  by rewrite (bind_Ok _ _ _ _ _ Hexec), (bind_Ok _ _ _ _ _ Hrun).
Qed.

(** One block after the other: every draw is made with the uniforms of its
    own block. *)
Lemma run_objects ind s0 os :
  within_capacity s0 ->
  forall sm,
  exists calls draws,
    run ind (flat_map object_statements os) (set_shader (Some sm) s0)
    = Ok (draws, set_shader (Some (sm ++ calls)) s0) /\
    Forall2 (drawn_as s0) os draws.
Proof.
  intros Hwf. induction os as [|o os IH]; intros sm.
  - exists [], []. rewrite app_nil_r. split; [done|constructor].
  - destruct o as [sc rx ry rz pos look m mesh].
    cbn [flat_map]. unfold object_statements at 1.
    set (c1 := [(g_ModelName, Mat4Value (modelView sc rx ry rz pos))]).
    pose proof (exec_Transformations ind sc rx ry rz pos (set_shader (Some sm) s0) sm eq_refl)
      as H1.
    change (exec ind (Transformations sc rx ry rz pos) (set_shader (Some sm) s0)
            = Ok ([], set_shader (Some (sm ++ c1)) s0)) in H1.
    destruct look as [r g b a|t u v];
      cbn [object_scale object_Xrotation object_Yrotation object_Zrotation
           object_position object_look_of object_material object_mesh app].
    + set (c2 := [ (g_UseTextureName, IntValue 0);
                   (g_ColorValueName, Vec4Value (glm.Vec4 r g b a)) ]).
      pose proof (exec_ShaderColor ind r g b a (set_shader (Some (sm ++ c1)) s0) _ eq_refl)
        as H2.
      change (exec ind (ShaderColor r g b a) (set_shader (Some (sm ++ c1)) s0)
              = Ok ([], set_shader (Some ((sm ++ c1) ++ c2)) s0)) in H2.
      destruct (exec_ShaderMaterial ind m (set_shader (Some ((sm ++ c1) ++ c2)) s0) _ eq_refl)
        as (cm & Hm & Hcm).
      change (exec ind (ShaderMaterial m) (set_shader (Some ((sm ++ c1) ++ c2)) s0)
              = Ok ([], set_shader (Some (((sm ++ c1) ++ c2) ++ cm)) s0)) in Hm.
      destruct (IH (((sm ++ c1) ++ c2) ++ cm)) as (calls & draws & Hrun & Hdraws).
      rewrite (run_cons _ _ _ _ _ _ _ _ H1
                 (run_cons _ _ _ _ _ _ _ _ H2
                    (run_cons _ _ _ _ _ _ _ _ Hm
                       (run_cons _ _ _ _ _ _ _ _ (exec_Draw ind mesh _) Hrun)))).
      exists (c1 ++ c2 ++ cm ++ calls), ((mesh, Some (((sm ++ c1) ++ c2) ++ cm)) :: draws).
      split; [by rewrite <- !app_assoc|].
      constructor; [|done]. split; [done|].
      eexists. split; [reflexivity|]. cbn [object_look_of].
      rewrite <- !app_assoc.
      destruct Hcm as [->|(m' & ->)]; by rewrite !current_uniform_app.
    + set (slot := match list_find (fun e => tag e = t) (registry s0) with
                   | Some (k, _) => Z.of_nat k
                   | None => -1
                   end).
      set (c2 := [ (g_UseTextureName, IntValue 1);
                   (g_TextureValueName, Sampler2DValue slot) ]).
      set (c3 := [("UVscale", Vec2Value (glm.Vec2 u v))]).
      pose proof (exec_ShaderTexture ind t (set_shader (Some (sm ++ c1)) s0) _ _ eq_refl
                    (FindTextureSlot_registry t (set_shader (Some (sm ++ c1)) s0) Hwf))
        as H2.
      change (exec ind (ShaderTexture t) (set_shader (Some (sm ++ c1)) s0)
              = Ok ([], set_shader (Some ((sm ++ c1) ++ c2)) s0)) in H2.
      pose proof (exec_TextureUVScale ind u v
                    (set_shader (Some ((sm ++ c1) ++ c2)) s0) _ eq_refl) as H3.
      change (exec ind (TextureUVScale u v) (set_shader (Some ((sm ++ c1) ++ c2)) s0)
              = Ok ([], set_shader (Some (((sm ++ c1) ++ c2) ++ c3)) s0)) in H3.
      destruct (exec_ShaderMaterial ind m
                  (set_shader (Some (((sm ++ c1) ++ c2) ++ c3)) s0) _ eq_refl)
        as (cm & Hm & Hcm).
      change (exec ind (ShaderMaterial m) (set_shader (Some (((sm ++ c1) ++ c2) ++ c3)) s0)
              = Ok ([], set_shader (Some ((((sm ++ c1) ++ c2) ++ c3) ++ cm)) s0)) in Hm.
      destruct (IH ((((sm ++ c1) ++ c2) ++ c3) ++ cm)) as (calls & draws & Hrun & Hdraws).
      rewrite (run_cons _ _ _ _ _ _ _ _ H1
                 (run_cons _ _ _ _ _ _ _ _ H2
                    (run_cons _ _ _ _ _ _ _ _ H3
                       (run_cons _ _ _ _ _ _ _ _ Hm
                          (run_cons _ _ _ _ _ _ _ _ (exec_Draw ind mesh _) Hrun))))).
      exists (c1 ++ c2 ++ c3 ++ cm ++ calls),
             ((mesh, Some ((((sm ++ c1) ++ c2) ++ c3) ++ cm)) :: draws).
      split; [by rewrite <- !app_assoc|].
      constructor; [|done]. split; [done|].
      eexists. split; [reflexivity|]. cbn [object_look_of].
      rewrite <- !app_assoc.
      destruct Hcm as [->|(m' & ->)]; rewrite !current_uniform_app;
        (split; [done|]); (split; [done|]); (split; [|done]);
        (exists slot; split; [apply (FindTextureSlot_registry t s0 Hwf)|done]).
Qed.

(** X26. [RenderScene] is written as 20 blocks, each of which sets a
    transformation, then either a colour or a texture with its UV scale, then
    a material, and then draws one mesh.  So with a shader manager bound, no
    draw is made with a value left over from an earlier object: at each draw
    call the model matrix last submitted is that of the block's own scale,
    rotations and position; for a coloured object [bUseTexture] is 0 and
    [objectColor] is its colour; for a textured one [bUseTexture] is 1,
    [objectTexture] is what [FindTextureSlot] gives for its tag and [UVscale]
    is its own scale. *)
Theorem RenderScene_draws_with_own_uniforms (indeterminate : OBJECT_MATERIAL)
    (s : SceneManager) (sm : ShaderManager) :
  m_pShaderManager s = Some sm ->
  within_capacity s ->
  exists os draws s',
    objects_of render_script = Some os /\
    length os = 20%nat /\
    RenderScene indeterminate s = Ok (draws, s') /\
    Forall2 (drawn_as s) os draws.
Proof.
  intros Hsm Hwf.
  destruct render_script_objects as (os & Hos & Hlen).
  destruct (run_objects indeterminate s os Hwf sm) as (calls & draws & Hrun & Hdraws).
  exists os, draws, (set_shader (Some (sm ++ calls)) s).
  split; [exact Hos|]. split; [exact Hlen|]. split; [|exact Hdraws].
  unfold RenderScene. rewrite (objects_of_sound os render_script Hos).
  rewrite <- (set_shader_same s sm Hsm) at 1. rewrite app_nil_r. exact Hrun.
Qed.

Lemma RenderScene_draws_with_own_uniforms_witness :
  exists os draws s',
    objects_of render_script = Some os /\
    length os = 20%nat /\
    RenderScene cementMaterial wood_glass_scene = Ok (draws, s') /\
    Forall2 (drawn_as wood_glass_scene) os draws.
Proof.
  apply (RenderScene_draws_with_own_uniforms cementMaterial wood_glass_scene []).
  - reflexivity.
  - unfold within_capacity. cbn. lia.
Defined.

(** ** Histories *)

(** What the methods that load nothing leave as it is: the counter, the size
    of the table and the tags of the registered entries. *)
Lemma same_scene_tags s s' :
  same_scene s s' ->
  m_loadedTextures s' = m_loadedTextures s /\
  length (m_textureIDs s') = length (m_textureIDs s) /\
  tag <$> registry s' = tag <$> registry s.
Proof. intros (Ht & Hn & _ & _). unfold registry. by rewrite Ht, Hn. Qed.

Lemma DestroyGLTextures_tags s s' :
  within_capacity s ->
  DestroyGLTextures s = Ok (tt, s') ->
  m_loadedTextures s' = m_loadedTextures s /\
  length (m_textureIDs s') = length (m_textureIDs s) /\
  tag <$> registry s' = tag <$> registry s.
Proof.
  intros [H0 H1]. unfold DestroyGLTextures. cbn [bind get].
  destruct (DestroyGLTextures_loop_table (Z.to_nat (m_loadedTextures s)) 0 s)
    as (table & -> & Hlen & Htable); [lia|lia|].
  intros [= <-]. cbn [m_loadedTextures m_textureIDs set_textureIDs set_gl].
  split; [done|]. split; [done|].
  unfold registry. cbn [m_loadedTextures m_textureIDs set_textureIDs set_gl].
  apply list_eq. intros j. rewrite !list_lookup_fmap.
  destruct (decide (j < Z.to_nat (m_loadedTextures s))%nat) as [Hj|Hj].
  - rewrite !lookup_take_lt by lia.
    destruct (lookup_lt_is_Some_2 (m_textureIDs s) j) as [e He]; [lia|].
    rewrite (Htable j e He), He. cbn. by destruct (decide _).
  - rewrite !lookup_take_ge by lia. done.
Qed.

Lemma perform_tags op s s' :
  within_capacity s ->
  perform op s = Ok (tt, s') ->
  m_loadedTextures s' = m_loadedTextures s /\
  length (m_textureIDs s') = length (m_textureIDs s) /\
  tag <$> registry s' = tag <$> registry s.
Proof.
  intros Hwf Hrun. destruct op; cbn [perform] in Hrun.
  - destruct (BindGLTextures_spec s Hwf) as (g & Hbind & _).
    rewrite Hbind in Hrun. by injection Hrun as <-.
  - by apply DestroyGLTextures_tags.
  - rewrite (bind_Ok _ _ _ _ _ (FindTextureID_registry tag0 s Hwf)) in Hrun.
    by injection Hrun as <-.
  - rewrite (bind_Ok _ _ _ _ _ (FindTextureSlot_registry tag0 s Hwf)) in Hrun.
    by injection Hrun as <-.
  - rewrite (bind_Ok _ _ _ _ _ (FindMaterial_spec tag0 material s)) in Hrun.
    by injection Hrun as <-.
  - apply same_scene_tags. by apply SetTransformations_frame in Hrun as [? _].
  - apply same_scene_tags. by apply SetShaderColor_frame in Hrun as [? _].
  - apply same_scene_tags. by apply SetShaderTexture_frame in Hrun as [? _].
  - apply same_scene_tags. by apply SetTextureUVScale_frame in Hrun as [? _].
  - apply same_scene_tags. by apply SetShaderMaterial_frame in Hrun as [? _].
  - rewrite DefineObjectMaterials_run in Hrun. by injection Hrun as <-.
  - destruct (m_pShaderManager s) as [sm|] eqn:Hsm.
    + rewrite (SetupSceneLights_run s sm Hsm) in Hrun. by injection Hrun as <-.
    + unfold SetupSceneLights in Hrun.
      erewrite bind_Fault in Hrun by (by apply shader_set_null). discriminate.
  - apply bind_inv in Hrun as (draws & s1 & Hrun & Hret).
    injection Hret as <-. apply same_scene_tags.
    by apply run_frame in Hrun as (_ & ? & _).
Qed.

(** In a history the tags of the registry are those it had at the start
    followed by the tags of the loads that returned [true]. *)
Lemma history_registry stbi_load s0 tags s :
  history stbi_load s0 tags s ->
  within_capacity s0 ->
  within_capacity s /\ tag <$> registry s = (tag <$> registry s0) ++ tags.
Proof.
  induction 1 as [s|s0 tags s1 filename t s2 _ IH Hcall
                  |s0 tags s1 filename t s2 _ IH Hcall
                  |s0 tags s1 op s2 _ IH Hrun]; intros Hwf.
  - by rewrite app_nil_r.
  - destruct (IH Hwf) as (Hwf1 & Hreg).
    destruct (CreateGLTexture_true_inv _ _ _ _ _ Hcall) as (Hn & g & ->).
    unfold within_capacity, registry in *. cbn.
    rewrite length_insert. split; [lia|].
    replace (Z.to_nat (m_loadedTextures s1 + 1)) with (S (Z.to_nat (m_loadedTextures s1))) by lia.
    erewrite take_S_r by (apply list_lookup_insert_eq; lia).
    rewrite take_insert_ge by lia. by rewrite fmap_app, Hreg, app_assoc.
  - destruct (IH Hwf) as (Hwf1 & Hreg).
    destruct (CreateGLTexture_false_inv _ _ _ _ _ Hcall) as (g & ->).
    by destruct s1.
  - destruct (IH Hwf) as (Hwf1 & Hreg).
    destruct (perform_tags op s1 s2 Hwf1 Hrun) as (Hn & Hlen & Htags).
    split; [|by rewrite Htags].
    unfold within_capacity in *. by rewrite Hn, Hlen.
Qed.

Lemma history_trans stbi_load s0 tags s1 more s2 :
  history stbi_load s0 tags s1 ->
  history stbi_load s1 more s2 ->
  history stbi_load s0 (tags ++ more) s2.
Proof.
  intros H1. induction 1 as [s|s1 more s2 filename t s3 _ IH Hcall
                             |s1 more s2 filename t s3 _ IH Hcall
                             |s1 more s2 op s3 _ IH Hrun].
  - by rewrite app_nil_r.
  - rewrite app_assoc. eapply history_load; [by apply IH|exact Hcall].
  - eapply history_load_failed; [by apply IH|exact Hcall].
  - eapply history_operation; [by apply IH|exact Hrun].
Qed.

(** A series of loads is a history. *)
Lemma loaded_history stbi_load s0 entries s :
  loaded stbi_load s0 entries s -> history stbi_load s0 (tag <$> entries) s.
Proof.
  induction 1 as [s|s0 entries s1 filename t s2 handle _ IH Hcall Hh
                  |s0 entries s1 filename t s2 _ IH Hcall].
  - constructor.
  - rewrite fmap_app. eapply history_load; [exact IH|exact Hcall].
  - eapply history_load_failed; [exact IH|exact Hcall].
Qed.

(** [LoadSceneTextures], [PrepareScene]: made of loads and operations. *)
Lemma load_textures_history stbi_load calls : forall s results s',
  load_textures stbi_load calls s = Ok (results, s') ->
  exists more, history stbi_load s more s' /\ more ⊆ calls.*2.
Proof.
  induction calls as [|[filename t] calls IH]; intros s results s' Hrun.
  - injection Hrun as <- <-. exists []. split; [constructor|].
    intros x Hx. by apply elem_of_nil in Hx.
  - cbn [load_textures] in Hrun.
    apply bind_inv in Hrun as (b & s1 & Hcall & Hrun).
    apply bind_inv in Hrun as (bs & s2 & Hrest & Hret).
    injection Hret as <- <-.
    destruct (IH _ _ _ Hrest) as (more & Hmore & Hsub).
    destruct b.
    + exists ([t] ++ more). split.
      * apply (history_trans _ _ [t] s1); [|exact Hmore].
        apply (history_load _ _ [] s _ _ _ (history_start _ _) Hcall).
      * cbn. intros x [->|Hx]%elem_of_cons; [by left|right; by apply Hsub].
    + exists more. split.
      * apply (history_trans _ _ [] s1); [|exact Hmore].
        apply (history_load_failed _ _ [] s _ _ _ (history_start _ _) Hcall).
      * cbn. intros x Hx. right. by apply Hsub.
Qed.

Lemma LoadSceneTextures_history stbi_load s0 tags s s' :
  history stbi_load s0 tags s ->
  LoadSceneTextures stbi_load s = Ok (tt, s') ->
  exists more, history stbi_load s0 (tags ++ more) s' /\ more ⊆ scene_textures.*2.
Proof.
  intros Hhist Hrun. unfold LoadSceneTextures in Hrun.
  apply bind_inv in Hrun as (results & s1 & Hload & Hbind).
  destruct (load_textures_history _ _ _ _ _ Hload) as (more & Hmore & Hsub).
  exists more. split; [|exact Hsub].
  apply (history_operation _ _ _ s1 DoBindGLTextures); [|exact Hbind].
  by apply (history_trans _ _ _ s).
Qed.

Lemma PrepareScene_history stbi_load s0 tags s calls s' :
  history stbi_load s0 tags s ->
  PrepareScene stbi_load s = Ok (calls, s') ->
  exists more, history stbi_load s0 (tags ++ more) s' /\ more ⊆ scene_textures.*2.
Proof.
  intros Hhist Hrun. unfold PrepareScene in Hrun.
  apply bind_inv in Hrun as ([] & s1 & Hdefine & Hrun).
  apply bind_inv in Hrun as ([] & s2 & Hlights & Hrun).
  apply bind_inv in Hrun as ([] & s3 & Hload & Hret).
  injection Hret as _ <-.
  apply (LoadSceneTextures_history _ _ _ s2); [|exact Hload].
  apply (history_operation _ _ _ s1 DoSetupSceneLights); [|exact Hlights].
  by apply (history_operation _ _ _ s DoDefineObjectMaterials).
Qed.

Lemma history_wood_glass_bound :
  history example_files new_scene ["wood"; "glass"] wood_glass_bound_scene.
Proof.
  apply (history_operation _ _ _
           (state_after BindGLTextures wood_glass_scene) (DoSetShaderTexture "wood")).
  - apply (history_operation _ _ _ wood_glass_scene DoBindGLTextures).
    + exact (loaded_history _ _ _ _ loaded_wood_glass).
    + vm_compute. reflexivity.
  - vm_compute. reflexivity.
Qed.

(** C6. In every state an object reaches from an empty table, whatever
    methods were called on the way (loads, [BindGLTextures],
    [DestroyGLTextures], lookups, submissions, [DefineObjectMaterials],
    [SetupSceneLights], [RenderScene]), a tag that no [CreateGLTexture] call
    that returned [true] was given is not found: [FindTextureSlot] returns
    -1.  [SetShaderTexture] with such a tag returns normally; with a shader
    manager it sets [bUseTexture] to 1 ([true]) and then submits -1 as the
    sampler value of [objectTexture], and nothing else. *)
Theorem SetShaderTexture_unregistered_tag (stbi_load : string -> option stbi_image)
    (s0 s : SceneManager) (tags : list string) (t : string) :
  history stbi_load s0 tags s ->
  m_loadedTextures s0 = 0 ->
  t ∉ tags ->
  FindTextureSlot t s = Ok (-1, s) /\
  (exists s', SetShaderTexture t s = Ok (tt, s')) /\
  forall sm, m_pShaderManager s = Some sm ->
    SetShaderTexture t s
    = Ok (tt, set_shader (Some (sm ++ [ (g_UseTextureName, IntValue 1);
                                        (g_TextureValueName, Sampler2DValue (-1)) ])) s).
Proof.
  intros Hhist H0 Hnot.
  assert (within_capacity s0) as Hwf0 by (unfold within_capacity; lia).
  destruct (history_registry _ _ _ _ Hhist Hwf0) as (Hwf & Hreg).
  assert (registry s0 = []) as Hempty by (unfold registry; by rewrite H0).
  rewrite Hempty in Hreg. cbn in Hreg. rewrite <- Hreg in Hnot.
  pose proof (FindTextureSlot_absent t s Hwf Hnot) as Hfind.
  assert (forall sm, m_pShaderManager s = Some sm ->
    SetShaderTexture t s
    = Ok (tt, set_shader (Some (sm ++ [ (g_UseTextureName, IntValue 1);
                                        (g_TextureValueName, Sampler2DValue (-1)) ])) s))
    as Hbound.
  { intros sm Hsm. by apply SetShaderTexture_bound. }
  split; [exact Hfind|]. split; [|exact Hbound].
  destruct (m_pShaderManager s) as [sm|] eqn:Hsm.
  - eexists. by apply Hbound.
  - exists s. by apply SetShaderTexture_null.
Qed.

Lemma SetShaderTexture_unregistered_tag_witness :
  FindTextureSlot "marble" wood_glass_bound_scene = Ok (-1, wood_glass_bound_scene) /\
  (exists s', SetShaderTexture "marble" wood_glass_bound_scene = Ok (tt, s')) /\
  forall sm, m_pShaderManager wood_glass_bound_scene = Some sm ->
    SetShaderTexture "marble" wood_glass_bound_scene
    = Ok (tt, set_shader (Some (sm ++ [ (g_UseTextureName, IntValue 1);
                                        (g_TextureValueName, Sampler2DValue (-1)) ]))
                wood_glass_bound_scene).
Proof.
  apply (SetShaderTexture_unregistered_tag example_files new_scene
           wood_glass_bound_scene ["wood"; "glass"] "marble").
  - exact history_wood_glass_bound.
  - reflexivity.
  - apply (bool_decide_unpack _). vm_compute. exact I.
Defined.

(** X24. In every state an object reaches from an empty table, whatever
    methods were called on the way, [SetShaderTexture] with the tag of the
    i-th load that returned [true] (these tags pairwise distinct) switches
    texture sampling on and submits [i] as the texture slot. *)
Theorem SetShaderTexture_registered_tag (stbi_load : string -> option stbi_image)
    (s0 s : SceneManager) (tags : list string) (sm : ShaderManager)
    (i : nat) (t : string) :
  history stbi_load s0 tags s ->
  m_loadedTextures s0 = 0 ->
  NoDup tags ->
  tags !! i = Some t ->
  m_pShaderManager s = Some sm ->
  SetShaderTexture t s
  = Ok (tt, set_shader (Some (sm ++ [ (g_UseTextureName, IntValue 1);
                                      (g_TextureValueName, Sampler2DValue (Z.of_nat i)) ]))
              s).
Proof.
  intros Hhist H0 Hnd Hi Hsm.
  assert (within_capacity s0) as Hwf0 by (unfold within_capacity; lia).
  destruct (history_registry _ _ _ _ Hhist Hwf0) as (Hwf & Hreg).
  assert (registry s0 = []) as Hempty by (unfold registry; by rewrite H0).
  rewrite Hempty in Hreg. cbn [app fmap list_fmap] in Hreg.
  rewrite <- Hreg in Hnd, Hi.
  apply list_lookup_fmap_Some in Hi as (e & Ht & He).
  apply SetShaderTexture_bound; [exact Hsm|].
  by apply (FindTextureSlot_present _ _ i e).
Qed.

Lemma SetShaderTexture_registered_tag_witness :
  SetShaderTexture "glass" wood_glass_bound_scene
  = Ok (tt, set_shader (Some ([ (g_UseTextureName, IntValue 1);
                                (g_TextureValueName, Sampler2DValue 0) ]
                              ++ [ (g_UseTextureName, IntValue 1);
                                   (g_TextureValueName, Sampler2DValue 1) ]))
              wood_glass_bound_scene).
Proof.
  apply (SetShaderTexture_registered_tag example_files new_scene wood_glass_bound_scene
           ["wood"; "glass"] _ 1 "glass").
  - exact history_wood_glass_bound.
  - reflexivity.
  - apply (bool_decide_unpack _). vm_compute. exact I.
  - reflexivity.
  - vm_compute. reflexivity.
Defined.
